(** * Reconciliation engine of the cluster autoscaler: a shallow embedding

    The development follows the Go sources:
    - [core/utils] helpers reading the bounds from the
      [autoscaling-configmap] ([GetMinSizeNodeGroup], [GetMaxSizeNodeGroup]);
    - [core/static_autoscaler.go]: [RunOnce] and its helpers
      ([cleanUpIfRequired], [obtainNodeLists], [initializeClusterSnapshot],
      [filterOutYoungPods], [allPodsAreNew], [checkWorkerNodeCanBeRemove]);
    - [expander/grpcplugin]: [BestOptions] and
      [transformAndSanitizeOptionsFromGRPC];
    - [processors/status]: [EventingScaleUpStatusProcessor.Process].

    Go values are modelled as follows: [string] is a byte string, [int] is a
    64-bit integer carried by [Z] with its wrap-around written out,
    [time.Time] and [time.Duration] are nanosecond counts in [Z], slices are
    lists, [map[string]T] is a [gmap string T].  A run-time panic and a
    [log.Fatal] exit are explicit results. *)

From Stdlib Require Import ZArith Lia Bool List Ascii String DecimalString
  DecimalPos.
From stdpp Require Import base option list strings gmap.
Import ListNotations.
Local Open Scope string_scope.
Local Open Scope list_scope.
Local Open Scope Z_scope.

(** ** Go strings: [strings.Contains], [strings.HasSuffix], [strconv] *)

Module GoStrings.

(** [strings.HasPrefix(s, prefix)]. *)
Fixpoint HasPrefix (s prefix : string) : bool :=
  match prefix with
  | EmptyString => true
  | String c prefix' =>
      match s with
      | EmptyString => false
      | String d s' => Ascii.eqb c d && HasPrefix s' prefix'
      end
  end.

(** [strings.Contains(s, substr)]: [substr] occurs at some offset of [s]. *)
Fixpoint Contains (s substr : string) : bool :=
  HasPrefix s substr ||
  match s with
  | EmptyString => false
  | String _ s' => Contains s' substr
  end.

(** [strings.HasSuffix(s, suffix)]:
    [len(s) >= len(suffix) && s[len(s)-len(suffix):] == suffix]. *)
Definition HasSuffix (s suffix : string) : bool :=
  (String.length suffix <=? String.length s)%nat &&
  String.eqb
    (substring (String.length s - String.length suffix)
               (String.length suffix) s)
    suffix.

(** Bounds of Go's [int] on the 64-bit platforms the autoscaler runs on. *)
Definition minInt : Z := - 2 ^ 63.
Definition maxInt : Z := 2 ^ 63 - 1.

Definition inInt (z : Z) : bool := (minInt <=? z) && (z <=? maxInt).

(** Two's complement wrap-around of [int] arithmetic. *)
Definition wrapInt (z : Z) : Z := (z + 2 ^ 63) mod 2 ^ 64 - 2 ^ 63.

(** [a - b] on [int]. *)
Definition intSub (a b : Z) : Z := wrapInt (a - b).

(** [strconv.Itoa]: the decimal form, ["0"] for zero, a leading [-] for
    negative numbers, no leading zeros. *)
Definition Itoa (z : Z) : string := NilZero.string_of_int (Z.to_int z).

Definition digitValue (c : ascii) : option Z :=
  let n := Z.of_N (N_of_ascii c) in
  if (48 <=? n) && (n <=? 57) then Some (n - 48) else None.

Fixpoint parseDigits (s : string) (acc : Z) : option Z :=
  match s with
  | EmptyString => Some acc
  | String c s' =>
      match digitValue c with
      | Some d => parseDigits s' (acc * 10 + d)
      | None => None
      end
  end.

(** [strconv.Atoi]: an optional sign followed by at least one decimal digit;
    [None] stands for the syntax and range errors. *)
Definition Atoi (s : string) : option Z :=
  match s with
  | EmptyString => None
  | String c s' =>
      let neg := Ascii.eqb c "-" in
      let body := if neg || Ascii.eqb c "+" then s' else s in
      match body with
      | EmptyString => None
      | _ =>
          match parseDigits body 0 with
          | Some n =>
              let v := if neg then - n else n in
              if inInt v then Some v else None
          | None => None
          end
      end
  end.

End GoStrings.
Export GoStrings.

(** ** Results of Go code that may panic or exit *)

(** A function body either returns, panics (index out of range) or
    terminates the process ([log.Fatal], [klog.Fatalf]). *)
Inductive GoResult (A : Type) : Type :=
| Done (a : A)
| Panicked
| Exited.
Arguments Done {A} a.
Arguments Panicked {A}.
Arguments Exited {A}.

Definition go_bind {A B} (r : GoResult A) (k : A -> GoResult B) : GoResult B :=
  match r with
  | Done a => k a
  | Panicked => Panicked
  | Exited => Exited
  end.

(** ** Time *)

(** [time.Time] as nanoseconds since the epoch, [time.Duration] as
    nanoseconds; the saturation of [Time.Sub] at about 292 years is left
    out. *)
Definition Time := Z.
Definition Duration := Z.

Definition Second : Duration := 1000000000.

(** [t.Add(d)]. *)
Definition Time_Add (t : Time) (d : Duration) : Time := t + d.
(** [t.Sub(u)]. *)
Definition Time_Sub (t u : Time) : Duration := t - u.
(** [t.After(u)]. *)
Definition Time_After (t u : Time) : bool := u <? t.

(** ** The objects of the orchestrator API that the engine reads *)

Record OwnerReference := {
  owner_Kind : string;
  owner_Name : string
}.

(** A volume; [vol_EmptyDir] is [volume.EmptyDir != nil]. *)
Record Volume := {
  vol_Name : string;
  vol_EmptyDir : bool
}.

Record Pod := {
  pod_Name : string;
  pod_Namespace : string;
  pod_CreationTimestamp : Time;
  pod_OwnerReferences : list OwnerReference;
  pod_NodeName : string;               (* Spec.NodeName *)
  pod_Volumes : list Volume;           (* Spec.Volumes *)
  pod_Priority : option Z;             (* Spec.Priority *)
  pod_NominatedNodeName : string       (* Status.NominatedNodeName *)
}.

Record Node := {
  node_Name : string
}.

Record ReplicaSet := {
  rs_Name : string;
  rs_Replicas : Z                      (* Status.Replicas *)
}.

(** The zero value a client returns next to an error. *)
Definition emptyReplicaSet : ReplicaSet := {| rs_Name := ""; rs_Replicas := 0 |}.

(** An event of the orchestrator, as listed for a pod. *)
Record Event := {
  event_Message : string
}.

(** The part of [kube_client.Interface] the sources call.  [None] is the
    error result of a call. *)
Record KubeClient := {
  (* CoreV1().Pods("").List *)
  kc_Pods : option (list Pod);
  (* AppsV1().ReplicaSets(namespace).Get(name) *)
  kc_ReplicaSet : string -> string -> option ReplicaSet;
  (* CoreV1().ConfigMaps("kube-system").Get("autoscaling-configmap"): Data *)
  kc_ConfigMap : option (gmap string string);
  (* CoreV1().Events(namespace).List with the field selector
     involvedObject.name=<name>: Items *)
  kc_Events : string -> string -> option (list Event)
}.

(** ** [core/utils]: the bounds of the node group *)

(** The loop [for k, v := range configmaps.Data] assigns at the one key that
    equals [key]; the result is zero when the key is absent. *)
Definition getSizeNodeGroup (key : string) (kubeclient : KubeClient) : GoResult Z :=
  match kc_ConfigMap kubeclient with
  | None => Exited                                   (* klog.Fatalf *)
  | Some data =>
      match data !! key with
      | None => Done 0
      | Some v =>
          match Atoi v with
          | None => Exited                           (* klog.Fatalf *)
          | Some value => Done value
          end
      end
  end.

Definition GetMinSizeNodeGroup : KubeClient -> GoResult Z :=
  getSizeNodeGroup "min_node_group_size".

Definition GetMaxSizeNodeGroup : KubeClient -> GoResult Z :=
  getSizeNodeGroup "max_node_group_size".

(** ** [checkWorkerNodeCanBeRemove] *)

(** The body of the loop over [pods.Items], on the flag [canBeRemove].
    [pod.OwnerReferences[0]] panics on a pod of the node that has no owner
    reference; the conjunction does not evaluate it for the other pods. *)
Definition checkPodOnWorker (kubeclient : KubeClient) (workerNodeName : string)
    (canBeRemove : bool) (pod : Pod) : GoResult bool :=
  if String.eqb (pod_NodeName pod) workerNodeName then
    match pod_OwnerReferences pod with
    | [] => Panicked
    | owner :: _ =>
        if negb (String.eqb (owner_Kind owner) "DaemonSet") then
          let replicaset :=
            default emptyReplicaSet
              (kc_ReplicaSet kubeclient (pod_Namespace pod) (owner_Name owner)) in
          let canBeRemove :=
            if rs_Replicas replicaset =? 1 then false else canBeRemove in
          Done (fold_left
                  (fun canBeRemove volume =>
                     if vol_EmptyDir volume then false else canBeRemove)
                  (pod_Volumes pod) canBeRemove)
        else Done canBeRemove
    end
  else Done canBeRemove.

Fixpoint checkPodsOnWorker (kubeclient : KubeClient) (workerNodeName : string)
    (pods : list Pod) (canBeRemove : bool) : GoResult bool :=
  match pods with
  | [] => Done canBeRemove
  | pod :: pods' =>
      go_bind (checkPodOnWorker kubeclient workerNodeName canBeRemove pod)
              (checkPodsOnWorker kubeclient workerNodeName pods')
  end.

Definition checkWorkerNodeCanBeRemove (kubeclient : KubeClient)
    (workerNodeName : string) : GoResult bool :=
  match kc_Pods kubeclient with
  | None => Exited                                   (* log.Fatal(err) *)
  | Some pods => checkPodsOnWorker kubeclient workerNodeName pods true
  end.

(** ** [processors/status]: the eventing scale-up status processor *)

Inductive ScaleUpResult :=
| ScaleUpSuccessful
| ScaleUpError
| ScaleUpNoOptionsAvailable
| ScaleUpNotNeeded
| ScaleUpNotTried
| ScaleUpInCooldown.

Inductive ScaleDownResult :=
| ScaleDownError
| ScaleDownNoUnneeded
| ScaleDownNoNodeDeleted
| ScaleDownNodeDeleteStarted
| ScaleDownNotTried
| ScaleDownInCooldown
| ScaleDownInProgress.

Record NoScaleUpInfo := {
  nsi_Pod : Pod
}.

Record ScaleUpStatus := {
  sus_Result : ScaleUpResult;
  sus_PodsRemainUnschedulable : list NoScaleUpInfo
}.

Inductive AutoscalerError :=
| CloudProviderError
| ApiCallError
| InternalError
| TransientError
| ConfigurationError.

(** What the engine does to its collaborators, in the order it does it.
    The provider calls, the taint operations and the status write change the
    cluster; the other entries record a call to a collaborator. *)
Inductive Effect :=
(* provider client *)
| EvPerformScaleUp (count : Z)
| EvPerformScaleDown (count : Z)
| EvSleep (d : Duration)
| EvCheckStatusCluster
| EvCheckErrorStatusCluster
(* taints *)
| EvCleanAllToBeDeleted (nodes : list Node)
| EvCleanAllDeletionCandidates (nodes : list Node)
| EvApplyTaint (node : string) (taint : string)
| EvRemoveTaint (node : string) (taint : string)
(* events and status *)
| EvRecorderEvent (pod : Pod) (reason message : string)
| EvLogRecorderEvent (reason message : string)
| EvWriteStatusConfigMap
(* planners and processors *)
| EvScaleUp (pods : list Pod)
| EvUpdateUnneededNodes
| EvTryToScaleDown
| EvScaleDownStatusProcessor (result : ScaleDownResult)
| EvAutoscalingStatusProcessor.

(** One iteration of the loop of [Process]: [events.Items[0]] panics when no
    event is listed for the pod (the error of [List] is discarded and leaves
    an empty list). *)
Definition processPod (kubeclient : KubeClient) (pod : NoScaleUpInfo) : GoResult Effect :=
  let events :=
    default [] (kc_Events kubeclient (pod_Namespace (nsi_Pod pod))
                          (pod_Name (nsi_Pod pod))) in
  match events with
  | [] => Panicked
  | first :: _ =>
      if negb (Contains (event_Message first) "Insufficient") then
        Done (EvRecorderEvent (nsi_Pod pod) "NotTriggerScaleUp"
                              "pod didn't trigger scale-up")
      else
        Done (EvRecorderEvent (nsi_Pod pod) "TriggerScaleUp"
                              "pod trigger scale-up")
  end.

(** The loop over [status.PodsRemainUnschedulable]: the events recorded so
    far, and how the loop ended. *)
Fixpoint processPods (kubeclient : KubeClient) (pods : list NoScaleUpInfo)
    : list Effect * GoResult unit :=
  match pods with
  | [] => ([], Done tt)
  | pod :: pods' =>
      match processPod kubeclient pod with
      | Done ev =>
          let '(evs, r) := processPods kubeclient pods' in (ev :: evs, r)
      | Panicked => ([], Panicked)
      | Exited => ([], Exited)
      end
  end.

(** [EventingScaleUpStatusProcessor.Process]. *)
Definition Process (status : ScaleUpStatus) (kubeclient : KubeClient)
    : list Effect * GoResult unit :=
  processPods kubeclient (sus_PodsRemainUnschedulable status).

(** ** [expander/grpcplugin] *)

Module grpcplugin.

(** [expander.Option]; [opt_NodeGroupId] is [option.NodeGroup.Id()]. *)
Record Option := {
  opt_NodeGroupId : string;
  opt_NodeCount : Z;
  opt_Debug : string;
  opt_Pods : list Pod
}.

(** [protos.Option]. *)
Record ProtoOption := {
  NodeGroupId : string;
  NodeCount : Z;
  Debug : string;
  ProtoPod : list Pod
}.

Record BestOptionsRequest := {
  req_Options : list ProtoOption;
  req_NodeMap : gmap string Node
}.

(** [*protos.BestOptionsResponse]: [Options] is a slice of pointers that may
    itself be nil and may contain nil entries. *)
Record BestOptionsResponse := {
  resp_Options : option (list (option ProtoOption))
}.

Definition gRPCTimeout : Duration := 5 * Second.

(** [protos.ExpanderClient]: the call under a deadline; [inl tt] is the
    error of the call (a transport failure or the deadline passing),
    [inr None] a nil response. *)
Record ExpanderClient := {
  client_BestOptions :
    Duration -> BestOptionsRequest -> unit + option BestOptionsResponse
}.

Record grpcclientstrategy := {
  grpcClient : option ExpanderClient
}.

Definition newOptionMessage (nodeGroupId : string) (nodeCount : Z)
    (debug : string) (pods : list Pod) : ProtoOption :=
  {| NodeGroupId := nodeGroupId; NodeCount := nodeCount; Debug := debug;
     ProtoPod := pods |}.

(** Modelled from the spec: [populateOptionsForGRPC] is called by
    [BestOptions] and its definition is not among the live sources (a
    commented-out copy remains).  It produces the request options of
    section 4.7, [{node_group_id, node_count, debug, pods}] for each input
    option in order, and the map from node-group id to the input option; a
    later option with the same id replaces an earlier one. *)
Definition populateOptionsForGRPC (expansionOptions : list Option)
    : list ProtoOption * gmap string Option :=
  fold_left
    (fun '(grpcOptionsSlice, nodeGroupIDOptionMap) option =>
       (grpcOptionsSlice ++
          [newOptionMessage (opt_NodeGroupId option) (opt_NodeCount option)
                            (opt_Debug option) (opt_Pods option)],
        <[opt_NodeGroupId option := option]> nodeGroupIDOptionMap))
    expansionOptions ([], ∅).

(** [schedulerframework.NodeInfo], of which only [Node()] is read. *)
Record NodeInfo := {
  ni_Node : Node
}.

Definition populateNodeInfoForGRPC (nodeInfos : gmap string NodeInfo)
    : gmap string Node :=
  ni_Node <$> nodeInfos.

(** The result slice starts nil ([None]) and becomes non-nil at the first
    [append]. *)
Definition transformAndSanitizeOptionsFromGRPC
    (bestOptionsResponseOptions : list (option ProtoOption))
    (nodeGroupIDOptionMap : gmap string Option) : option (list Option) :=
  fold_left
    (fun options option =>
       match option with
       | None => options                               (* nil Option *)
       | Some option =>
           match nodeGroupIDOptionMap !! NodeGroupId option with
           | Some o => Some (default [] options ++ [o])
           | None => options                           (* invalid id *)
           end
       end)
    bestOptionsResponseOptions None.

Definition BestOptions (g : grpcclientstrategy) (expansionOptions : list Option)
    (nodeInfo : gmap string NodeInfo) : list Option :=
  match grpcClient g with
  | None => expansionOptions
  | Some client =>
      let '(grpcOptionsSlice, nodeGroupIDOptionMap) :=
        populateOptionsForGRPC expansionOptions in
      let grpcNodeMap := populateNodeInfoForGRPC nodeInfo in
      match client_BestOptions client gRPCTimeout
              {| req_Options := grpcOptionsSlice; req_NodeMap := grpcNodeMap |} with
      | inl _ => expansionOptions                      (* err != nil *)
      | inr None => expansionOptions                   (* nil response *)
      | inr (Some bestOptionsResponse) =>
          match resp_Options bestOptionsResponse with
          | None => expansionOptions
          | Some responseOptions =>
              match transformAndSanitizeOptionsFromGRPC responseOptions
                      nodeGroupIDOptionMap with
              | None => expansionOptions
              | Some options => options
              end
          end
      end
  end.

End grpcplugin.

(** ** [core]: the state of the engine *)

(** The fields of [config.AutoscalingOptions] that [RunOnce] reads. *)
Record AutoscalingOptions := {
  ScaleDownEnabled : bool;
  ScaleDownDelayAfterAdd : Duration;
  ScaleDownDelayAfterDelete : Duration;
  ScaleDownDelayAfterFailure : Duration;
  NewPodScaleUpDelay : Duration;
  MaxBulkSoftTaintCount : Z;
  WriteStatusConfigMap : bool;
  ExpendablePodsPriorityCutoff : Z
}.

(** [StaticAutoscaler], with the state of its [processorCallbacks]
    ([disableScaleDownForLoop]), of its [scaleDown] (the unneeded nodes) and
    of the [ClusterSnapshot] of its context. *)
Record StaticAutoscaler := {
  AutoscalingContext : AutoscalingOptions;
  lastScaleUpTime : Time;
  lastScaleDownDeleteTime : Time;
  lastScaleDownFailTime : Time;
  initialized : bool;
  disableScaleDownForLoop : bool;
  unneededNodes : list string;
  ClusterSnapshot : gmap string (Node * list Pod)
}.

Definition with_lastScaleUpTime (t : Time) (a : StaticAutoscaler) :=
  {| AutoscalingContext := AutoscalingContext a; lastScaleUpTime := t;
     lastScaleDownDeleteTime := lastScaleDownDeleteTime a;
     lastScaleDownFailTime := lastScaleDownFailTime a;
     initialized := initialized a;
     disableScaleDownForLoop := disableScaleDownForLoop a;
     unneededNodes := unneededNodes a; ClusterSnapshot := ClusterSnapshot a |}.

Definition with_lastScaleDownDeleteTime (t : Time) (a : StaticAutoscaler) :=
  {| AutoscalingContext := AutoscalingContext a;
     lastScaleUpTime := lastScaleUpTime a; lastScaleDownDeleteTime := t;
     lastScaleDownFailTime := lastScaleDownFailTime a;
     initialized := initialized a;
     disableScaleDownForLoop := disableScaleDownForLoop a;
     unneededNodes := unneededNodes a; ClusterSnapshot := ClusterSnapshot a |}.

Definition with_lastScaleDownFailTime (t : Time) (a : StaticAutoscaler) :=
  {| AutoscalingContext := AutoscalingContext a;
     lastScaleUpTime := lastScaleUpTime a;
     lastScaleDownDeleteTime := lastScaleDownDeleteTime a;
     lastScaleDownFailTime := t; initialized := initialized a;
     disableScaleDownForLoop := disableScaleDownForLoop a;
     unneededNodes := unneededNodes a; ClusterSnapshot := ClusterSnapshot a |}.

Definition with_initialized (b : bool) (a : StaticAutoscaler) :=
  {| AutoscalingContext := AutoscalingContext a;
     lastScaleUpTime := lastScaleUpTime a;
     lastScaleDownDeleteTime := lastScaleDownDeleteTime a;
     lastScaleDownFailTime := lastScaleDownFailTime a; initialized := b;
     disableScaleDownForLoop := disableScaleDownForLoop a;
     unneededNodes := unneededNodes a; ClusterSnapshot := ClusterSnapshot a |}.

Definition with_disableScaleDownForLoop (b : bool) (a : StaticAutoscaler) :=
  {| AutoscalingContext := AutoscalingContext a;
     lastScaleUpTime := lastScaleUpTime a;
     lastScaleDownDeleteTime := lastScaleDownDeleteTime a;
     lastScaleDownFailTime := lastScaleDownFailTime a;
     initialized := initialized a; disableScaleDownForLoop := b;
     unneededNodes := unneededNodes a; ClusterSnapshot := ClusterSnapshot a |}.

Definition with_unneededNodes (l : list string) (a : StaticAutoscaler) :=
  {| AutoscalingContext := AutoscalingContext a;
     lastScaleUpTime := lastScaleUpTime a;
     lastScaleDownDeleteTime := lastScaleDownDeleteTime a;
     lastScaleDownFailTime := lastScaleDownFailTime a;
     initialized := initialized a;
     disableScaleDownForLoop := disableScaleDownForLoop a;
     unneededNodes := l; ClusterSnapshot := ClusterSnapshot a |}.

Definition with_ClusterSnapshot (m : gmap string (Node * list Pod))
    (a : StaticAutoscaler) :=
  {| AutoscalingContext := AutoscalingContext a;
     lastScaleUpTime := lastScaleUpTime a;
     lastScaleDownDeleteTime := lastScaleDownDeleteTime a;
     lastScaleDownFailTime := lastScaleDownFailTime a;
     initialized := initialized a;
     disableScaleDownForLoop := disableScaleDownForLoop a;
     unneededNodes := unneededNodes a; ClusterSnapshot := m |}.

(** ** The collaborators of the engine *)

(** The status the provider reports at a poll. *)
Inductive ClusterStatus := SCALING | SUCCEEDED | ERROR.

(** The call sites of the node listers in [RunOnce]. *)
Inductive ListCall := AtCleanUp | BeforeBounds | AfterBounds.

(** [nodes.ScaleDownNodeProcessor]. *)
Record ScaleDownNodeProcessor := {
  GetPodDestinationCandidates : list Node -> AutoscalerError + list Node;
  GetScaleDownCandidates : list Node -> KubeClient -> AutoscalerError + list Node
}.

(** What one call of [RunOnce] is given by the packages that are not among
    the sources: the listers, the cluster-state registry, the processors,
    the planners and the provider.  [None] is the error of a lister. *)
Record Env := {
  env_AllNodeLister : ListCall -> option (list Node);
  env_ReadyNodeLister : ListCall -> option (list Node);
  env_ScheduledPodLister : option (list Pod);
  env_UnschedulablePodLister : option (list Pod);
  env_DaemonSetLister : option (list string);
  env_PodDisruptionBudgetLister : option (list string);
  (* the status of the provider at the n-th 30-second poll *)
  env_providerStatus : nat -> ClusterStatus;
  (* clusterStateRegistry.IsClusterHealthy() *)
  env_IsClusterHealthy : bool;
  (* processors.ActionableClusterProcessor.ShouldAbort *)
  env_ShouldAbort : list Node -> list Node -> Time -> bool * option AutoscalerError;
  (* processors.PodListProcessor.Process *)
  env_PodListProcessor : list Pod -> list Pod;
  (* processors.ScaleUpStatusProcessor != nil; the eventing processor *)
  env_ScaleUpStatusProcessor : bool;
  (* processors.ScaleDownStatusProcessor != nil *)
  env_ScaleDownStatusProcessor : bool;
  (* processors.ScaleDownNodeProcessor *)
  env_ScaleDownNodeProcessor : option ScaleDownNodeProcessor;
  (* ScaleUp on the pods to help and the ready nodes: its status, its
     error and what it did to the cluster *)
  env_ScaleUp : list Pod -> list Node ->
                ScaleUpStatus * option AutoscalerError * list Effect;
  (* scaleDown.UpdateUnneededNodes: its error and the unneeded nodes *)
  env_UpdateUnneededNodes : list Node -> list Node -> Time ->
                            option AutoscalerError * list string;
  (* scaleDown.nodeDeletionTracker.IsNonEmptyNodeDeleteInProgress() *)
  env_IsNonEmptyNodeDeleteInProgress : bool;
  (* scaleDown.TryToScaleDown when some node is unneeded *)
  env_TryToScaleDown : list string -> Time ->
                       ScaleDownResult * option AutoscalerError * list Effect
}.

(** ** The monad of [RunOnce]: state, trace and the ways a Go function ends *)

(** The variables of [RunOnce] that its deferred closure captures. *)
Record Locals := {
  scaleUpStatus : ScaleUpStatus;
  scaleUpStatusProcessorAlreadyCalled : bool;
  scaleDownStatus : ScaleDownResult;
  scaleDownStatusProcessorAlreadyCalled : bool;
  (* the closure of the status write has been deferred *)
  statusDeferred : bool
}.

Record St := {
  st_self : StaticAutoscaler;
  st_locals : Locals;
  st_trace : list Effect;
  st_clock : nat
}.

Inductive Step (A : Type) : Type :=
| Continue (a : A) (s : St)                        (* the next statement *)
| Returned (err : option AutoscalerError) (s : St) (* a return statement *)
| Panics (s : St)
| Exits (s : St)
| OutOfFuel (s : St).                              (* a loop still running *)
Arguments Continue {A} a s.
Arguments Returned {A} err s.
Arguments Panics {A} s.
Arguments Exits {A} s.
Arguments OutOfFuel {A} s.

Definition M (A : Type) : Type := St -> Step A.

Definition ret {A} (a : A) : M A := fun s => Continue a s.

Definition bind {A B} (m : M A) (k : A -> M B) : M B :=
  fun s =>
    match m s with
    | Continue a s' => k a s'
    | Returned err s' => Returned err s'
    | Panics s' => Panics s'
    | Exits s' => Exits s'
    | OutOfFuel s' => OutOfFuel s'
    end.

Declare Scope go_scope.
Delimit Scope go_scope with go.
Notation "x <- m ;; k" := (bind m (fun x => k))
  (at level 100, m at next level, right associativity) : go_scope.
Notation "m ;; k" := (bind m (fun _ => k))
  (at level 100, right associativity) : go_scope.
Local Open Scope go_scope.

(** [return err]. *)
Definition returns {A} (err : option AutoscalerError) : M A :=
  fun s => Returned err s.

Definition outOfFuel {A} : M A := fun s => OutOfFuel s.

Definition lift {A} (r : GoResult A) : M A :=
  fun s =>
    match r with
    | Done a => Continue a s
    | Panicked => Panics s
    | Exited => Exits s
    end.

Definition getSelf : M StaticAutoscaler := fun s => Continue (st_self s) s.

Definition getLocals : M Locals := fun s => Continue (st_locals s) s.

Definition modifySelf (f : StaticAutoscaler -> StaticAutoscaler) : M unit :=
  fun s =>
    Continue tt {| st_self := f (st_self s); st_locals := st_locals s;
                   st_trace := st_trace s; st_clock := st_clock s |}.

Definition modifyLocals (f : Locals -> Locals) : M unit :=
  fun s =>
    Continue tt {| st_self := st_self s; st_locals := f (st_locals s);
                   st_trace := st_trace s; st_clock := st_clock s |}.

(** The engine does [effects], in this order. *)
Definition emits (effects : list Effect) : M unit :=
  fun s =>
    Continue tt {| st_self := st_self s; st_locals := st_locals s;
                   st_trace := st_trace s ++ effects; st_clock := st_clock s |}.

Definition emit (e : Effect) : M unit := emits [e].

(** [if c { body }]. *)
Definition when (c : bool) (body : M unit) : M unit :=
  if c then body else ret tt.

(** [x, err := call; if err != nil { onError; return e }]. *)
Definition orReturn {A} (call : option A) (onError : M unit)
    (e : AutoscalerError) : M A :=
  match call with
  | Some x => ret x
  | None => onError ;; returns (Some e)
  end.

Definition set_scaleUpStatus (v : ScaleUpStatus) (l : Locals) : Locals :=
  {| scaleUpStatus := v;
     scaleUpStatusProcessorAlreadyCalled := scaleUpStatusProcessorAlreadyCalled l;
     scaleDownStatus := scaleDownStatus l;
     scaleDownStatusProcessorAlreadyCalled := scaleDownStatusProcessorAlreadyCalled l;
     statusDeferred := statusDeferred l |}.

Definition set_scaleUpResult (r : ScaleUpResult) (l : Locals) : Locals :=
  set_scaleUpStatus
    {| sus_Result := r;
       sus_PodsRemainUnschedulable :=
         sus_PodsRemainUnschedulable (scaleUpStatus l) |} l.

Definition set_scaleUpStatusProcessorAlreadyCalled (b : bool) (l : Locals) : Locals :=
  {| scaleUpStatus := scaleUpStatus l;
     scaleUpStatusProcessorAlreadyCalled := b;
     scaleDownStatus := scaleDownStatus l;
     scaleDownStatusProcessorAlreadyCalled := scaleDownStatusProcessorAlreadyCalled l;
     statusDeferred := statusDeferred l |}.

Definition set_scaleDownResult (r : ScaleDownResult) (l : Locals) : Locals :=
  {| scaleUpStatus := scaleUpStatus l;
     scaleUpStatusProcessorAlreadyCalled := scaleUpStatusProcessorAlreadyCalled l;
     scaleDownStatus := r;
     scaleDownStatusProcessorAlreadyCalled := scaleDownStatusProcessorAlreadyCalled l;
     statusDeferred := statusDeferred l |}.

Definition set_scaleDownStatusProcessorAlreadyCalled (b : bool) (l : Locals) : Locals :=
  {| scaleUpStatus := scaleUpStatus l;
     scaleUpStatusProcessorAlreadyCalled := scaleUpStatusProcessorAlreadyCalled l;
     scaleDownStatus := scaleDownStatus l;
     scaleDownStatusProcessorAlreadyCalled := b;
     statusDeferred := statusDeferred l |}.

Definition set_statusDeferred (b : bool) (l : Locals) : Locals :=
  {| scaleUpStatus := scaleUpStatus l;
     scaleUpStatusProcessorAlreadyCalled := scaleUpStatusProcessorAlreadyCalled l;
     scaleDownStatus := scaleDownStatus l;
     scaleDownStatusProcessorAlreadyCalled := scaleDownStatusProcessorAlreadyCalled l;
     statusDeferred := b |}.

(** ** Helpers of [RunOnce] that are pure functions *)

Definition unschedulablePodTimeBuffer : Duration := 2 * Second.

(** [filterOutYoungPods]: the pods older than [NewPodScaleUpDelay]. *)
Definition filterOutYoungPods (a : StaticAutoscaler)
    (allUnschedulablePods : list Pod) (currentTime : Time) : list Pod :=
  let newPodScaleUpDelay := NewPodScaleUpDelay (AutoscalingContext a) in
  fold_left
    (fun oldUnschedulablePods pod =>
       let podAge := Time_Sub currentTime (pod_CreationTimestamp pod) in
       if newPodScaleUpDelay <? podAge
       then oldUnschedulablePods ++ [pod]
       else oldUnschedulablePods)
    allUnschedulablePods [].

(** Modelled from the spec: [core_utils.GetOldestCreateTime] is not among
    the sources; it is the oldest creation time of the pods (section 4.1,
    step 9).  [allPodsAreNew] calls it on a list that is not empty. *)
Definition GetOldestCreateTime (pods : list Pod) : Time :=
  match pods with
  | [] => 0
  | pod :: pods' =>
      fold_left (fun oldest p => Z.min oldest (pod_CreationTimestamp p))
                pods' (pod_CreationTimestamp pod)
  end.

Definition allPodsAreNew (pods : list Pod) (currentTime : Time) : bool :=
  if Time_After (Time_Add (GetOldestCreateTime pods) unschedulablePodTimeBuffer)
                currentTime
  then true
  else false.

(** Modelled from the spec: [core_utils.FilterOutExpendablePods] is not
    among the sources; an expendable workload is one whose priority is below
    the cutoff (glossary). *)
Definition FilterOutExpendablePods (pods : list Pod) (cutoff : Z) : list Pod :=
  List.filter
    (fun pod =>
       match pod_Priority pod with
       | Some priority => negb (priority <? cutoff)
       | None => true
       end)
    pods.

(** Modelled from the spec: [core_utils.FilterOutExpendableAndSplit] is not
    among the sources; the expendable workloads are dropped and those with a
    nominated-node hint are split out (section 4.1, step 8).  The spec gives
    the node list no part in it. *)
Definition FilterOutExpendableAndSplit (unschedulablePods : list Pod)
    (allNodes : list Node) (cutoff : Z) : list Pod * list Pod :=
  let nonExpendable := FilterOutExpendablePods unschedulablePods cutoff in
  (List.filter (fun pod => String.eqb (pod_NominatedNodeName pod) "") nonExpendable,
   List.filter (fun pod => negb (String.eqb (pod_NominatedNodeName pod) ""))
               nonExpendable).

(** Modelled from the spec: the cluster snapshot (the simulator package is
    not among the sources) maps a node name to the node and the workloads
    scheduled onto it; [AddPod] fails if the node name is absent
    (section 4.2). *)
Definition snapshot_AddNode (node : Node) (snapshot : gmap string (Node * list Pod))
    : option (gmap string (Node * list Pod)) :=
  Some (<[node_Name node := (node, [])]> snapshot).

Definition snapshot_AddPod (pod : Pod) (nodeName : string)
    (snapshot : gmap string (Node * list Pod))
    : option (gmap string (Node * list Pod)) :=
  match snapshot !! nodeName with
  | Some (node, pods) => Some (<[nodeName := (node, pods ++ [pod])]> snapshot)
  | None => None
  end.

(** The worker nodes: the names that contain ["worker"], in listing
    order. *)
Definition workerNodeNames (allNodes : list Node) : list string :=
  fold_left
    (fun workerNodeNameList node =>
       if Contains (node_Name node) "worker"
       then workerNodeNameList ++ [node_Name node]
       else workerNodeNameList)
    allNodes [].

(** The loop that assigns [workerNameToRemove]: the last name with the
    suffix ["worker" + strconv.Itoa(len(workerNodeNameList))], the empty
    string when there is none. *)
Definition selectWorkerNameToRemove (workerNodeNameList : list string) : string :=
  fold_left
    (fun workerNameToRemove nodeName =>
       if HasSuffix nodeName
            ("worker" +:+ Itoa (Z.of_nat (length workerNodeNameList)))
       then nodeName
       else workerNameToRemove)
    workerNodeNameList "".

(** The condition [scaleDownInCooldown] of [RunOnce]. *)
Definition scaleDownInCooldown (a : StaticAutoscaler) (currentTime : Time) : bool :=
  disableScaleDownForLoop a ||
  Time_After (Time_Add (lastScaleUpTime a)
                       (ScaleDownDelayAfterAdd (AutoscalingContext a)))
             currentTime ||
  Time_After (Time_Add (lastScaleDownFailTime a)
                       (ScaleDownDelayAfterFailure (AutoscalingContext a)))
             currentTime ||
  Time_After (Time_Add (lastScaleDownDeleteTime a)
                       (ScaleDownDelayAfterDelete (AutoscalingContext a)))
             currentTime.

(** Modelled from the spec: [ScaleDown.SoftTaintUnneededNodes] is not among
    the sources; it applies the deletion-candidate soft taint to up to
    [MaxBulkSoftTaintCount] unneeded nodes (section 4.6, step 4). *)
Definition SoftTaintUnneededNodes (a : StaticAutoscaler) (allNodes : list Node)
    : list Effect :=
  map (fun node => EvApplyTaint (node_Name node) "DeletionCandidate")
      (firstn (Z.to_nat (MaxBulkSoftTaintCount (AutoscalingContext a)))
              (List.filter
                 (fun node => bool_decide (node_Name node ∈ unneededNodes a))
                 allNodes)).

(** [initializeClusterSnapshot], on the snapshot: the error, if any, and the
    snapshot it leaves. *)
Definition initializeClusterSnapshot (nodes : list Node) (scheduledPods : list Pod)
    : option AutoscalerError * gmap string (Node * list Pod) :=
  let addNodes :=
    fold_left
      (fun '(err, snapshot, knownNodes) node =>
         match err with
         | Some _ => (err, snapshot, knownNodes)
         | None =>
             match snapshot_AddNode node snapshot with
             | None => (Some InternalError, snapshot, knownNodes)
             | Some snapshot' =>
                 (None, snapshot', {[node_Name node]} ∪ knownNodes)
             end
         end)
      nodes (None, ∅, (∅ : gset string)) in
  let '(err, snapshot, knownNodes) := addNodes in
  match err with
  | Some _ => (err, snapshot)
  | None =>
      fold_left
        (fun '(err, snapshot) pod =>
           match err with
           | Some _ => (err, snapshot)
           | None =>
               if bool_decide (pod_NodeName pod ∈ knownNodes) then
                 match snapshot_AddPod pod (pod_NodeName pod) snapshot with
                 | None => (Some InternalError, snapshot)
                 | Some snapshot' => (None, snapshot')
                 end
               else (None, snapshot)
           end)
        scheduledPods (None, snapshot)
  end.

(** The loop that adds the pods waiting for preemption to the snapshot. *)
Definition addNominatedPods (pods : list Pod)
    (snapshot : gmap string (Node * list Pod))
    : option AutoscalerError * gmap string (Node * list Pod) :=
  fold_left
    (fun '(err, snapshot) p =>
       match err with
       | Some _ => (err, snapshot)
       | None =>
           match snapshot_AddPod p (pod_NominatedNodeName p) snapshot with
           | None => (Some InternalError, snapshot)
           | Some snapshot' => (None, snapshot')
           end
       end)
    pods (None, snapshot).

(** ** [RunOnce] *)

(** How a call of [RunOnce] ended. *)
Inductive Outcome :=
| Finished (err : option AutoscalerError)
| Panic
| Exit
| Running.                 (* still polling the provider when the fuel ends *)

Record RunResult := {
  res_outcome : Outcome;
  res_self : StaticAutoscaler;
  res_trace : list Effect;
  res_scaleUpStatus : ScaleUpStatus;
  res_scaleDownStatus : ScaleDownResult
}.

Definition initialLocals : Locals :=
  {| scaleUpStatus := {| sus_Result := ScaleUpNotTried;
                         sus_PodsRemainUnschedulable := [] |};
     scaleUpStatusProcessorAlreadyCalled := false;
     scaleDownStatus := ScaleDownNotTried;
     scaleDownStatusProcessorAlreadyCalled := false;
     statusDeferred := false |}.

Section Engine.

Variable env : Env.

(** [time.Sleep(d)]: one more poll period has passed. *)
Definition sleep (d : Duration) : M unit :=
  fun s =>
    Continue tt {| st_self := st_self s; st_locals := st_locals s;
                   st_trace := st_trace s ++ [EvSleep d];
                   st_clock := S (st_clock s) |}.

(** Modelled from the spec: [core_utils.CheckStatusCluster] is not among
    the sources; it tells whether the provider reports SUCCEEDED
    (section 4.1, step 5). *)
Definition CheckStatusCluster : M bool :=
  fun s =>
    (emit EvCheckStatusCluster ;;
     ret match env_providerStatus env (st_clock s) with
         | SUCCEEDED => true
         | _ => false
         end) s.

(** Modelled from the spec: [core_utils.CheckErrorStatusCluster] is not
    among the sources; it tells whether the provider reports ERROR
    (section 4.1, step 5). *)
Definition CheckErrorStatusCluster : M bool :=
  fun s =>
    (emit EvCheckErrorStatusCluster ;;
     ret match env_providerStatus env (st_clock s) with
         | ERROR => true
         | _ => false
         end) s.

(** The loop after the retry:
    [for { time.Sleep(30s); if CheckStatusCluster() { break } }]. *)
Fixpoint waitSucceeded (fuel : nat) : M unit :=
  match fuel with
  | O => outOfFuel
  | S fuel' =>
      sleep (30 * Second) ;;
      ok <- CheckStatusCluster ;;
      if ok then ret tt else waitSucceeded fuel'
  end.

(** The polling loop after a provider request; [retry] issues the request
    again. *)
Fixpoint pollStatus (retry : M unit) (fuel : nat) : M unit :=
  match fuel with
  | O => outOfFuel
  | S fuel' =>
      sleep (30 * Second) ;;
      isSucceededStatus <- CheckStatusCluster ;;
      if isSucceededStatus then ret tt
      else
        isErrorStatus <- CheckErrorStatusCluster ;;
        if isErrorStatus then retry ;; waitSucceeded fuel'
        else pollStatus retry fuel'
  end.

(** [cleanUpIfRequired]. *)
Definition cleanUpIfRequired : M unit :=
  a <- getSelf ;;
  if initialized a then ret tt
  else
    match env_ReadyNodeLister env AtCleanUp with
    | None => ret tt
    | Some readyNodes =>
        emit (EvCleanAllToBeDeleted readyNodes) ;;
        when (MaxBulkSoftTaintCount (AutoscalingContext a) =? 0)
             (emit (EvCleanAllDeletionCandidates readyNodes))
    end ;;
    modifySelf (with_initialized true).

(** [obtainNodeLists]. *)
Definition obtainNodeLists (call : ListCall)
    : list Node * list Node * option AutoscalerError :=
  match env_AllNodeLister env call with
  | None => ([], [], Some ApiCallError)
  | Some allNodes =>
      match env_ReadyNodeLister env call with
      | None => ([], [], Some ApiCallError)
      | Some readyNodes => (allNodes, readyNodes, None)
      end
  end.

(** The bounds block of [RunOnce], from the worker count to the end of the
    [else if]. *)
Definition enforceBounds (fuel : nat) (kubeclient : KubeClient)
    (allNodes : list Node) : M unit :=
  let workerNodeNameList := workerNodeNames allNodes in
  let numberWorkerNode := Z.of_nat (length workerNodeNameList) in
  minSize <- lift (GetMinSizeNodeGroup kubeclient) ;;
  if numberWorkerNode <? minSize then
    minSize <- lift (GetMinSizeNodeGroup kubeclient) ;;
    let workerCountNeedToScaledUp := intSub minSize numberWorkerNode in
    emit (EvPerformScaleUp workerCountNeedToScaledUp) ;;
    pollStatus (emit (EvPerformScaleUp workerCountNeedToScaledUp)) fuel
  else
    maxSize <- lift (GetMaxSizeNodeGroup kubeclient) ;;
    if maxSize <? numberWorkerNode then
      let workerNameToRemove := selectWorkerNameToRemove workerNodeNameList in
      maxSize <- lift (GetMaxSizeNodeGroup kubeclient) ;;
      let workerCountNeedToScaledDown := intSub numberWorkerNode maxSize in
      canBeRemove <- lift (checkWorkerNodeCanBeRemove kubeclient workerNameToRemove) ;;
      if negb canBeRemove then returns None
      else
        emit (EvPerformScaleDown workerCountNeedToScaledDown) ;;
        pollStatus (emit (EvPerformScaleDown workerCountNeedToScaledDown)) fuel
    else ret tt.

(** A call of the eventing processor from [RunOnce]. *)
Definition callProcess (status : ScaleUpStatus) (kubeclient : KubeClient) : M unit :=
  let '(events, r) := Process status kubeclient in
  emits events ;; lift r.

(** The closure deferred by [RunOnce]: the status write and the status
    processors. *)
Definition deferredStatus (kubeclient : KubeClient) : M unit :=
  a <- getSelf ;;
  when (WriteStatusConfigMap (AutoscalingContext a)) (emit EvWriteStatusConfigMap) ;;
  l <- getLocals ;;
  when (negb (scaleUpStatusProcessorAlreadyCalled l) && env_ScaleUpStatusProcessor env)
       (callProcess (scaleUpStatus l) kubeclient) ;;
  when (negb (scaleDownStatusProcessorAlreadyCalled l) && env_ScaleDownStatusProcessor env)
       (emit (EvScaleDownStatusProcessor (scaleDownStatus l))) ;;
  emit EvAutoscalingStatusProcessor.

(** Modelled from the spec: [ScaleDown.TryToScaleDown] is not among the
    sources (scale_down.go).  Its outcome is no-unneeded when nothing
    qualifies (section 4.6); when some node is unneeded, the selection, the
    taints and the provider request are the planner's. *)
Definition TryToScaleDown (a : StaticAutoscaler) (currentTime : Time)
    : ScaleDownResult * option AutoscalerError * list Effect :=
  match unneededNodes a with
  | [] => (ScaleDownNoUnneeded, None, [])
  | _ => env_TryToScaleDown env (unneededNodes a) currentTime
  end.

(** The scale-up decision of [RunOnce], from the test of
    [len(unschedulablePodsToHelp)]. *)
Definition decideScaleUp (currentTime : Time) (kubeclient : KubeClient)
    (readyNodes : list Node) (unschedulablePodsToHelp : list Pod) : M unit :=
  if (length unschedulablePodsToHelp =? 0)%nat then
    modifyLocals (set_scaleUpResult ScaleUpNotNeeded)
  else if allPodsAreNew unschedulablePodsToHelp currentTime then
    modifySelf (with_disableScaleDownForLoop true) ;;
    modifyLocals (set_scaleUpResult ScaleUpInCooldown)
  else
    emit (EvScaleUp unschedulablePodsToHelp) ;;
    let '(status, typedErr, effects) :=
      env_ScaleUp env unschedulablePodsToHelp readyNodes in
    emits effects ;;
    modifyLocals (set_scaleUpStatus status) ;;
    when (env_ScaleUpStatusProcessor env)
         (callProcess status kubeclient ;;
          modifyLocals (set_scaleUpStatusProcessorAlreadyCalled true)) ;;
    match typedErr with
    | Some e => returns (Some e)
    | None => ret tt
    end ;;
    when (match sus_Result status with ScaleUpSuccessful => true | _ => false end)
         (modifySelf (with_lastScaleUpTime currentTime) ;;
          modifyLocals (set_scaleDownResult ScaleDownInCooldown) ;;
          returns None).

(** The scale-down candidates and the pod destinations: all the nodes
    without a node processor, the answers of the node processor otherwise;
    [inl] is the error that [RunOnce] returns. *)
Definition scaleDownNodes (kubeclient : KubeClient) (allNodes : list Node)
    : AutoscalerError + (list Node * list Node) :=
  match env_ScaleDownNodeProcessor env with
  | None => inr (allNodes, allNodes)
  | Some processor =>
      match GetScaleDownCandidates processor allNodes kubeclient with
      | inl err => inl err
      | inr scaleDownCandidates =>
          match GetPodDestinationCandidates processor allNodes with
          | inl err => inl err
          | inr podDestinations => inr (scaleDownCandidates, podDestinations)
          end
      end
  end.

(** The scale-down part of [RunOnce], from [if a.ScaleDownEnabled]. *)
Definition decideScaleDown (currentTime : Time) (kubeclient : KubeClient)
    (allNodes : list Node) : M unit :=
  a <- getSelf ;;
  when (ScaleDownEnabled (AutoscalingContext a))
    (pdbs <- orReturn (env_PodDisruptionBudgetLister env)
                      (modifyLocals (set_scaleDownResult ScaleDownError))
                      ApiCallError ;;
     candidates <-
       match scaleDownNodes kubeclient allNodes with
       | inl err => returns (Some err)
       | inr candidates => ret candidates
       end ;;
     let '(scaleDownCandidates, podDestinations) := candidates in
     (* scaleDown.CleanUp(currentTime) keeps the unneeded nodes *)
     emit EvUpdateUnneededNodes ;;
     let '(typedErr, unneeded) :=
       env_UpdateUnneededNodes env podDestinations scaleDownCandidates currentTime in
     modifySelf (with_unneededNodes unneeded) ;;
     match typedErr with
     | Some e =>
         modifyLocals (set_scaleDownResult ScaleDownError) ;; returns (Some e)
     | None => ret tt
     end ;;
     a <- getSelf ;;
     if scaleDownInCooldown a currentTime then
       modifyLocals (set_scaleDownResult ScaleDownInCooldown)
     else if env_IsNonEmptyNodeDeleteInProgress env then
       modifyLocals (set_scaleDownResult ScaleDownInProgress)
     else
       emit EvTryToScaleDown ;;
       (* these two variables shadow the ones of the function *)
       let '(scaleDownStatus, typedErr, effects) := TryToScaleDown a currentTime in
       emits effects ;;
       when (match scaleDownStatus with ScaleDownNodeDeleteStarted => true | _ => false end)
            (modifySelf (with_lastScaleDownDeleteTime currentTime)) ;;
       when (match scaleDownStatus with
             | ScaleDownNoNodeDeleted | ScaleDownNoUnneeded => true
             | _ => false
             end && negb (MaxBulkSoftTaintCount (AutoscalingContext a) =? 0))
            (emits (SoftTaintUnneededNodes a allNodes)) ;;
       when (env_ScaleDownStatusProcessor env)
            (emit (EvScaleDownStatusProcessor scaleDownStatus) ;;
             modifyLocals (set_scaleDownStatusProcessorAlreadyCalled true)) ;;
       match typedErr with
       | Some e =>
           modifySelf (with_lastScaleDownFailTime currentTime) ;;
           returns (Some e)
       | None => ret tt
       end).

(** The statements of [RunOnce] after the bounds block. *)
Definition reconcile (currentTime : Time) (kubeclient : KubeClient) : M unit :=
  let '(allNodes, readyNodes, typedErr) := obtainNodeLists AfterBounds in
  match typedErr with
  | Some e => returns (Some e)
  | None => ret tt
  end ;;
  originalScheduledPods <-
    orReturn (env_ScheduledPodLister env) (ret tt) ApiCallError ;;
  let '(abortLoop, err) := env_ShouldAbort env allNodes readyNodes currentTime in
  when abortLoop (returns err) ;;
  daemonsets <- orReturn (env_DaemonSetLister env) (ret tt) ApiCallError ;;
  a <- getSelf ;;
  let nonExpendableScheduledPods :=
    FilterOutExpendablePods originalScheduledPods
      (ExpendablePodsPriorityCutoff (AutoscalingContext a)) in
  let '(typedErr, snapshot) :=
    initializeClusterSnapshot allNodes nonExpendableScheduledPods in
  modifySelf (with_ClusterSnapshot snapshot) ;;
  match typedErr with
  | Some e => returns (Some e)
  | None => ret tt
  end ;;
  (* updateClusterState only updates metrics and returns nil *)
  modifyLocals (fun _ => initialLocals) ;;
  modifyLocals (set_statusDeferred true) ;;
  when (negb (env_IsClusterHealthy env))
       (modifySelf (with_unneededNodes []) ;;
        emit (EvLogRecorderEvent "ClusterUnhealthy" "Cluster is unhealthy") ;;
        returns None) ;;
  unschedulablePods <-
    orReturn (env_UnschedulablePodLister env) (ret tt) ApiCallError ;;
  (* tpu.ClearTPURequests changes resource requests only *)
  let '(unschedulablePods, unschedulableWaitingForLowerPriorityPreemption) :=
    FilterOutExpendableAndSplit unschedulablePods allNodes
      (ExpendablePodsPriorityCutoff (AutoscalingContext a)) in
  a <- getSelf ;;
  let '(err, snapshot) :=
    addNominatedPods unschedulableWaitingForLowerPriorityPreemption
                     (ClusterSnapshot a) in
  modifySelf (with_ClusterSnapshot snapshot) ;;
  match err with
  | Some e => returns (Some e)
  | None => ret tt
  end ;;
  let unschedulablePodsToHelp := env_PodListProcessor env unschedulablePods in
  a <- getSelf ;;
  let unschedulablePodsToHelp :=
    filterOutYoungPods a unschedulablePodsToHelp currentTime in
  decideScaleUp currentTime kubeclient readyNodes unschedulablePodsToHelp ;;
  decideScaleDown currentTime kubeclient allNodes ;;
  returns None.

(** The body of [RunOnce], without its deferred calls. *)
Definition RunOnce_body (fuel : nat) (currentTime : Time)
    (kubeclient : KubeClient) : M unit :=
  cleanUpIfRequired ;;
  modifySelf (with_disableScaleDownForLoop false) ;;    (* processorCallbacks.reset() *)
  let '(allNodes, readyNodes, typedErr) := obtainNodeLists BeforeBounds in
  enforceBounds fuel kubeclient allNodes ;;
  reconcile currentTime kubeclient.

Definition result (o : Outcome) (s : St) : RunResult :=
  {| res_outcome := o; res_self := st_self s; res_trace := st_trace s;
     res_scaleUpStatus := scaleUpStatus (st_locals s);
     res_scaleDownStatus := scaleDownStatus (st_locals s) |}.

(** The deferred closure runs when the function returns or panics, if the
    [defer] statement was reached. *)
Definition runDeferred (kubeclient : KubeClient) (o : Outcome) (s : St) : RunResult :=
  if statusDeferred (st_locals s) then
    match deferredStatus kubeclient s with
    | Continue _ s' | Returned _ s' => result o s'
    | Panics s' => result Panic s'
    | Exits s' => result Exit s'
    | OutOfFuel s' => result Running s'
    end
  else result o s.

(** The end of a call: the deferred closure runs unless the process exits
    or is still polling. *)
Definition finish (kubeclient : KubeClient) (r : Step unit) : RunResult :=
  match r with
  | Continue _ s => runDeferred kubeclient (Finished None) s
  | Returned err s => runDeferred kubeclient (Finished err) s
  | Panics s => runDeferred kubeclient Panic s
  | Exits s => result Exit s
  | OutOfFuel s => result Running s
  end.

(** [RunOnce(currentTime, kubeclient, ...)] on the engine [a]; the provider
    credentials and identifiers only travel to the provider calls. *)
Definition RunOnce (fuel : nat) (a : StaticAutoscaler) (currentTime : Time)
    (kubeclient : KubeClient) : RunResult :=
  finish kubeclient
    (RunOnce_body fuel currentTime kubeclient
       {| st_self := a; st_locals := initialLocals; st_trace := [];
          st_clock := 0 |}).

End Engine.


(** ** [core/utils]: nodes and pod specs *)

(** [FilterOutNodes]: [found] is set when a node of [nodesToFilterOut] has
    the name of [node]; the inner loop does not stop at the first one. *)
Definition FilterOutNodes (nodes nodesToFilterOut : list Node) : list Node :=
  fold_left
    (fun filtered node =>
       let found :=
         fold_left
           (fun found nodeToFilter =>
              if String.eqb (node_Name nodeToFilter) (node_Name node)
              then true
              else found)
           nodesToFilterOut false in
       if negb found then filtered ++ [node] else filtered)
    nodes [].

(** The pod specs that [PodSpecSemanticallyEqual] compares.  A Go slice is
    a reference to its backing array: the copy of a [PodSpec] that a
    function receives shares the array of its [Containers] with the spec of
    the caller.  The arrays live in a store; the other fields are values.
    Of the fields that the functions copy and compare without reading
    them, [NodeName] of a spec and [Name] and [Image] of a container are
    kept. *)
Module apiv1.

Record VolumeMount := {
  mount_Name : string;
  mount_MountPath : string
}.

Record Container := {
  ctr_Name : string;
  ctr_Image : string;
  ctr_VolumeMounts : list VolumeMount
}.

(** [Projected] is [v.Projected != nil]. *)
Record Volume := {
  Name : string;
  Projected : bool
}.

(** [Containers] is the reference to the backing array of the slice. *)
Record PodSpec := {
  Volumes : list Volume;
  Containers : nat;
  NodeName : string
}.

#[global] Instance VolumeMount_eq_dec : EqDecision VolumeMount.
Proof. solve_decision. Defined.

#[global] Instance Container_eq_dec : EqDecision Container.
Proof. solve_decision. Defined.

#[global] Instance Volume_eq_dec : EqDecision Volume.
Proof. solve_decision. Defined.

Definition with_VolumeMounts (mounts : list VolumeMount) (c : Container) : Container :=
  {| ctr_Name := ctr_Name c; ctr_Image := ctr_Image c;
     ctr_VolumeMounts := mounts |}.

(** [podSpec.Containers], read in the store of the backing arrays; a
    reference without an entry is a nil slice. *)
Definition containers (store : gmap nat (list Container)) (podSpec : PodSpec)
    : list Container :=
  default [] (store !! Containers podSpec).

End apiv1.

(** The first loop of [sanitizeProjectedVolumesAndMounts]: the names of the
    projected volumes and the other volumes. *)
Definition splitProjected (volumes : list apiv1.Volume)
    : gset string * list apiv1.Volume :=
  fold_left
    (fun '(projectedVolumeNames, volumes) v =>
       if negb (apiv1.Projected v)
       then (projectedVolumeNames, volumes ++ [v])
       else ({[apiv1.Name v]} ∪ projectedVolumeNames, volumes))
    volumes (∅, []).

(** The inner loop: the mounts whose name is not in
    [projectedVolumeNames]. *)
Definition keepMounts (projectedVolumeNames : gset string)
    (mounts : list apiv1.VolumeMount) : list apiv1.VolumeMount :=
  fold_left
    (fun volumeMounts mount =>
       if bool_decide (apiv1.mount_Name mount ∈ projectedVolumeNames)
       then volumeMounts
       else volumeMounts ++ [mount])
    mounts [].

(** The loop [for i := range podSpec.Containers], which assigns
    [podSpec.Containers[i].VolumeMounts] in the backing array. *)
Definition sanitizeMounts (projectedVolumeNames : gset string)
    (array : list apiv1.Container) : list apiv1.Container :=
  fold_left
    (fun array i =>
       match array !! i with
       | Some c =>
           <[i := apiv1.with_VolumeMounts
                    (keepMounts projectedVolumeNames (apiv1.ctr_VolumeMounts c)) c]>
             array
       | None => array
       end)
    (seq 0 (length array)) array.

(** [sanitizeProjectedVolumesAndMounts]: the spec it returns and the store
    it leaves.  [podSpec.Volumes = volumes] changes the copy only. *)
Definition sanitizeProjectedVolumesAndMounts (podSpec : apiv1.PodSpec)
    (store : gmap nat (list apiv1.Container))
    : apiv1.PodSpec * gmap nat (list apiv1.Container) :=
  let '(projectedVolumeNames, volumes) := splitProjected (apiv1.Volumes podSpec) in
  ({| apiv1.Volumes := volumes;
      apiv1.Containers := apiv1.Containers podSpec;
      apiv1.NodeName := apiv1.NodeName podSpec |},
   alter (sanitizeMounts projectedVolumeNames) (apiv1.Containers podSpec) store).

(** [apiequality.Semantic.DeepEqual] on two specs: the contents are
    compared, a nil slice is equal to an empty one. *)
Definition DeepEqual (store : gmap nat (list apiv1.Container))
    (p1 p2 : apiv1.PodSpec) : bool :=
  bool_decide (apiv1.Volumes p1 = apiv1.Volumes p2) &&
  bool_decide (apiv1.containers store p1 = apiv1.containers store p2) &&
  String.eqb (apiv1.NodeName p1) (apiv1.NodeName p2).

(** [PodSpecSemanticallyEqual]: its answer and the store it leaves. *)
Definition PodSpecSemanticallyEqual (p1 p2 : apiv1.PodSpec)
    (store : gmap nat (list apiv1.Container))
    : bool * gmap nat (list apiv1.Container) :=
  let '(p1Spec, store) := sanitizeProjectedVolumesAndMounts p1 store in
  let '(p2Spec, store) := sanitizeProjectedVolumesAndMounts p2 store in
  (DeepEqual store p1Spec p2Spec, store).

(** ** [processors/status]: [ReasonsMessage] *)

(** [strings.Join(elems, sep)]. *)
Fixpoint Join (elems : list string) (sep : string) : string :=
  match elems with
  | [] => ""
  | e :: elems' =>
      match elems' with
      | [] => e
      | _ => e +:+ sep +:+ Join elems' sep
      end
  end.

(** The fields of [NoScaleUpInfo] that [ReasonsMessage] reads: for each
    rejected and each skipped node group, by its id, what [Reasons()]
    returns. *)
Record NodeGroupReasons := {
  RejectedNodeGroups : gmap string (list string);
  SkippedNodeGroups : gmap string (list string)
}.

(** The inner loop: [aggregated[reason]++] for the reasons of one node
    group; a reason that is not in the map counts from zero. *)
Definition countReasons (aggregated : gmap string Z) (reasons : list string)
    : gmap string Z :=
  fold_left
    (fun aggregated reason =>
       <[reason := wrapInt (default 0 (aggregated !! reason) + 1)]> aggregated)
    reasons aggregated.

(** The two loops over the node groups; [rejected] and [skipped] are the
    entries of the two maps in the order in which the runtime ranges over
    them. *)
Definition aggregateReasons (rejected skipped : list (string * list string))
    : gmap string Z :=
  fold_left
    (fun aggregated '(_, reasons) => countReasons aggregated reasons)
    skipped
    (fold_left
       (fun aggregated '(_, reasons) => countReasons aggregated reasons)
       rejected ∅).

(** [fmt.Sprintf("%d %s", count, msg)]. *)
Definition formatReason (entry : string * Z) : string :=
  Itoa entry.2 +:+ " " +:+ entry.1.

(** The loop over [aggregated], in the order [aggregated] of its entries,
    and the join of the messages. *)
Definition joinReasons (aggregated : list (string * Z)) : string :=
  Join (fold_left (fun messages entry => messages ++ [formatReason entry])
                  aggregated [])
       ", ".

(** [ReasonsMessage]: Go ranges over a map in an order of its choosing, so
    the function has a result for each order of the entries of the three
    maps. *)
Definition ReasonsMessage (noScaleUpInfo : NodeGroupReasons) (message : string)
    : Prop :=
  exists rejected skipped aggregated,
    rejected ≡ₚ map_to_list (RejectedNodeGroups noScaleUpInfo) /\
    skipped ≡ₚ map_to_list (SkippedNodeGroups noScaleUpInfo) /\
    aggregated ≡ₚ map_to_list (aggregateReasons rejected skipped) /\
    message = joinReasons aggregated.

(** ** [core]: the callbacks of the processors and the new engine *)

(** [staticAutoscalerProcessorCallbacks], with values of the type [Value]
    for [interface{}].  [cb_extraValues] is [None] for the nil map of a
    zero value; the [scaleDown] field is left out with
    [ResetUnneededNodes], its only reader. *)
Record staticAutoscalerProcessorCallbacks (Value : Type) := {
  cb_disableScaleDownForLoop : bool;
  cb_extraValues : option (gmap string Value)
}.
Arguments cb_disableScaleDownForLoop {Value} _.
Arguments cb_extraValues {Value} _.

(** [callbacks.reset()]. *)
Definition reset {Value} (callbacks : staticAutoscalerProcessorCallbacks Value)
    : staticAutoscalerProcessorCallbacks Value :=
  {| cb_disableScaleDownForLoop := false; cb_extraValues := Some ∅ |}.

(** [newStaticAutoscalerProcessorCallbacks]: the zero value, reset. *)
Definition newStaticAutoscalerProcessorCallbacks {Value}
    : staticAutoscalerProcessorCallbacks Value :=
  let callbacks :=
    {| cb_disableScaleDownForLoop := false; cb_extraValues := None |} in
  reset callbacks.

Definition DisableScaleDownForLoop {Value}
    (callbacks : staticAutoscalerProcessorCallbacks Value)
    : staticAutoscalerProcessorCallbacks Value :=
  {| cb_disableScaleDownForLoop := true;
     cb_extraValues := cb_extraValues callbacks |}.

(** [callbacks.extraValues[key] = value]: an assignment to an entry of a
    nil map panics. *)
Definition SetExtraValue {Value} (key : string) (value : Value)
    (callbacks : staticAutoscalerProcessorCallbacks Value)
    : GoResult (staticAutoscalerProcessorCallbacks Value) :=
  match cb_extraValues callbacks with
  | None => Panicked
  | Some extraValues =>
      Done {| cb_disableScaleDownForLoop := cb_disableScaleDownForLoop callbacks;
              cb_extraValues := Some (<[key := value]> extraValues) |}
  end.

(** [value, found = callbacks.extraValues[key]]: [Some value] when [found];
    a nil map has no entry. *)
Definition GetExtraValue {Value} (key : string)
    (callbacks : staticAutoscalerProcessorCallbacks Value) : option Value :=
  match cb_extraValues callbacks with
  | None => None
  | Some extraValues => extraValues !! key
  end.

Definition Hour : Duration := 3600 * Second.

(** [NewStaticAutoscaler], called at the time [timeNow] ([time.Now()]).
    [scaleDown] is the list of unneeded nodes of the planner that
    [NewScaleDown] returns; the registry, the processors and the ignored
    taints are not part of the state that [RunOnce] reads. *)
Definition NewStaticAutoscaler (opts : AutoscalingOptions)
    (clusterSnapshot : gmap string (Node * list Pod)) (scaleDown : list string)
    (timeNow : Time) : StaticAutoscaler :=
  let processorCallbacks := @newStaticAutoscalerProcessorCallbacks unit in
  let initialScaleTime := Time_Add timeNow (- Hour) in
  {| AutoscalingContext := opts;
     lastScaleUpTime := initialScaleTime;
     lastScaleDownDeleteTime := initialScaleTime;
     lastScaleDownFailTime := initialScaleTime;
     initialized := false;
     disableScaleDownForLoop := cb_disableScaleDownForLoop processorCallbacks;
     unneededNodes := scaleDown;
     ClusterSnapshot := clusterSnapshot |}.

(** [calculateCoresMemoryTotal] on [int64]; [isNodeBeingDeleted] and
    [core_utils.GetNodeCoresAndMemory] are the functions of these names,
    which are not among the sources. *)
Definition calculateCoresMemoryTotal
    (isNodeBeingDeleted : Node -> Time -> bool)
    (GetNodeCoresAndMemory : Node -> Z * Z)
    (nodes : list Node) (timestamp : Time) : Z * Z :=
  fold_left
    (fun '(coresTotal, memoryTotal) node =>
       if isNodeBeingDeleted node timestamp then (coresTotal, memoryTotal)
       else
         let '(cores, memory) := GetNodeCoresAndMemory node in
         (wrapInt (coresTotal + cores), wrapInt (memoryTotal + memory)))
    nodes (0, 0).

(** ** [expander/grpcplugin]: the construction of the strategy *)

(** What [createGRPCClient] asks of the gRPC library:
    [credentials.NewClientTLSFromFile] on the certificate file and
    [grpc.Dial] followed by [protos.NewExpanderClient]; [None] is an
    error. *)
Record GrpcLibrary (Credentials : Type) := {
  NewClientTLSFromFile : string -> option Credentials;
  Dial : string -> Credentials -> option grpcplugin.ExpanderClient
}.
Arguments NewClientTLSFromFile {Credentials} _ _.
Arguments Dial {Credentials} _ _ _.

(** [createGRPCClient]: every failure ends the process in [log.Fatalf]. *)
Definition createGRPCClient {Credentials} (lib : GrpcLibrary Credentials)
    (expanderCert expanderUrl : string)
    : GoResult (option grpcplugin.ExpanderClient) :=
  if String.eqb expanderCert "" then Exited
  else
    match NewClientTLSFromFile lib expanderCert with
    | None => Exited
    | Some creds =>
        match Dial lib expanderUrl creds with
        | None => Exited
        | Some client => Done (Some client)
        end
    end.

(** [NewFilter]. *)
Definition NewFilter {Credentials} (lib : GrpcLibrary Credentials)
    (expanderCert expanderUrl : string) : GoResult grpcplugin.grpcclientstrategy :=
  go_bind (createGRPCClient lib expanderCert expanderUrl)
    (fun client =>
       match client with
       | None => Done {| grpcplugin.grpcClient := None |}
       | Some client => Done {| grpcplugin.grpcClient := Some client |}
       end).
(** ** Notions used to state the properties *)

(** The replica count that [checkWorkerNodeCanBeRemove] reads for [pod]
    through its first owner reference. *)
Definition ownerReplicas (kubeclient : KubeClient) (pod : Pod)
    (owner : OwnerReference) : Z :=
  rs_Replicas
    (default emptyReplicaSet
       (kc_ReplicaSet kubeclient (pod_Namespace pod) (owner_Name owner))).

(** [pod] declares a volume of the EmptyDir kind. *)
Definition hasEmptyDir (pod : Pod) : Prop :=
  exists volume, In volume (pod_Volumes pod) /\ vol_EmptyDir volume = true.

(** [pod] keeps the node [workerNodeName] from being removed: it is hosted
    on the node, its first owner reference is not a DaemonSet and either its
    replica set has one replica or it declares an EmptyDir volume. *)
Definition blocksRemoval (kubeclient : KubeClient) (workerNodeName : string)
    (pod : Pod) : Prop :=
  pod_NodeName pod = workerNodeName /\
  exists owner,
    head (pod_OwnerReferences pod) = Some owner /\
    owner_Kind owner <> "DaemonSet" /\
    (ownerReplicas kubeclient pod owner = 1 \/ hasEmptyDir pod).

(** The events listed for [pod]; an error of the call leaves none. *)
Definition listedEvents (kubeclient : KubeClient) (pod : NoScaleUpInfo) : list Event :=
  default [] (kc_Events kubeclient (pod_Namespace (nsi_Pod pod))
                        (pod_Name (nsi_Pod pod))).

(** The event the processor records on a pod whose first listed event has
    the message [message]. *)
Definition scaleUpEvent (pod : NoScaleUpInfo) (message : string) : Effect :=
  if Contains message "Insufficient"
  then EvRecorderEvent (nsi_Pod pod) "TriggerScaleUp" "pod trigger scale-up"
  else EvRecorderEvent (nsi_Pod pod) "NotTriggerScaleUp" "pod didn't trigger scale-up".

(** The last of the input options with the node-group id [id]. *)
Definition lastWithId (expansionOptions : list grpcplugin.Option) (id : string)
    : option grpcplugin.Option :=
  List.find (fun o => String.eqb (grpcplugin.opt_NodeGroupId o) id)
            (rev expansionOptions).

(** The options of the response that name an input option, in the order of
    the response, each as the input option it names. *)
Definition recognized (expansionOptions : list grpcplugin.Option)
    (responseOptions : list (option grpcplugin.ProtoOption))
    : list grpcplugin.Option :=
  omap (fun o => o ≫= (fun o => lastWithId expansionOptions (grpcplugin.NodeGroupId o)))
       responseOptions.

(** The state in which a step ends, however it ends. *)
Definition final {A} (r : Step A) : St :=
  match r with
  | Continue _ s | Returned _ s | Panics s | Exits s | OutOfFuel s => s
  end.

(** [m] keeps the relation [R] between the state it starts in and the state
    it ends in. *)
Definition keeps {A} (R : St -> St -> Prop) (m : M A) : Prop :=
  forall s, R s (final (m s)).

(** The engine evolves within [T] and the new effects all satisfy [Q]. *)
Definition evolves (T : StaticAutoscaler -> StaticAutoscaler -> Prop)
    (Q : Effect -> Prop) (s s' : St) : Prop :=
  T (st_self s) (st_self s') /\
  exists effects, st_trace s' = st_trace s ++ effects /\ Forall Q effects.

(** The three cooldown timestamps are the same in [a] and [a']. *)
Definition sameTimestamps (a a' : StaticAutoscaler) : Prop :=
  lastScaleUpTime a' = lastScaleUpTime a /\
  lastScaleDownDeleteTime a' = lastScaleDownDeleteTime a /\
  lastScaleDownFailTime a' = lastScaleDownFailTime a.

(** Each cooldown timestamp of [a'] is the one of [a] or is [now]. *)
Definition stampedAt (now : Time) (a a' : StaticAutoscaler) : Prop :=
  (lastScaleUpTime a' = lastScaleUpTime a \/ lastScaleUpTime a' = now) /\
  (lastScaleDownDeleteTime a' = lastScaleDownDeleteTime a \/
   lastScaleDownDeleteTime a' = now) /\
  (lastScaleDownFailTime a' = lastScaleDownFailTime a \/
   lastScaleDownFailTime a' = now).

(** The effects that change the cluster: the provider requests, the taint
    operations and the status write. *)
Definition mutating (e : Effect) : bool :=
  match e with
  | EvPerformScaleUp _ | EvPerformScaleDown _
  | EvCleanAllToBeDeleted _ | EvCleanAllDeletionCandidates _
  | EvApplyTaint _ _ | EvRemoveTaint _ _
  | EvWriteStatusConfigMap => true
  | _ => false
  end.

(** An effect that changes nothing but the status artifact. *)
Definition quiet (e : Effect) : Prop :=
  mutating e = true -> e = EvWriteStatusConfigMap.

(** The effects that every call may have: the waits and the reads of the
    provider status, the events, the update of the unneeded nodes, the
    status write and the status processors. *)
Definition passive (e : Effect) : bool :=
  match e with
  | EvSleep _ | EvCheckStatusCluster | EvCheckErrorStatusCluster
  | EvRecorderEvent _ _ _ | EvLogRecorderEvent _ _ | EvWriteStatusConfigMap
  | EvUpdateUnneededNodes | EvScaleDownStatusProcessor _
  | EvAutoscalingStatusProcessor => true
  | _ => false
  end.

(** A relation on engines and a predicate on effects fit to follow a run:
    the relation is a preorder that holds between engines with the same
    timestamps, and the predicate holds of the passive effects. *)
Class Frame (T : StaticAutoscaler -> StaticAutoscaler -> Prop)
    (Q : Effect -> Prop) : Prop := {
  frame_refl : forall a, T a a;
  frame_trans : forall a b c, T a b -> T b c -> T a c;
  frame_same : forall a a', sameTimestamps a a' -> T a a';
  frame_passive : forall e, passive e = true -> Q e
}.

(** [s] with the engine changed by [f], with the variables changed by
    [f]. *)
Definition withSelf (f : StaticAutoscaler -> StaticAutoscaler) (s : St) : St :=
  {| st_self := f (st_self s); st_locals := st_locals s;
     st_trace := st_trace s; st_clock := st_clock s |}.

Definition withLocals (f : Locals -> Locals) (s : St) : St :=
  {| st_self := st_self s; st_locals := f (st_locals s);
     st_trace := st_trace s; st_clock := st_clock s |}.

(** [s] after the effects [t] and [n] more polls. *)
Definition advance (s : St) (t : list Effect) (n : nat) : St :=
  {| st_self := st_self s; st_locals := st_locals s;
     st_trace := st_trace s ++ t; st_clock := n + st_clock s |}.

Fixpoint times (n : nat) (t : list Effect) : list Effect :=
  match n with
  | O => []
  | S n' => t ++ times n' t
  end.

(** A poll that finds the provider scaling: both of its checks fail. *)
Definition pollScaling : list Effect :=
  [EvSleep (30 * Second); EvCheckStatusCluster; EvCheckErrorStatusCluster].

(** A poll that checks for SUCCEEDED only: the last poll of a loop, and the
    polls after the retry. *)
Definition pollOnce : list Effect :=
  [EvSleep (30 * Second); EvCheckStatusCluster].

(** What [cleanUpIfRequired] does on the engine [a]. *)
Definition cleanUpEffects (env : Env) (a : StaticAutoscaler) : list Effect :=
  if initialized a then []
  else
    match env_ReadyNodeLister env AtCleanUp with
    | None => []
    | Some readyNodes =>
        EvCleanAllToBeDeleted readyNodes ::
        (if MaxBulkSoftTaintCount (AutoscalingContext a) =? 0
         then [EvCleanAllDeletionCandidates readyNodes]
         else [])
    end.

(** The engine after the clean-up and the reset of the callbacks. *)
Definition started (a : StaticAutoscaler) : StaticAutoscaler :=
  with_disableScaleDownForLoop false
    (if initialized a then a else with_initialized true a).

(** The state of [RunOnce] when it reaches the bounds block. *)
Definition atBounds (env : Env) (a : StaticAutoscaler) : St :=
  {| st_self := started a; st_locals := initialLocals;
     st_trace := cleanUpEffects env a; st_clock := 0 |}.

(** The end of [RunOnce] from its scale-down part on, and from its scale-up
    decision on. *)
Definition fromScaleDown (env : Env) (now : Time) (kubeclient : KubeClient)
    (allNodes : list Node) (s : St) : RunResult :=
  finish env kubeclient
    (bind (decideScaleDown env now kubeclient allNodes) (fun _ => returns None) s).

Definition fromScaleUp (env : Env) (now : Time) (kubeclient : KubeClient)
    (readyNodes allNodes : list Node) (unschedulablePodsToHelp : list Pod)
    (s : St) : RunResult :=
  finish env kubeclient
    (bind (decideScaleUp env now kubeclient readyNodes unschedulablePodsToHelp)
          (fun _ => bind (decideScaleDown env now kubeclient allNodes)
                         (fun _ => returns None)) s).

(** The worker nodes that the bounds block counts, and their count [W]. *)
Definition workers (env : Env) : list string :=
  workerNodeNames (obtainNodeLists env BeforeBounds).1.1.

Definition workerCount (env : Env) : Z := Z.of_nat (length (workers env)).

(** The suffix of the removal candidate. *)
Definition candidateSuffix (env : Env) : string :=
  "worker" +:+ Itoa (workerCount env).

(** ** Concrete clusters *)

Module Examples.

Definition pod (name node kind owner : string) (volumes : list Volume)
    (created : Time) : Pod :=
  {| pod_Name := name; pod_Namespace := "default";
     pod_CreationTimestamp := created;
     pod_OwnerReferences := [ {| owner_Kind := kind; owner_Name := owner |} ];
     pod_NodeName := node; pod_Volumes := volumes; pod_Priority := None;
     pod_NominatedNodeName := "" |}.

Definition scratch : Volume := {| vol_Name := "scratch"; vol_EmptyDir := true |}.

(** A log collector of a DaemonSet, with an EmptyDir volume, on worker 3. *)
Definition collector : Pod :=
  pod "collector-x" "cluster-worker3" "DaemonSet" "collector" [scratch] 0.

(** A workload of a replica set with one replica, on worker 3. *)
Definition web : Pod :=
  pod "web-1" "cluster-worker3" "ReplicaSet" "web" [] 0.

Definition bounds (minSize maxSize : string) : gmap string string :=
  <["min_node_group_size" := minSize]>
    (<["max_node_group_size" := maxSize]> ∅).

(** A client that lists [pods], knows the replica set [web] with one
    replica, reads the bounds [minSize] and [maxSize] and lists [events] for
    every pod. *)
Definition client (pods : list Pod) (minSize maxSize : string)
    (events : string -> list Event) : KubeClient :=
  {| kc_Pods := Some pods;
     kc_ReplicaSet := fun _ name =>
       if String.eqb name "web"
       then Some {| rs_Name := "web"; rs_Replicas := 1 |}
       else None;
     kc_ConfigMap := Some (bounds minSize maxSize);
     kc_Events := fun _ name => Some (events name) |}.

(** Two pending pods: [idle] has no listed event, [starved] has a
    scheduling failure for lack of cpu. *)
Definition idle : Pod := pod "idle-1" "" "ReplicaSet" "idle" [] 0.

Definition starved : Pod := pod "starved-1" "" "ReplicaSet" "starved" [] 0.

Definition pendingEvents (name : string) : list Event :=
  if String.eqb name "starved-1"
  then [ {| event_Message := "0/2 nodes are available: 2 Insufficient cpu." |} ]
  else [].

Definition remaining (pods : list Pod) : ScaleUpStatus :=
  {| sus_Result := ScaleUpNoOptionsAvailable;
     sus_PodsRemainUnschedulable := map (fun p => {| nsi_Pod := p |}) pods |}.

Definition options (newPodScaleUpDelay : Duration) : AutoscalingOptions :=
  {| ScaleDownEnabled := true;
     ScaleDownDelayAfterAdd := 600 * Second;
     ScaleDownDelayAfterDelete := 0;
     ScaleDownDelayAfterFailure := 180 * Second;
     NewPodScaleUpDelay := newPodScaleUpDelay;
     MaxBulkSoftTaintCount := 10;
     WriteStatusConfigMap := true;
     ExpendablePodsPriorityCutoff := -10 |}.

(** An engine whose three cooldown timestamps are [t]. *)
Definition engine (newPodScaleUpDelay : Duration) (t : Time) : StaticAutoscaler :=
  {| AutoscalingContext := options newPodScaleUpDelay;
     lastScaleUpTime := t; lastScaleDownDeleteTime := t;
     lastScaleDownFailTime := t; initialized := true;
     disableScaleDownForLoop := false; unneededNodes := [];
     ClusterSnapshot := ∅ |}.

(** A healthy cluster with the nodes [nodes] and the pending pods
    [pending]; the provider reports [provider]; the scale-up planner adds
    one node and succeeds. *)
Definition cluster (nodes : list string) (pending : list Pod)
    (provider : nat -> ClusterStatus) : Env :=
  {| env_AllNodeLister := fun _ => Some (map Build_Node nodes);
     env_ReadyNodeLister := fun _ => Some (map Build_Node nodes);
     env_ScheduledPodLister := Some [];
     env_UnschedulablePodLister := Some pending;
     env_DaemonSetLister := Some [];
     env_PodDisruptionBudgetLister := Some [];
     env_providerStatus := provider;
     env_IsClusterHealthy := true;
     env_ShouldAbort := fun _ _ _ => (false, None);
     env_PodListProcessor := fun pods => pods;
     env_ScaleUpStatusProcessor := true;
     env_ScaleDownStatusProcessor := true;
     env_ScaleDownNodeProcessor := None;
     env_ScaleUp := fun _ _ =>
       ({| sus_Result := ScaleUpSuccessful; sus_PodsRemainUnschedulable := [] |},
        None, [EvPerformScaleUp 1]);
     env_UpdateUnneededNodes := fun _ _ _ => (None, []);
     env_IsNonEmptyNodeDeleteInProgress := false;
     env_TryToScaleDown := fun _ _ => (ScaleDownNoNodeDeleted, None, []) |}.

(** The provider succeeds at the poll [n]; before it, it reports an error at
    the poll [e] and is scaling otherwise. *)
Definition provider (e n : nat) : nat -> ClusterStatus :=
  fun tick =>
    if (tick =? n)%nat then SUCCEEDED
    else if (tick =? e)%nat then ERROR
    else SCALING.

Definition threeWorkers : list string :=
  ["cluster-master1"; "cluster-worker1"; "cluster-worker2"; "cluster-worker3"].

(** Worker 3 was removed earlier and a fourth worker was added since. *)
Definition renumbered : list string :=
  ["cluster-master1"; "cluster-worker1"; "cluster-worker2"; "cluster-worker4"].

(** A pending pod created at [created]. *)
Definition pending (created : Time) : Pod :=
  pod "pending-1" "" "ReplicaSet" "pending" [] created.

(** The only node group that can take the pending pods. *)
Definition pool : grpcplugin.Option :=
  {| grpcplugin.opt_NodeGroupId := "pool-a"; grpcplugin.opt_NodeCount := 1;
     grpcplugin.opt_Debug := "1 x a"; grpcplugin.opt_Pods := [] |}.

(** An expander server that names the node group [pool-a] three times. *)
Definition insistent : grpcplugin.grpcclientstrategy :=
  {| grpcplugin.grpcClient :=
       Some {| grpcplugin.client_BestOptions := fun _ _ =>
                 inr (Some {| grpcplugin.resp_Options :=
                                Some (repeat
                                        (Some (grpcplugin.newOptionMessage
                                                 "pool-a" 1 "" []))
                                        3) |}) |} |}.

End Examples.


(** ** Notions used to state the properties of the helpers *)

(** [name] is the name of a node of [nodes]. *)
Definition namedIn (nodes : list Node) (name : string) : Prop :=
  In name (map node_Name nodes).

(** [name] is the name of a projected volume of [podSpec]. *)
Definition projectedName (podSpec : apiv1.PodSpec) (name : string) : bool :=
  existsb (fun v => apiv1.Projected v && String.eqb (apiv1.Name v) name)
          (apiv1.Volumes podSpec).

(** The volumes of [podSpec] that are not projected, in order. *)
Definition plainVolumes (podSpec : apiv1.PodSpec) : list apiv1.Volume :=
  List.filter (fun v => negb (apiv1.Projected v)) (apiv1.Volumes podSpec).

(** [c] without its mounts of projected volumes of [podSpec]. *)
Definition plainMounts (podSpec : apiv1.PodSpec) (c : apiv1.Container)
    : apiv1.Container :=
  apiv1.with_VolumeMounts
    (List.filter (fun m => negb (projectedName podSpec (apiv1.mount_Name m)))
                 (apiv1.ctr_VolumeMounts c))
    c.

(** Some container of [podSpec] mounts one of its projected volumes. *)
Definition mountsProjected (store : gmap nat (list apiv1.Container))
    (podSpec : apiv1.PodSpec) : Prop :=
  exists c m,
    In c (apiv1.containers store podSpec) /\
    In m (apiv1.ctr_VolumeMounts c) /\
    projectedName podSpec (apiv1.mount_Name m) = true.

(** ** Concrete pod specs *)

Module Samples.

Definition data : apiv1.Volume := {| apiv1.Name := "data"; apiv1.Projected := false |}.

Definition token : apiv1.Volume := {| apiv1.Name := "token"; apiv1.Projected := true |}.

Definition certs : apiv1.Volume := {| apiv1.Name := "certs"; apiv1.Projected := true |}.

Definition mount (name : string) : apiv1.VolumeMount :=
  {| apiv1.mount_Name := name; apiv1.mount_MountPath := "/mnt/" +:+ name |}.

Definition app (mounts : list string) : apiv1.Container :=
  {| apiv1.ctr_Name := "app"; apiv1.ctr_Image := "app:1";
     apiv1.ctr_VolumeMounts := map mount mounts |}.

(** Three specs of the same workload, with arrays of their own: without a
    projected volume, with a service-account token, with certificates. *)
Definition bare : apiv1.PodSpec :=
  {| apiv1.Volumes := [data]; apiv1.Containers := 1%nat; apiv1.NodeName := "" |}.

Definition tokened : apiv1.PodSpec :=
  {| apiv1.Volumes := [data; token]; apiv1.Containers := 2%nat;
     apiv1.NodeName := "" |}.

Definition certified : apiv1.PodSpec :=
  {| apiv1.Volumes := [certs; data]; apiv1.Containers := 3%nat;
     apiv1.NodeName := "" |}.

Definition arrays : gmap nat (list apiv1.Container) :=
  <[1%nat := [app ["data"]]]>
    (<[2%nat := [app ["data"; "token"]]]>
       (<[3%nat := [app ["certs"; "data"]]]> ∅)).

End Samples.

(** ** Notions used to state the properties of [ReasonsMessage] *)

(** All the reasons of the node groups [groups], with their repetitions. *)
Definition reasonsOf (groups : list (string * list string)) : list string :=
  concat (map snd groups).

(** All the reasons that [noScaleUpInfo] gives. *)
Definition allReasons (noScaleUpInfo : NodeGroupReasons) : list string :=
  reasonsOf (map_to_list (RejectedNodeGroups noScaleUpInfo) ++
             map_to_list (SkippedNodeGroups noScaleUpInfo)).

(** How many times [reason] is given in [reasons]. *)
Definition occurrences (reasons : list string) (reason : string) : nat :=
  count_occ string_dec reasons reason.

(** The messages of [entries], joined. *)
Definition reasonsLine (entries : list (string * Z)) : string :=
  Join (map formatReason entries) ", ".

Module Reasons.

(** Two node groups rejected for lack of cpu, one of them also for lack of
    memory, and one skipped because it is at its maximum. *)
Definition info : NodeGroupReasons :=
  {| RejectedNodeGroups :=
       <["pool-a" := ["Insufficient cpu"; "Insufficient memory"]]>
         (<["pool-b" := ["Insufficient cpu"]]> ∅);
     SkippedNodeGroups := <["pool-c" := ["max node group size reached"]]> ∅ |}.

End Reasons.

(** ** Notions used to state the properties of the callbacks *)

(** A call of a method of the callbacks that changes them. *)
Inductive CallbackCall (Value : Type) :=
| CallReset
| CallDisableScaleDownForLoop
| CallSetExtraValue (key : string) (value : Value).
Arguments CallReset {Value}.
Arguments CallDisableScaleDownForLoop {Value}.
Arguments CallSetExtraValue {Value} key value.

Definition callCallback {Value} (c : CallbackCall Value)
    (callbacks : staticAutoscalerProcessorCallbacks Value)
    : GoResult (staticAutoscalerProcessorCallbacks Value) :=
  match c with
  | CallReset => Done (reset callbacks)
  | CallDisableScaleDownForLoop => Done (DisableScaleDownForLoop callbacks)
  | CallSetExtraValue key value => SetExtraValue key value callbacks
  end.

(** The calls [cs], one after the other. *)
Fixpoint callCallbacks {Value} (cs : list (CallbackCall Value))
    (callbacks : staticAutoscalerProcessorCallbacks Value)
    : GoResult (staticAutoscalerProcessorCallbacks Value) :=
  match cs with
  | [] => Done callbacks
  | c :: cs' => go_bind (callCallback c callbacks) (callCallbacks cs')
  end.

(** ** Notions used to state the properties of the totals *)

Definition sumZ (l : list Z) : Z := fold_right Z.add 0 l.

(** ** Notions used to state the properties of the remote expander *)

(** The message that stands for the option [o] in a request. *)
Definition optionMessage (o : grpcplugin.Option) : grpcplugin.ProtoOption :=
  grpcplugin.newOptionMessage (grpcplugin.opt_NodeGroupId o)
    (grpcplugin.opt_NodeCount o) (grpcplugin.opt_Debug o) (grpcplugin.opt_Pods o).

(** The request that [BestOptions] sends for [expansionOptions] and
    [nodeInfo]. *)
Definition bestOptionsRequest (expansionOptions : list grpcplugin.Option)
    (nodeInfo : gmap string grpcplugin.NodeInfo) : grpcplugin.BestOptionsRequest :=
  {| grpcplugin.req_Options := map optionMessage expansionOptions;
     grpcplugin.req_NodeMap := grpcplugin.populateNodeInfoForGRPC nodeInfo |}.

(** The response that selects the options [chosen], in this order. *)
Definition selection (chosen : list grpcplugin.Option)
    : unit + option grpcplugin.BestOptionsResponse :=
  inr (Some {| grpcplugin.resp_Options :=
                 Some (map (fun o => Some (optionMessage o)) chosen) |}).

Module Pools.

Definition small : grpcplugin.Option :=
  {| grpcplugin.opt_NodeGroupId := "pool-small"; grpcplugin.opt_NodeCount := 3;
     grpcplugin.opt_Debug := "3 x small"; grpcplugin.opt_Pods := [] |}.

Definition large : grpcplugin.Option :=
  {| grpcplugin.opt_NodeGroupId := "pool-large"; grpcplugin.opt_NodeCount := 1;
     grpcplugin.opt_Debug := "1 x large"; grpcplugin.opt_Pods := [] |}.

(** A server that prefers the last option of the request. *)
Definition picky : grpcplugin.grpcclientstrategy :=
  {| grpcplugin.grpcClient :=
       Some {| grpcplugin.client_BestOptions := fun _ request =>
                 inr (Some {| grpcplugin.resp_Options :=
                                Some (map Some
                                        (rev (grpcplugin.req_Options request))) |}) |} |}.

End Pools.

(** ** Notions used to state the properties of whole runs *)

(** What the deferred closure of [RunOnce] does when the scale-up status
    processor has been called or has no pod to report, with the scale-down
    outcome [scaleDown] to report if it was not reported yet: the status
    write, the scale-down status processor and the autoscaling status
    processor. *)
Definition statusEffects (env : Env) (a : StaticAutoscaler)
    (scaleDown : option ScaleDownResult) : list Effect :=
  (if WriteStatusConfigMap (AutoscalingContext a)
   then [EvWriteStatusConfigMap] else []) ++
  match scaleDown with
  | Some result =>
      if env_ScaleDownStatusProcessor env
      then [EvScaleDownStatusProcessor result] else []
  | None => []
  end ++
  [EvAutoscalingStatusProcessor].

Module Broken.

(** A client whose configmap cannot be read. *)
Definition unreadable : KubeClient :=
  {| kc_Pods := Some []; kc_ReplicaSet := fun _ _ => None;
     kc_ConfigMap := None; kc_Events := fun _ _ => Some [] |}.

(** A client whose configmap has a minimum of one and no maximum. *)
Definition unbounded : KubeClient :=
  {| kc_Pods := Some []; kc_ReplicaSet := fun _ _ => None;
     kc_ConfigMap := Some (<["min_node_group_size" := "1"]> ∅);
     kc_Events := fun _ _ => Some [] |}.

(** The cluster [Examples.cluster] with the lister of all the nodes
    [allNodeLister] and the health [healthy]. *)
Definition cluster (nodes : list string)
    (allNodeLister : ListCall -> option (list Node)) (healthy : bool) : Env :=
  let env := Examples.cluster nodes [] (Examples.provider 0 1) in
  {| env_AllNodeLister := allNodeLister;
     env_ReadyNodeLister := env_ReadyNodeLister env;
     env_ScheduledPodLister := env_ScheduledPodLister env;
     env_UnschedulablePodLister := env_UnschedulablePodLister env;
     env_DaemonSetLister := env_DaemonSetLister env;
     env_PodDisruptionBudgetLister := env_PodDisruptionBudgetLister env;
     env_providerStatus := env_providerStatus env;
     env_IsClusterHealthy := healthy;
     env_ShouldAbort := env_ShouldAbort env;
     env_PodListProcessor := env_PodListProcessor env;
     env_ScaleUpStatusProcessor := env_ScaleUpStatusProcessor env;
     env_ScaleDownStatusProcessor := env_ScaleDownStatusProcessor env;
     env_ScaleDownNodeProcessor := env_ScaleDownNodeProcessor env;
     env_ScaleUp := env_ScaleUp env;
     env_UpdateUnneededNodes := env_UpdateUnneededNodes env;
     env_IsNonEmptyNodeDeleteInProgress := env_IsNonEmptyNodeDeleteInProgress env;
     env_TryToScaleDown := env_TryToScaleDown env |}.

(** The nodes cannot be listed before the bounds are checked. *)
Definition unlisted (nodes : list string) : Env :=
  cluster nodes
    (fun call =>
       match call with
       | BeforeBounds => None
       | _ => Some (map Build_Node nodes)
       end)
    true.

(** The nodes cannot be listed after the bounds block. *)
Definition relisted (nodes : list string) : Env :=
  cluster nodes
    (fun call =>
       match call with
       | AfterBounds => None
       | _ => Some (map Build_Node nodes)
       end)
    true.

(** The registry finds the cluster unhealthy. *)
Definition unhealthy (nodes : list string) : Env :=
  cluster nodes (fun _ => Some (map Build_Node nodes)) false.

End Broken.

(** The relation [R] between the engines of two states. *)
Definition onSelf (R : StaticAutoscaler -> StaticAutoscaler -> Prop) (s s' : St)
    : Prop :=
  R (st_self s) (st_self s').

(** What no call changes back: the options stay, and an initialized engine
    stays initialized. *)
Definition settled (a a' : StaticAutoscaler) : Prop :=
  AutoscalingContext a' = AutoscalingContext a /\
  (initialized a = true -> initialized a' = true).
(** * Properties *)

(** ** Go strings *)

Section GoStringFacts.

Lemma HasPrefix_spec (s prefix : string) :
  HasPrefix s prefix = true <-> exists q, s = prefix +:+ q.
Proof.
  revert s. induction prefix as [|c prefix IH]; intros s.
  - split; [intros _; exists s; reflexivity | destruct s; reflexivity].
  - destruct s as [|d s]; simpl.
    + split; [discriminate | intros [q Hq]; discriminate].
    + rewrite andb_true_iff, Ascii.eqb_eq, IH. split.
      * intros [-> [q ->]]. exists q. reflexivity.
      * intros [q Hq]. injection Hq as -> ->. split; [reflexivity | eauto].
Qed.

Lemma Contains_unfold (s substr : string) :
  Contains s substr =
  HasPrefix s substr ||
  match s with
  | EmptyString => false
  | String _ s' => Contains s' substr
  end.
Proof. destruct s; reflexivity. Qed.

Lemma Contains_spec (s substr : string) :
  Contains s substr = true <-> exists p q, s = p +:+ substr +:+ q.
Proof.
  induction s as [|d s IH]; rewrite Contains_unfold.
  - rewrite orb_false_r, HasPrefix_spec. split.
    + intros [q Hq]. exists "", q. exact Hq.
    + intros [p [q Hq]]. destruct p; [exists q; exact Hq | discriminate].
  - rewrite orb_true_iff, IH, HasPrefix_spec. split.
    + intros [[q Hq] | [p [q Hq]]].
      * exists "", q. exact Hq.
      * exists (String d p), q. simpl. rewrite Hq. reflexivity.
    + intros [p [q Hq]]. destruct p as [|c p]; simpl in Hq.
      * left. exists q. exact Hq.
      * right. injection Hq as _ Hq. exists p, q. exact Hq.
Qed.

Lemma length_app_string (p q : string) :
  String.length (p +:+ q) = (String.length p + String.length q)%nat.
Proof. induction p; simpl; [reflexivity | rewrite IHp; reflexivity]. Qed.

Lemma substring_all (s : string) : substring 0 (String.length s) s = s.
Proof. induction s; simpl; [reflexivity | rewrite IHs; reflexivity]. Qed.

Lemma substring_skip (p q : string) (n : nat) :
  substring (String.length p) n (p +:+ q) = substring 0 n q.
Proof. induction p; simpl; [reflexivity | exact IHp]. Qed.

Lemma substring_split (s : string) (n : nat) :
  (n <= String.length s)%nat ->
  s = substring 0 n s +:+ substring n (String.length s - n) s.
Proof.
  revert n. induction s as [|c s IH]; intros n Hn; simpl in *.
  - destruct n; [reflexivity | lia].
  - destruct n as [|n]; simpl.
    + rewrite substring_all. reflexivity.
    + change (String c s =
              String c (substring 0 n s +:+ substring n (String.length s - n) s)).
      f_equal. apply IH. lia.
Qed.

Lemma HasSuffix_spec (s suffix : string) :
  HasSuffix s suffix = true <-> exists p, s = p +:+ suffix.
Proof.
  unfold HasSuffix. rewrite andb_true_iff, Nat.leb_le, String.eqb_eq. split.
  - intros [Hle Heq].
    exists (substring 0 (String.length s - String.length suffix) s).
    set (k := (String.length s - String.length suffix)%nat) in *.
    rewrite (substring_split s k) at 1 by lia.
    f_equal. etransitivity; [| exact Heq]. f_equal. lia.
  - intros [p ->]. rewrite length_app_string. split; [lia |].
    replace (String.length p + String.length suffix - String.length suffix)%nat
      with (String.length p) by lia.
    rewrite substring_skip. apply substring_all.
Qed.

Lemma wrapInt_id (z : Z) : inInt z = true -> wrapInt z = z.
Proof.
  unfold inInt, wrapInt, minInt, maxInt.
  rewrite andb_true_iff, !Z.leb_le. intros [H1 H2].
  rewrite Z.mod_small; lia.
Qed.

Lemma Atoi_inInt (s : string) (z : Z) : Atoi s = Some z -> inInt z = true.
Proof.
  unfold Atoi. destruct s as [|c s]; [discriminate |].
  cbv zeta.
  destruct (if Ascii.eqb c "-" || Ascii.eqb c "+" then s else String c s);
    [discriminate |].
  destruct (parseDigits _ 0) as [n|]; [| discriminate].
  destruct (inInt (if Ascii.eqb c "-" then - n else n)) eqn:E; [| discriminate].
  intros [= <-]. exact E.
Qed.

End GoStringFacts.

(** ** The node-removability predicate *)

Section Removability.

Variable kubeclient : KubeClient.
Variable workerNodeName : string.

Lemma volumes_fold (volumes : list Volume) (canBeRemove : bool) :
  fold_left (fun canBeRemove volume =>
               if vol_EmptyDir volume then false else canBeRemove)
            volumes canBeRemove = false <->
  canBeRemove = false \/
  exists volume, In volume volumes /\ vol_EmptyDir volume = true.
Proof.
  revert canBeRemove.
  induction volumes as [|v volumes IH]; intros canBeRemove; simpl.
  - split; [auto | intros [H | [v [[] _]]]; exact H].
  - rewrite IH. split.
    + intros [H | [w [Hin Hw]]].
      * destruct (vol_EmptyDir v) eqn:E; [right; exists v; auto | auto].
      * right. exists w. auto.
    + intros [-> | [w [[<- | Hin] Hw]]].
      * left. destruct (vol_EmptyDir v); reflexivity.
      * left. rewrite Hw. reflexivity.
      * right. exists w. auto.
Qed.

Lemma checkPodOnWorker_spec (canBeRemove : bool) (pod : Pod) :
  (pod_NodeName pod = workerNodeName -> pod_OwnerReferences pod <> []) ->
  exists b, checkPodOnWorker kubeclient workerNodeName canBeRemove pod = Done b /\
            (b = false <->
             canBeRemove = false \/ blocksRemoval kubeclient workerNodeName pod).
Proof.
  intros Howner. unfold checkPodOnWorker, blocksRemoval.
  destruct (String.eqb_spec (pod_NodeName pod) workerNodeName) as [Hnode | Hnode].
  - destruct (pod_OwnerReferences pod) as [|owner rest] eqn:Hrefs;
      [destruct (Howner Hnode); reflexivity |].
    destruct (String.eqb_spec (owner_Kind owner) "DaemonSet") as [Hkind | Hkind];
      simpl.
    + exists canBeRemove. split; [reflexivity |]. split; [auto |].
      intros [H | [_ [o [[= <-] [Hne _]]]]]; [exact H | contradiction].
    + eexists. split; [reflexivity |]. rewrite volumes_fold.
      fold (ownerReplicas kubeclient pod owner). unfold hasEmptyDir.
      destruct (Z.eqb_spec (ownerReplicas kubeclient pod owner) 1) as [H1 | H1].
      * split; [intros _ | auto]. right. split; [exact Hnode |].
        exists owner. auto.
      * split.
        -- intros [H | H]; [auto |]. right. split; [exact Hnode |].
           exists owner. auto.
        -- intros [H | [_ [o [[= <-] [_ [H | H]]]]]]; [auto | contradiction | auto].
  - exists canBeRemove. split; [reflexivity |]. split; [auto |].
    intros [H | [H _]]; [exact H | contradiction].
Qed.

Lemma checkPodsOnWorker_spec (pods : list Pod) (canBeRemove : bool) :
  (forall pod, In pod pods -> pod_NodeName pod = workerNodeName ->
               pod_OwnerReferences pod <> []) ->
  exists b, checkPodsOnWorker kubeclient workerNodeName pods canBeRemove = Done b /\
            (b = false <->
             canBeRemove = false \/
             exists pod, In pod pods /\ blocksRemoval kubeclient workerNodeName pod).
Proof.
  revert canBeRemove.
  induction pods as [|pod pods IH]; intros canBeRemove Howner; simpl.
  - exists canBeRemove. split; [reflexivity |]. split; [auto |].
    intros [H | [pod [[] _]]]. exact H.
  - destruct (checkPodOnWorker_spec canBeRemove pod) as [b1 [-> Hb1]];
      [intros; apply Howner; simpl; auto |].
    destruct (IH b1) as [b [Hb Hiff]]; [intros; apply Howner; simpl; auto |].
    exists b. split; [exact Hb |]. rewrite Hiff, Hb1. split.
    + intros [[H | H] | [p [Hin Hp]]]; [auto | right; exists pod; simpl; auto |].
      right. exists p. simpl. auto.
    + intros [H | [p [[<- | Hin] Hp]]]; [auto | auto |]. right. exists p. auto.
Qed.

(** A pod of the node without owner reference makes the first index
    expression panic. *)
Lemma checkPodsOnWorker_panics (pods : list Pod) (canBeRemove : bool) :
  (exists pod, In pod pods /\ pod_NodeName pod = workerNodeName /\
               pod_OwnerReferences pod = []) ->
  checkPodsOnWorker kubeclient workerNodeName pods canBeRemove = Panicked.
Proof.
  revert canBeRemove.
  induction pods as [|pod pods IH]; intros canBeRemove [p [Hin [Hnode Hrefs]]];
    [destruct Hin |].
  simpl. destruct Hin as [-> | Hin].
  - unfold checkPodOnWorker. rewrite Hrefs.
    destruct (String.eqb_spec (pod_NodeName p) workerNodeName);
      [reflexivity | contradiction].
  - destruct (checkPodOnWorker kubeclient workerNodeName canBeRemove pod) eqn:E;
      simpl; [| reflexivity |].
    + apply IH. exists p. auto.
    + unfold checkPodOnWorker in E.
      destruct (pod_NodeName pod =? workerNodeName)%string;
        [destruct (pod_OwnerReferences pod) |]; try discriminate.
      destruct (negb _); discriminate.
Qed.

End Removability.

(** C1, as the code has it: on a pod list in which every pod of the node has
    an owner reference, [checkWorkerNodeCanBeRemove] returns, and it returns
    false exactly when some pod is hosted on the node, is not owned by a
    DaemonSet and either has a replica set with one replica or declares an
    EmptyDir volume; otherwise it returns true.  Both rules are under the
    DaemonSet test. *)
Theorem checkWorkerNodeCanBeRemove_spec
    (kubeclient : KubeClient) (workerNodeName : string) (pods : list Pod) :
  kc_Pods kubeclient = Some pods ->
  (forall pod, In pod pods -> pod_NodeName pod = workerNodeName ->
               pod_OwnerReferences pod <> []) ->
  exists canBeRemove,
    checkWorkerNodeCanBeRemove kubeclient workerNodeName = Done canBeRemove /\
    (canBeRemove = false <->
     exists pod, In pod pods /\ blocksRemoval kubeclient workerNodeName pod).
Proof.
  intros Hpods Howner. unfold checkWorkerNodeCanBeRemove. rewrite Hpods.
  destruct (checkPodsOnWorker_spec kubeclient workerNodeName pods true Howner)
    as [b [Hb Hiff]].
  exists b. split; [exact Hb |]. rewrite Hiff. split; [| auto].
  intros [H | H]; [discriminate | exact H].
Qed.

(** The removal of worker 3 is blocked by the single replica of [web]. *)
Lemma checkWorkerNodeCanBeRemove_spec_witness :
  exists canBeRemove,
    checkWorkerNodeCanBeRemove
      (Examples.client [Examples.web] "1" "2" (fun _ => []))
      "cluster-worker3" = Done canBeRemove /\
    (canBeRemove = false <->
     exists pod, In pod [Examples.web] /\
       blocksRemoval (Examples.client [Examples.web] "1" "2" (fun _ => []))
                     "cluster-worker3" pod).
Proof.
  apply (checkWorkerNodeCanBeRemove_spec
           (Examples.client [Examples.web] "1" "2" (fun _ => []))
           "cluster-worker3" [Examples.web]).
  - reflexivity.
  - intros pod [<- | []] _. discriminate.
Defined.

(** C1 as stated fails: a pod of a DaemonSet with an EmptyDir volume is
    hosted on the node and the node is still reported removable. *)
Lemma checkWorkerNodeCanBeRemove_daemonset_emptydir :
  checkWorkerNodeCanBeRemove
    (Examples.client [Examples.collector] "1" "2" (fun _ => []))
    "cluster-worker3" = Done true /\
  In Examples.collector [Examples.collector] /\
  pod_NodeName Examples.collector = "cluster-worker3" /\
  hasEmptyDir Examples.collector.
Proof.
  split; [reflexivity |]. split; [left; reflexivity |].
  split; [reflexivity |]. exists Examples.scratch. split; [left |]; reflexivity.
Qed.

(** ** The remote expander *)

Section Expander.

Import grpcplugin.

Lemma populateOptionsForGRPC_lookup (expansionOptions : list Option) (id : string) :
  (populateOptionsForGRPC expansionOptions).2 !! id =
  lastWithId expansionOptions id.
Proof.
  unfold populateOptionsForGRPC, lastWithId.
  induction expansionOptions as [|o l IH] using rev_ind; [reflexivity |].
  rewrite fold_left_app, rev_app_distr. simpl.
  destruct (fold_left _ l _) as [slice m]. simpl in *.
  destruct (String.eqb_spec (opt_NodeGroupId o) id) as [-> | Hne].
  - apply lookup_insert_eq.
  - rewrite lookup_insert_ne by exact Hne. exact IH.
Qed.

Lemma lastWithId_In (expansionOptions : list Option) (id : string) (o : Option) :
  lastWithId expansionOptions id = Some o ->
  In o expansionOptions /\ opt_NodeGroupId o = id.
Proof.
  unfold lastWithId. intros H. apply find_some in H. destruct H as [Hin Heq].
  split; [apply in_rev; exact Hin | apply String.eqb_eq; exact Heq].
Qed.

Lemma lastWithId_None (expansionOptions : list Option) (id : string) :
  lastWithId expansionOptions id = None <->
  forall o, In o expansionOptions -> opt_NodeGroupId o <> id.
Proof.
  unfold lastWithId. split.
  - intros H o Hin Heq. apply in_rev in Hin.
    apply (find_none _ _ H) in Hin. apply String.eqb_neq in Hin. contradiction.
  - intros H. destruct (find _ _) as [o|] eqn:E; [| reflexivity].
    apply find_some in E. destruct E as [Hin Heq].
    apply in_rev in Hin. apply String.eqb_eq in Heq. destruct (H o Hin Heq).
Qed.

Lemma transformAndSanitize_fold (responseOptions : list (option ProtoOption))
    (m : gmap string Option) (acc : option (list Option)) :
  fold_left
    (fun options option =>
       match option with
       | None => options
       | Some option =>
           match m !! NodeGroupId option with
           | Some o => Some (default [] options ++ [o])
           | None => options
           end
       end) responseOptions acc =
  match omap (fun o => o ≫= (fun o => m !! NodeGroupId o)) responseOptions with
  | [] => acc
  | l => Some (default [] acc ++ l)
  end.
Proof.
  revert acc. induction responseOptions as [|o l IH]; intros acc; [reflexivity |].
  cbn [fold_left]. rewrite IH. destruct o as [o|]; [| reflexivity].
  cbn [omap list_omap mbind option_bind].
  destruct (m !! NodeGroupId o) as [o'|]; [| reflexivity].
  destruct (omap _ l); cbn [default]; [reflexivity |].
  unfold id. rewrite <- app_assoc. reflexivity.
Qed.

Lemma transformAndSanitize_recognized (expansionOptions : list Option)
    (responseOptions : list (option ProtoOption)) :
  transformAndSanitizeOptionsFromGRPC responseOptions
    (populateOptionsForGRPC expansionOptions).2 =
  match recognized expansionOptions responseOptions with
  | [] => None
  | l => Some l
  end.
Proof.
  unfold transformAndSanitizeOptionsFromGRPC, recognized.
  rewrite transformAndSanitize_fold.
  assert (Hsame :
    omap (fun o => o ≫= (fun o =>
            (populateOptionsForGRPC expansionOptions).2 !! NodeGroupId o))
         responseOptions =
    omap (fun o => o ≫= (fun o => lastWithId expansionOptions (NodeGroupId o)))
         responseOptions).
  { induction responseOptions as [|[o|] l IH]; [reflexivity | |].
    - cbn [omap list_omap mbind option_bind].
      rewrite populateOptionsForGRPC_lookup.
      change (list_omap _ _ ?f l) with (omap f l). rewrite IH. reflexivity.
    - exact IH. }
  rewrite Hsame. destruct (omap _ responseOptions); reflexivity.
Qed.

Lemma recognized_In (expansionOptions : list Option)
    (responseOptions : list (option ProtoOption)) (o : Option) :
  In o (recognized expansionOptions responseOptions) ->
  In o expansionOptions /\
  exists p, In (Some p) responseOptions /\ NodeGroupId p = opt_NodeGroupId o.
Proof.
  unfold recognized. intros H. apply list_elem_of_In, list_elem_of_omap in H.
  destruct H as [[p|] [Hp Ho]]; simpl in Ho; [| discriminate].
  apply lastWithId_In in Ho. destruct Ho as [Hin Hid]. split; [exact Hin |].
  exists p. split; [apply list_elem_of_In; exact Hp | congruence].
Qed.

Lemma recognized_NoDup (expansionOptions : list Option)
    (responseOptions : list (option ProtoOption)) :
  NoDup (omap (fun o => NodeGroupId <$> o) responseOptions) ->
  NoDup (recognized expansionOptions responseOptions).
Proof.
  induction responseOptions as [|[p|] l IH]; intros Hnodup;
    [constructor | | exact (IH Hnodup)].
  cbn [omap list_omap fmap option_fmap option_map] in Hnodup.
  apply NoDup_cons in Hnodup. destruct Hnodup as [Hfresh Hnodup].
  unfold recognized. cbn [omap list_omap mbind option_bind].
  destruct (lastWithId expansionOptions (NodeGroupId p)) as [o|] eqn:E;
    [| exact (IH Hnodup)].
  apply NoDup_cons. split; [| exact (IH Hnodup)].
  intros Hin. apply Hfresh. apply lastWithId_In in E. destruct E as [_ Hid].
  apply list_elem_of_In, recognized_In in Hin.
  destruct Hin as [_ [p' [Hp' Hid']]].
  apply list_elem_of_omap. exists (Some p'). split.
  - apply list_elem_of_In. exact Hp'.
  - simpl. f_equal. congruence.
Qed.

(** C7, as the code has it: [BestOptions] returns its input when the client
    is not configured, when the call under the 5-second deadline fails, when
    the response or its option list is nil and when the response names no
    input option; otherwise it returns one input option for each entry of
    the response that names one, in the order of the response.  Every option
    it returns is an input option, and when no node-group id occurs twice in
    the response, no option is returned more often than the input has it:
    the result is a rearranged sublist of the input. *)
Theorem BestOptions_fail_open (g : grpcclientstrategy)
    (expansionOptions : list Option) (nodeInfo : gmap string NodeInfo) :
  gRPCTimeout = 5 * Second /\
  match grpcClient g with
  | None => BestOptions g expansionOptions nodeInfo = expansionOptions
  | Some client =>
      match client_BestOptions client gRPCTimeout
              {| req_Options := (populateOptionsForGRPC expansionOptions).1;
                 req_NodeMap := populateNodeInfoForGRPC nodeInfo |} with
      | inl _ | inr None =>
          BestOptions g expansionOptions nodeInfo = expansionOptions
      | inr (Some response) =>
          match resp_Options response with
          | None => BestOptions g expansionOptions nodeInfo = expansionOptions
          | Some responseOptions =>
              match recognized expansionOptions responseOptions with
              | [] => BestOptions g expansionOptions nodeInfo = expansionOptions
              | endorsed => BestOptions g expansionOptions nodeInfo = endorsed
              end
          end
      end
  end /\
  (forall o, In o (BestOptions g expansionOptions nodeInfo) ->
             In o expansionOptions) /\
  (forall client response responseOptions,
     grpcClient g = Some client ->
     client_BestOptions client gRPCTimeout
       {| req_Options := (populateOptionsForGRPC expansionOptions).1;
          req_NodeMap := populateNodeInfoForGRPC nodeInfo |} =
       inr (Some response) ->
     resp_Options response = Some responseOptions ->
     NoDup (omap (fun o => NodeGroupId <$> o) responseOptions) ->
     BestOptions g expansionOptions nodeInfo ⊆+ expansionOptions).
Proof.
  split; [reflexivity |].
  assert (Hshape :
    match grpcClient g with
    | None => BestOptions g expansionOptions nodeInfo = expansionOptions
    | Some client =>
        match client_BestOptions client gRPCTimeout
                {| req_Options := (populateOptionsForGRPC expansionOptions).1;
                   req_NodeMap := populateNodeInfoForGRPC nodeInfo |} with
        | inl _ | inr None =>
            BestOptions g expansionOptions nodeInfo = expansionOptions
        | inr (Some response) =>
            match resp_Options response with
            | None => BestOptions g expansionOptions nodeInfo = expansionOptions
            | Some responseOptions =>
                match recognized expansionOptions responseOptions with
                | [] => BestOptions g expansionOptions nodeInfo = expansionOptions
                | endorsed => BestOptions g expansionOptions nodeInfo = endorsed
                end
            end
        end
    end).
  { unfold BestOptions.
    pose proof (transformAndSanitize_recognized expansionOptions) as Ht.
    destruct (grpcClient g) as [client|]; [| reflexivity].
    destruct (populateOptionsForGRPC expansionOptions) as [slice m]. simpl in *.
    destruct (client_BestOptions client gRPCTimeout _) as [e | [response|]];
      [reflexivity | | reflexivity].
    destruct (resp_Options response) as [responseOptions|]; [| reflexivity].
    rewrite Ht. destruct (recognized expansionOptions responseOptions); reflexivity. }
  split; [exact Hshape |]. split.
  - intros o Hin.
    destruct (grpcClient g) as [client|]; [| rewrite Hshape in Hin; exact Hin].
    destruct (client_BestOptions client gRPCTimeout _) as [e | [response|]];
      try (rewrite Hshape in Hin; exact Hin).
    destruct (resp_Options response) as [responseOptions|];
      [| rewrite Hshape in Hin; exact Hin].
    destruct (recognized expansionOptions responseOptions) as [|o1 l] eqn:E;
      rewrite Hshape in Hin; [exact Hin |].
    rewrite <- E in Hin. apply recognized_In in Hin. tauto.
  - intros client response responseOptions Hclient Hcall Hoptions Hnodup.
    rewrite Hclient, Hcall, Hoptions in Hshape.
    destruct (recognized expansionOptions responseOptions) as [|o1 l] eqn:E;
      rewrite Hshape; [reflexivity |].
    rewrite <- E. apply NoDup_submseteq.
    + apply recognized_NoDup. exact Hnodup.
    + intros o Hin. apply list_elem_of_In.
      apply list_elem_of_In, recognized_In in Hin. tauto.
Qed.

(** C7 as stated fails: the code appends one option for each entry of the
    response, so a server that names the only input option three times gets
    it back three times, which is neither a sublist of the input nor a
    rearranged one. *)
Lemma BestOptions_repeats_option :
  BestOptions Examples.insistent [Examples.pool] ∅ =
    [Examples.pool; Examples.pool; Examples.pool] /\
  ~ sublist (BestOptions Examples.insistent [Examples.pool] ∅) [Examples.pool] /\
  ~ (BestOptions Examples.insistent [Examples.pool] ∅ ⊆+ [Examples.pool]).
Proof.
  assert (Hrun : BestOptions Examples.insistent [Examples.pool] ∅ =
                 [Examples.pool; Examples.pool; Examples.pool])
    by (vm_compute; reflexivity).
  rewrite Hrun. split; [reflexivity |]. split; intros H.
  - apply sublist_length in H. simpl in H. lia.
  - apply submseteq_length in H. simpl in H. lia.
Qed.

End Expander.

(** ** The eventing scale-up status processor *)

Section Eventing.

Variable kubeclient : KubeClient.

Lemma processPod_listed (pod : NoScaleUpInfo) (first : Event) (rest : list Event) :
  listedEvents kubeclient pod = first :: rest ->
  processPod kubeclient pod = Done (scaleUpEvent pod (event_Message first)).
Proof.
  unfold processPod, listedEvents, scaleUpEvent. intros ->.
  destruct (Contains (event_Message first) "Insufficient"); reflexivity.
Qed.

Lemma processPod_unlisted (pod : NoScaleUpInfo) :
  listedEvents kubeclient pod = [] -> processPod kubeclient pod = Panicked.
Proof. unfold processPod, listedEvents. intros ->. reflexivity. Qed.

(** With an event listed for every pod, the processor records one event per
    pod, in order, chosen by the message of the first listed event. *)
Lemma processPods_events (pods : list NoScaleUpInfo) :
  Forall (fun pod => listedEvents kubeclient pod <> []) pods ->
  processPods kubeclient pods =
  (map (fun pod =>
          scaleUpEvent pod
            (event_Message (default {| event_Message := "" |}
                                    (head (listedEvents kubeclient pod)))))
       pods,
   Done tt).
Proof.
  induction 1 as [|pod pods Hpod _ IH]; [reflexivity |].
  destruct (listedEvents kubeclient pod) as [|first rest] eqn:E;
    [destruct Hpod; reflexivity |].
  simpl. rewrite (processPod_listed pod first rest E), IH, E. reflexivity.
Qed.

Lemma processPods_panics (pods : list NoScaleUpInfo) :
  Exists (fun pod => listedEvents kubeclient pod = []) pods ->
  (processPods kubeclient pods).2 = Panicked.
Proof.
  induction 1 as [pod pods Hpod | pod pods _ IH]; simpl.
  - rewrite (processPod_unlisted pod Hpod). reflexivity.
  - destruct (processPod kubeclient pod) eqn:E; [| reflexivity |].
    + destruct (processPods kubeclient pods). exact IH.
    + unfold processPod in E. destruct (default _ _); [discriminate |].
      destruct (negb _); discriminate.
Qed.

End Eventing.

(** C10: [Process] indexes the first listed event of each remaining pod
    without a test.  It panics on an input in which a remaining pod has no
    listed event, and on no input in which every remaining pod has one. *)
Theorem Process_panics_without_events :
  (exists status kubeclient,
     Exists (fun pod => listedEvents kubeclient pod = [])
            (sus_PodsRemainUnschedulable status) /\
     (Process status kubeclient).2 = Panicked) /\
  (forall status kubeclient,
     Forall (fun pod => listedEvents kubeclient pod <> [])
            (sus_PodsRemainUnschedulable status) ->
     (Process status kubeclient).2 = Done tt) /\
  (forall status kubeclient,
     (Process status kubeclient).2 = Panicked <->
     Exists (fun pod => listedEvents kubeclient pod = [])
            (sus_PodsRemainUnschedulable status)).
Proof.
  assert (Hsafe : forall status kubeclient,
     Forall (fun pod => listedEvents kubeclient pod <> [])
            (sus_PodsRemainUnschedulable status) ->
     (Process status kubeclient).2 = Done tt).
  { intros status kubeclient H. unfold Process.
    rewrite (processPods_events kubeclient _ H). reflexivity. }
  split; [| split; [exact Hsafe |]].
  - exists (Examples.remaining [Examples.idle]),
           (Examples.client [] "1" "2" Examples.pendingEvents).
    split; [| reflexivity]. left. reflexivity.
  - intros status kubeclient. split; [| apply processPods_panics].
    intros Hpanic.
    assert (Hdec : forall pod : NoScaleUpInfo,
              { listedEvents kubeclient pod = [] } +
              { listedEvents kubeclient pod <> [] }).
    { intros pod. destruct (listedEvents kubeclient pod); [left | right];
        congruence. }
    destruct (List.Exists_dec (fun pod => listedEvents kubeclient pod = [])
                (sus_PodsRemainUnschedulable status) Hdec) as [H | H];
      [exact H |].
    rewrite Hsafe in Hpanic; [discriminate |].
    apply Forall_Exists_neg. exact H.
Qed.

(** A status with one remaining pod that has a listed event is processed
    without panic. *)
Lemma Process_panics_without_events_witness :
  (Process (Examples.remaining [Examples.starved])
           (Examples.client [] "1" "2" Examples.pendingEvents)).2 = Done tt.
Proof.
  apply (proj1 (proj2 Process_panics_without_events)).
  repeat constructor. discriminate.
Defined.

(** C8 at a failing input: [idle] has no listed event and precedes
    [starved], whose event says that cpu is insufficient.  The processor
    panics at [idle] and records no event at all, so [starved] does not get
    its TriggerScaleUp event. *)
Theorem Process_drops_events_after_panic :
  Process (Examples.remaining [Examples.idle; Examples.starved])
          (Examples.client [] "1" "2" Examples.pendingEvents) =
  ([], Panicked) /\
  listedEvents (Examples.client [] "1" "2" Examples.pendingEvents)
               {| nsi_Pod := Examples.starved |} =
  [ {| event_Message := "0/2 nodes are available: 2 Insufficient cpu." |} ].
Proof. split; reflexivity. Qed.

(** The same two pods in the other order: [starved] gets its event before
    the panic at [idle]. *)
Example Process_starved_first :
  Process (Examples.remaining [Examples.starved; Examples.idle])
          (Examples.client [] "1" "2" Examples.pendingEvents) =
  ([EvRecorderEvent Examples.starved "TriggerScaleUp" "pod trigger scale-up"],
   Panicked).
Proof. reflexivity. Qed.

(** ** How the steps of [RunOnce] change the engine and extend the trace *)

Section Keeps.

Context {T : StaticAutoscaler -> StaticAutoscaler -> Prop} {Q : Effect -> Prop}.
Context {F : Frame T Q}.

Let T_refl := @frame_refl T Q F.
Let T_trans := @frame_trans T Q F.
Let T_same := @frame_same T Q F.
Let Q_passive := @frame_passive T Q F.

Lemma evolves_refl (s : St) : evolves T Q s s.
Proof.
  split; [apply T_refl |]. exists []. rewrite app_nil_r. auto.
Qed.

Lemma evolves_trans (s1 s2 s3 : St) :
  evolves T Q s1 s2 -> evolves T Q s2 s3 -> evolves T Q s1 s3.
Proof.
  intros [HT1 [t1 [E1 Q1]]] [HT2 [t2 [E2 Q2]]]. split; [eauto |].
  exists (t1 ++ t2). rewrite E2, E1, app_assoc. split; [reflexivity |].
  apply Forall_app; auto.
Qed.

Lemma keeps_ret {A} (a : A) : keeps (evolves T Q) (ret a).
Proof. intros s. apply evolves_refl. Qed.

Lemma keeps_returns {A} (err : option AutoscalerError) :
  keeps (evolves T Q) (@returns A err).
Proof. intros s. apply evolves_refl. Qed.

Lemma keeps_outOfFuel {A} : keeps (evolves T Q) (@outOfFuel A).
Proof. intros s. apply evolves_refl. Qed.

Lemma keeps_lift {A} (r : GoResult A) : keeps (evolves T Q) (lift r).
Proof. intros s. unfold lift. destruct r; apply evolves_refl. Qed.

Lemma keeps_getSelf : keeps (evolves T Q) getSelf.
Proof. intros s. apply evolves_refl. Qed.

Lemma keeps_getLocals : keeps (evolves T Q) getLocals.
Proof. intros s. apply evolves_refl. Qed.

Lemma keeps_bind {A B} (m : M A) (k : A -> M B) :
  keeps (evolves T Q) m -> (forall a, keeps (evolves T Q) (k a)) ->
  keeps (evolves T Q) (bind m k).
Proof.
  intros Hm Hk s. specialize (Hm s). unfold bind.
  destruct (m s) as [a s' | err s' | s' | s' | s']; simpl in *; try exact Hm.
  apply (evolves_trans _ _ _ Hm). apply Hk.
Qed.

Lemma keeps_bind_ret {A B} (a : A) (k : A -> M B) :
  keeps (evolves T Q) (k a) -> keeps (evolves T Q) (bind (ret a) k).
Proof. intros H s. exact (H s). Qed.

Lemma keeps_modifySelf (f : StaticAutoscaler -> StaticAutoscaler) :
  (forall a, T a (f a)) -> keeps (evolves T Q) (modifySelf f).
Proof.
  intros Hf s. split; simpl; [apply Hf |].
  exists []. rewrite app_nil_r. auto.
Qed.

Lemma keeps_modifyLocals (f : Locals -> Locals) :
  keeps (evolves T Q) (modifyLocals f).
Proof.
  intros s. split; simpl; [apply T_refl |].
  exists []. rewrite app_nil_r. auto.
Qed.

Lemma keeps_emits (effects : list Effect) :
  Forall Q effects -> keeps (evolves T Q) (emits effects).
Proof.
  intros H s. split; simpl; [apply T_refl |]. exists effects. auto.
Qed.

Lemma keeps_emit (e : Effect) : Q e -> keeps (evolves T Q) (emit e).
Proof. intros H. apply keeps_emits. auto. Qed.

Lemma keeps_sleep (d : Duration) : keeps (evolves T Q) (sleep d).
Proof.
  intros s. split; simpl; [apply T_refl |]. exists [EvSleep d].
  split; [reflexivity |]. repeat constructor. apply Q_passive. reflexivity.
Qed.

Lemma T_with_initialized b a : T a (with_initialized b a).
Proof. apply T_same. repeat split. Qed.

Lemma T_with_disableScaleDownForLoop b a : T a (with_disableScaleDownForLoop b a).
Proof. apply T_same. repeat split. Qed.

Lemma T_with_unneededNodes l a : T a (with_unneededNodes l a).
Proof. apply T_same. repeat split. Qed.

Lemma T_with_ClusterSnapshot m a : T a (with_ClusterSnapshot m a).
Proof. apply T_same. repeat split. Qed.

Variable env : Env.

Lemma keeps_CheckStatusCluster : keeps (evolves T Q) (CheckStatusCluster env).
Proof.
  intros s. split; simpl; [apply T_refl |]. exists [EvCheckStatusCluster].
  split; [reflexivity |]. repeat constructor. apply Q_passive. reflexivity.
Qed.

Lemma keeps_CheckErrorStatusCluster :
  keeps (evolves T Q) (CheckErrorStatusCluster env).
Proof.
  intros s. split; simpl; [apply T_refl |]. exists [EvCheckErrorStatusCluster].
  split; [reflexivity |]. repeat constructor. apply Q_passive. reflexivity.
Qed.

Lemma keeps_waitSucceeded (fuel : nat) : keeps (evolves T Q) (waitSucceeded env fuel).
Proof.
  induction fuel as [|fuel IH]; simpl; [apply keeps_outOfFuel |].
  apply keeps_bind; [apply keeps_sleep | intros _].
  apply keeps_bind; [apply keeps_CheckStatusCluster | intros ok].
  destruct ok; [apply keeps_ret | exact IH].
Qed.

Lemma keeps_pollStatus (retry : M unit) (fuel : nat) :
  keeps (evolves T Q) retry -> keeps (evolves T Q) (pollStatus env retry fuel).
Proof.
  intros Hretry. induction fuel as [|fuel IH]; simpl; [apply keeps_outOfFuel |].
  apply keeps_bind; [apply keeps_sleep | intros _].
  apply keeps_bind; [apply keeps_CheckStatusCluster | intros ok].
  destruct ok; [apply keeps_ret |].
  apply keeps_bind; [apply keeps_CheckErrorStatusCluster | intros err].
  destruct err; [| exact IH].
  apply keeps_bind; [exact Hretry | intros _]. apply keeps_waitSucceeded.
Qed.

Lemma processPods_passive (kubeclient : KubeClient) (pods : list NoScaleUpInfo) :
  Forall (fun e => passive e = true) (processPods kubeclient pods).1.
Proof.
  induction pods as [|pod pods IH]; simpl; [constructor |].
  destruct (processPod kubeclient pod) as [ev | |] eqn:E; simpl;
    [| constructor | constructor].
  destruct (processPods kubeclient pods) as [evs r]. simpl in *.
  constructor; [| exact IH].
  unfold processPod in E. destruct (default _ _); [discriminate |].
  destruct (negb _); injection E as <-; reflexivity.
Qed.

Lemma keeps_callProcess (status : ScaleUpStatus) (kubeclient : KubeClient) :
  keeps (evolves T Q) (callProcess status kubeclient).
Proof.
  unfold callProcess.
  pose proof (processPods_passive kubeclient (sus_PodsRemainUnschedulable status)) as H.
  unfold Process. destruct (processPods _ _) as [events r]. simpl in H.
  apply keeps_bind; [| intros _; apply keeps_lift].
  apply keeps_emits. eapply Forall_impl; [exact H | exact Q_passive].
Qed.

End Keeps.

Ltac keeps_step :=
  lazymatch goal with
  | |- keeps _ (bind (ret _) _) => apply keeps_bind_ret
  | |- keeps ?R (bind (orReturn (Some ?x) _ _) ?k) => change (keeps R (bind (ret x) k))
  | |- keeps _ (bind _ _) => apply keeps_bind; [ | intros ? ]
  | |- keeps _ (ret _) => apply keeps_ret
  | |- keeps _ (returns _) => apply keeps_returns
  | |- keeps _ outOfFuel => apply keeps_outOfFuel
  | |- keeps _ (lift _) => apply keeps_lift
  | |- keeps _ getSelf => apply keeps_getSelf
  | |- keeps _ getLocals => apply keeps_getLocals
  | |- keeps _ (modifyLocals _) => apply keeps_modifyLocals
  | |- keeps _ (modifySelf (with_initialized _)) =>
      apply keeps_modifySelf, T_with_initialized
  | |- keeps _ (modifySelf (with_disableScaleDownForLoop _)) =>
      apply keeps_modifySelf, T_with_disableScaleDownForLoop
  | |- keeps _ (modifySelf (with_unneededNodes _)) =>
      apply keeps_modifySelf, T_with_unneededNodes
  | |- keeps _ (modifySelf (with_ClusterSnapshot _)) =>
      apply keeps_modifySelf, T_with_ClusterSnapshot
  | |- keeps _ (modifySelf _) => apply keeps_modifySelf
  | |- keeps _ (emits _) => apply keeps_emits
  | |- keeps _ (emit _) => apply keeps_emit
  | |- keeps _ (callProcess _ _) => apply keeps_callProcess
  | |- keeps _ (when ?c _) => unfold when; destruct c
  | |- keeps _ (orReturn ?c _ _) => unfold orReturn; destruct c
  | |- keeps _ (match ?x with _ => _ end) => destruct x
  end.

Ltac passive_effect := apply frame_passive; reflexivity.

Section Phases.

Context {T : StaticAutoscaler -> StaticAutoscaler -> Prop} {Q : Effect -> Prop}.
Context {F : Frame T Q}.
Variable env : Env.

Lemma keeps_deferredStatus (kubeclient : KubeClient) :
  keeps (evolves T Q) (deferredStatus env kubeclient).
Proof. unfold deferredStatus. repeat keeps_step; passive_effect. Qed.

(** The result of a call continues the state in which its body ended. *)
Lemma finish_evolves (kubeclient : KubeClient) (r : Step unit) :
  T (st_self (final r)) (res_self (finish env kubeclient r)) /\
  exists effects,
    res_trace (finish env kubeclient r) = st_trace (final r) ++ effects /\
    Forall Q effects.
Proof.
  assert (Hd : forall o s,
    T (st_self s) (res_self (runDeferred env kubeclient o s)) /\
    exists effects,
      res_trace (runDeferred env kubeclient o s) = st_trace s ++ effects /\
      Forall Q effects).
  { intros o s. unfold runDeferred.
    destruct (statusDeferred (st_locals s)); [| apply evolves_refl].
    pose proof (keeps_deferredStatus kubeclient s) as H.
    destruct (deferredStatus env kubeclient s); exact H. }
  destruct r; simpl; try apply Hd; apply evolves_refl.
Qed.

Variable now : Time.
Hypothesis Q_all : forall e, Q e.
Hypothesis T_up : forall a, T a (with_lastScaleUpTime now a).
Hypothesis T_delete : forall a, T a (with_lastScaleDownDeleteTime now a).
Hypothesis T_fail : forall a, T a (with_lastScaleDownFailTime now a).

Lemma Forall_Q_all (effects : list Effect) : Forall Q effects.
Proof. apply Forall_forall. intros e _. apply Q_all. Qed.

Lemma keeps_cleanUpIfRequired : keeps (evolves T Q) (cleanUpIfRequired env).
Proof. unfold cleanUpIfRequired. repeat keeps_step; apply Q_all. Qed.

Lemma keeps_enforceBounds (fuel : nat) (kubeclient : KubeClient)
    (allNodes : list Node) :
  keeps (evolves T Q) (enforceBounds env fuel kubeclient allNodes).
Proof.
  unfold enforceBounds. cbv zeta.
  repeat first
    [ apply keeps_pollStatus; apply keeps_emit, Q_all
    | keeps_step ]; apply Q_all.
Qed.

Lemma keeps_decideScaleUp (kubeclient : KubeClient) (readyNodes : list Node)
    (pods : list Pod) :
  keeps (evolves T Q) (decideScaleUp env now kubeclient readyNodes pods).
Proof.
  unfold decideScaleUp.
  repeat keeps_step; try apply Q_all; try apply Forall_Q_all; try apply T_up.
Qed.

Lemma keeps_decideScaleDown (kubeclient : KubeClient) (allNodes : list Node) :
  keeps (evolves T Q) (decideScaleDown env now kubeclient allNodes).
Proof.
  unfold decideScaleDown.
  repeat keeps_step; try apply Q_all; try apply Forall_Q_all;
    try apply T_delete; try apply T_fail.
Qed.

Lemma keeps_reconcile (kubeclient : KubeClient) :
  keeps (evolves T Q) (reconcile env now kubeclient).
Proof.
  unfold reconcile.
  repeat first
    [ apply keeps_decideScaleUp | apply keeps_decideScaleDown | keeps_step ];
    apply Q_all.
Qed.

Lemma keeps_RunOnce_body (fuel : nat) (kubeclient : KubeClient) :
  keeps (evolves T Q) (RunOnce_body env fuel now kubeclient).
Proof.
  unfold RunOnce_body.
  repeat first
    [ apply keeps_cleanUpIfRequired | apply keeps_enforceBounds
    | apply keeps_reconcile | keeps_step ].
Qed.

(** The result of [RunOnce] continues the engine it is called on. *)
Lemma RunOnce_evolves (fuel : nat) (a : StaticAutoscaler) (kubeclient : KubeClient) :
  T a (res_self (RunOnce env fuel a now kubeclient)).
Proof.
  unfold RunOnce.
  set (s0 := {| st_self := a; st_locals := initialLocals; st_trace := [];
                st_clock := 0 |}).
  destruct (keeps_RunOnce_body fuel kubeclient s0) as [HT _].
  destruct (finish_evolves kubeclient (RunOnce_body env fuel now kubeclient s0))
    as [HT' _].
  exact (frame_trans _ _ _ HT HT').
Qed.

End Phases.

#[global] Instance frame_any : Frame (fun _ _ => True) (fun _ => True).
Proof. split; auto. Qed.

#[global] Instance frame_stampedAt (now : Time) :
  Frame (stampedAt now) (fun _ => True).
Proof.
  split; auto.
  - intros a. unfold stampedAt. auto.
  - intros a b c [H1 [H2 H3]] [H4 [H5 H6]]. unfold stampedAt.
    repeat split.
    + destruct H4 as [-> | ->]; auto.
    + destruct H5 as [-> | ->]; auto.
    + destruct H6 as [-> | ->]; auto.
  - intros a a' [H1 [H2 H3]]. unfold stampedAt. auto.
Qed.

#[global] Instance frame_sameTimestamps : Frame sameTimestamps quiet.
Proof.
  split; auto.
  - intros a. repeat split.
  - intros a b c [H1 [H2 H3]] [H4 [H5 H6]]. repeat split; congruence.
  - intros e He Hm. destruct e; try discriminate. reflexivity.
Qed.

#[global] Instance frame_passive_only :
  Frame (fun _ _ => True) (fun e => passive e = true).
Proof. split; auto. Qed.

(** ** The polling loops *)

Section Polling.

Variable env : Env.

Lemma advance_advance (s : St) (t1 t2 : list Effect) (n1 n2 : nat) :
  advance (advance s t1 n1) t2 n2 = advance s (t1 ++ t2) (n2 + n1).
Proof.
  unfold advance. simpl. f_equal; [apply eq_sym, app_assoc | lia].
Qed.

Lemma advance_nil (s : St) : advance s [] 0 = s.
Proof. destruct s. unfold advance. simpl. f_equal. apply app_nil_r. Qed.

Ltac poll_step H :=
  cbn; repeat (rewrite H; cbn); unfold advance; cbn;
  rewrite <- ?app_assoc; try reflexivity.

Lemma pollStatus_scaling_step (retry : M unit) (fuel : nat) (s : St) :
  env_providerStatus env (S (st_clock s)) = SCALING ->
  pollStatus env retry (S fuel) s =
  pollStatus env retry fuel (advance s pollScaling 1).
Proof. intros H. poll_step H. Qed.

Lemma pollStatus_succeeded (retry : M unit) (fuel : nat) (s : St) :
  env_providerStatus env (S (st_clock s)) = SUCCEEDED ->
  pollStatus env retry (S fuel) s = Continue tt (advance s pollOnce 1).
Proof. intros H. poll_step H. Qed.

Lemma pollStatus_error (retry : M unit) (fuel : nat) (s : St) :
  env_providerStatus env (S (st_clock s)) = ERROR ->
  pollStatus env retry (S fuel) s =
  bind retry (fun _ => waitSucceeded env fuel) (advance s pollScaling 1).
Proof. intros H. poll_step H. Qed.

Lemma pollStatus_scaling (retry : M unit) (k fuel : nat) (s : St) :
  (forall j, (1 <= j <= k)%nat ->
             env_providerStatus env (j + st_clock s) = SCALING) ->
  pollStatus env retry (k + fuel) s =
  pollStatus env retry fuel (advance s (times k pollScaling) k).
Proof.
  revert s. induction k as [|k IH]; intros s H.
  - rewrite advance_nil. reflexivity.
  - change (S k + fuel)%nat with (S (k + fuel)).
    rewrite pollStatus_scaling_step by (apply (H 1%nat); lia).
    rewrite IH.
    + rewrite advance_advance, Nat.add_1_r. reflexivity.
    + intros j Hj. simpl. rewrite Nat.add_succ_r. apply (H (S j)). lia.
Qed.

Lemma waitSucceeded_waiting_step (fuel : nat) (s : St) :
  env_providerStatus env (S (st_clock s)) <> SUCCEEDED ->
  waitSucceeded env (S fuel) s = waitSucceeded env fuel (advance s pollOnce 1).
Proof.
  intros H. cbn.
  destruct (env_providerStatus env (S (st_clock s))); [| destruct H; reflexivity |];
    cbn; unfold advance; cbn; rewrite <- ?app_assoc; reflexivity.
Qed.

Lemma waitSucceeded_succeeded (fuel : nat) (s : St) :
  env_providerStatus env (S (st_clock s)) = SUCCEEDED ->
  waitSucceeded env (S fuel) s = Continue tt (advance s pollOnce 1).
Proof. intros H. poll_step H. Qed.

Lemma waitSucceeded_waiting (m fuel : nat) (s : St) :
  (forall j, (1 <= j <= m)%nat ->
             env_providerStatus env (j + st_clock s) <> SUCCEEDED) ->
  waitSucceeded env (m + fuel) s =
  waitSucceeded env fuel (advance s (times m pollOnce) m).
Proof.
  revert s. induction m as [|m IH]; intros s H.
  - rewrite advance_nil. reflexivity.
  - change (S m + fuel)%nat with (S (m + fuel)).
    rewrite waitSucceeded_waiting_step by (apply (H 1%nat); lia).
    rewrite IH.
    + rewrite advance_advance, Nat.add_1_r. reflexivity.
    + intros j Hj. simpl. rewrite Nat.add_succ_r. apply (H (S j)). lia.
Qed.

Lemma emit_run (e : Effect) (s : St) : emit e s = Continue tt (advance s [e] 0).
Proof. reflexivity. Qed.

(** A request that the provider completes at the poll [k + 1]: the request,
    [k] polls that find the provider scaling, one poll that finds it
    done. *)
Lemma request_succeeds (request : Effect) (k fuel : nat) (s : St) :
  (forall j, (1 <= j <= k)%nat ->
             env_providerStatus env (j + st_clock s) = SCALING) ->
  env_providerStatus env (S k + st_clock s) = SUCCEEDED ->
  (k < fuel)%nat ->
  bind (emit request) (fun _ => pollStatus env (emit request) fuel) s =
  Continue tt (advance s (request :: times k pollScaling ++ pollOnce) (S k)).
Proof.
  intros Hscaling Hdone Hfuel.
  replace fuel with (k + S (fuel - S k))%nat by lia.
  unfold bind at 1. rewrite emit_run.
  rewrite pollStatus_scaling by exact Hscaling.
  rewrite pollStatus_succeeded.
  - rewrite !advance_advance. f_equal. unfold advance.
    f_equal; try lia; rewrite <- ?app_assoc; reflexivity.
  - cbn. exact Hdone.
Qed.

(** A request that the provider fails at the poll [k + 1] and completes,
    once retried, [m + 1] polls later: the request, [k] polls that find the
    provider scaling, the poll that finds the error, the request again and
    [m + 1] polls that look for SUCCEEDED only. *)
Lemma request_retried (request : Effect) (k m fuel : nat) (s : St) :
  (forall j, (1 <= j <= k)%nat ->
             env_providerStatus env (j + st_clock s) = SCALING) ->
  env_providerStatus env (S k + st_clock s) = ERROR ->
  (forall j, (1 <= j <= m)%nat ->
             env_providerStatus env (j + (S k + st_clock s)) <> SUCCEEDED) ->
  env_providerStatus env (S m + (S k + st_clock s)) = SUCCEEDED ->
  (k + m + 1 < fuel)%nat ->
  bind (emit request) (fun _ => pollStatus env (emit request) fuel) s =
  Continue tt
    (advance s
       (request :: times k pollScaling ++ pollScaling ++
        request :: times m pollOnce ++ pollOnce)
       (S m + S k)).
Proof.
  intros Hscaling Herror Hwaiting Hdone Hfuel.
  replace fuel with (k + S (m + S (fuel - S (S (k + m)))))%nat by lia.
  unfold bind at 1. rewrite emit_run.
  rewrite pollStatus_scaling by exact Hscaling.
  rewrite pollStatus_error by (cbn; exact Herror).
  unfold bind at 1. rewrite emit_run.
  rewrite waitSucceeded_waiting.
  - rewrite waitSucceeded_succeeded.
    + rewrite !advance_advance. f_equal. unfold advance.
      f_equal; try lia; rewrite <- ?app_assoc; reflexivity.
    + cbn. cbn in Hdone. rewrite ?Nat.add_succ_r in *. exact Hdone.
  - intros j Hj. cbn. specialize (Hwaiting j Hj). cbn in Hwaiting.
    rewrite ?Nat.add_succ_r in *. exact Hwaiting.
Qed.

End Polling.

(** ** The bounds block *)

Section Bounds.

Variable env : Env.

Lemma getSizeNodeGroup_inInt (key : string) (kubeclient : KubeClient) (z : Z) :
  getSizeNodeGroup key kubeclient = Done z -> inInt z = true.
Proof.
  unfold getSizeNodeGroup. destruct (kc_ConfigMap kubeclient) as [data|];
    [| discriminate].
  destruct (data !! key) as [v|]; [| intros [= <-]; reflexivity].
  destruct (Atoi v) as [value|] eqn:E; [| discriminate].
  intros [= <-]. exact (Atoi_inInt v value E).
Qed.

Lemma bind_lift_Done {A B} (a : A) (k : A -> M B) (s : St) :
  bind (lift (Done a)) k s = k a s.
Proof. reflexivity. Qed.

Lemma bind_assoc {A B C} (m : M A) (k : A -> M B) (h : B -> M C) (s : St) :
  bind (bind m k) h s = bind m (fun a => bind (k a) h) s.
Proof. unfold bind. destruct (m s); reflexivity. Qed.

(** [RunOnce] reaches the bounds block after the clean-up. *)
Lemma RunOnce_at_bounds (fuel : nat) (a : StaticAutoscaler) (now : Time)
    (kubeclient : KubeClient) :
  RunOnce env fuel a now kubeclient =
  finish env kubeclient
    (bind (enforceBounds env fuel kubeclient (obtainNodeLists env BeforeBounds).1.1)
          (fun _ => reconcile env now kubeclient)
          (atBounds env a)).
Proof.
  unfold RunOnce, RunOnce_body, cleanUpIfRequired, atBounds, started, cleanUpEffects.
  destruct (obtainNodeLists env BeforeBounds) as [[allNodes readyNodes] typedErr].
  unfold bind, getSelf, when, emit, emits, modifySelf, ret. simpl.
  destruct (initialized a); simpl; [reflexivity |].
  destruct (env_ReadyNodeLister env AtCleanUp); simpl; [| reflexivity].
  destruct (MaxBulkSoftTaintCount (AutoscalingContext a) =? 0); reflexivity.
Qed.

Lemma workerCount_nonneg : 0 <= workerCount env.
Proof. unfold workerCount. lia. Qed.

(** The scale-up branch of the bounds block. *)
Lemma enforceBounds_below_minimum (fuel : nat) (kubeclient : KubeClient)
    (minSize : Z) (s : St) :
  GetMinSizeNodeGroup kubeclient = Done minSize ->
  workerCount env < minSize ->
  enforceBounds env fuel kubeclient (obtainNodeLists env BeforeBounds).1.1 s =
  bind (emit (EvPerformScaleUp (minSize - workerCount env)))
       (fun _ => pollStatus env
                   (emit (EvPerformScaleUp (minSize - workerCount env))) fuel) s.
Proof.
  intros Hmin Hlt. unfold enforceBounds. cbv zeta.
  fold (workers env). fold (workerCount env).
  rewrite Hmin, bind_lift_Done.
  destruct (Z.ltb_spec (workerCount env) minSize) as [_ | Hge]; [| lia].
  rewrite bind_lift_Done. unfold intSub. rewrite wrapInt_id; [reflexivity |].
  pose proof (getSizeNodeGroup_inInt _ _ _ Hmin) as Hin.
  pose proof workerCount_nonneg.
  unfold inInt, minInt, maxInt in *.
  rewrite andb_true_iff, !Z.leb_le in *. lia.
Qed.

(** The scale-down branch of the bounds block. *)
Lemma enforceBounds_above_maximum (fuel : nat) (kubeclient : KubeClient)
    (minSize maxSize : Z) (s : St) :
  GetMinSizeNodeGroup kubeclient = Done minSize ->
  GetMaxSizeNodeGroup kubeclient = Done maxSize ->
  minSize <= workerCount env ->
  maxSize < workerCount env ->
  enforceBounds env fuel kubeclient (obtainNodeLists env BeforeBounds).1.1 s =
  bind (lift (checkWorkerNodeCanBeRemove kubeclient
                (selectWorkerNameToRemove (workers env))))
       (fun canBeRemove =>
          if negb canBeRemove then returns None
          else
            bind (emit (EvPerformScaleDown (intSub (workerCount env) maxSize)))
                 (fun _ =>
                    pollStatus env
                      (emit (EvPerformScaleDown (intSub (workerCount env) maxSize)))
                      fuel)) s.
Proof.
  intros Hmin Hmax Hge Hgt. unfold enforceBounds. cbv zeta.
  fold (workers env). fold (workerCount env).
  rewrite Hmin, bind_lift_Done.
  destruct (Z.ltb_spec (workerCount env) minSize) as [Hlt | _]; [lia |].
  rewrite Hmax, bind_lift_Done.
  destruct (Z.ltb_spec maxSize (workerCount env)) as [_ | Hle]; [| lia].
  rewrite bind_lift_Done. reflexivity.
Qed.

(** The bounds block does nothing when the count is within the bounds. *)
Lemma enforceBounds_within (fuel : nat) (kubeclient : KubeClient)
    (minSize maxSize : Z) (s : St) :
  GetMinSizeNodeGroup kubeclient = Done minSize ->
  GetMaxSizeNodeGroup kubeclient = Done maxSize ->
  minSize <= workerCount env <= maxSize ->
  enforceBounds env fuel kubeclient (obtainNodeLists env BeforeBounds).1.1 s =
  Continue tt s.
Proof.
  intros Hmin Hmax [Hge Hle]. unfold enforceBounds. cbv zeta.
  fold (workers env). fold (workerCount env).
  rewrite Hmin, bind_lift_Done.
  destruct (Z.ltb_spec (workerCount env) minSize) as [Hlt | _]; [lia |].
  rewrite Hmax, bind_lift_Done.
  destruct (Z.ltb_spec maxSize (workerCount env)) as [Hlt | _]; [lia |].
  reflexivity.
Qed.

Lemma select_last (p : string -> bool) (names : list string) (start : string) :
  fold_left (fun selected name => if p name then name else selected) names start =
  default start (List.find p (rev names)).
Proof.
  induction names as [|name names IH] using rev_ind; [reflexivity |].
  rewrite fold_left_app, rev_app_distr. simpl. rewrite IH.
  destruct (p name); reflexivity.
Qed.

(** The candidate is the last worker name with the suffix, if there is
    one. *)
Lemma selectWorkerNameToRemove_last (candidate : string) :
  List.find (fun name => HasSuffix name (candidateSuffix env)) (rev (workers env)) =
    Some candidate ->
  selectWorkerNameToRemove (workers env) = candidate.
Proof.
  intros H. unfold selectWorkerNameToRemove.
  fold (workerCount env). fold (candidateSuffix env).
  rewrite (select_last (fun name => HasSuffix name (candidateSuffix env))).
  rewrite H. reflexivity.
Qed.

Lemma intSub_exact (a b : Z) : inInt (a - b) = true -> intSub a b = a - b.
Proof. apply wrapInt_id. Qed.

End Bounds.

(** C3: with fewer workers than the minimum, [RunOnce] requests a scale-up
    of [minSize - W] and polls every 30 seconds.  When the provider is
    scaling for [k] polls and then succeeds, this one request and these
    [k + 1] polls are all that happens before the statements after the
    bounds block.  When the provider is scaling for [k] polls and then
    reports an error, the request is issued once more and the polls go on,
    looking for SUCCEEDED only, until it is reported. *)
Theorem RunOnce_scales_up_to_minimum (env : Env) (fuel : nat)
    (a : StaticAutoscaler) (now : Time) (kubeclient : KubeClient)
    (minSize : Z) (k : nat) :
  GetMinSizeNodeGroup kubeclient = Done minSize ->
  workerCount env < minSize ->
  (forall j, (1 <= j <= k)%nat -> env_providerStatus env j = SCALING) ->
  let request := EvPerformScaleUp (minSize - workerCount env) in
  (env_providerStatus env (S k) = SUCCEEDED ->
   (k < fuel)%nat ->
   RunOnce env fuel a now kubeclient =
   finish env kubeclient
     (reconcile env now kubeclient
        (advance (atBounds env a)
                 (request :: times k pollScaling ++ pollOnce) (S k)))) /\
  (env_providerStatus env (S k) = ERROR ->
   forall m,
     (forall j, (1 <= j <= m)%nat -> env_providerStatus env (j + S k) <> SUCCEEDED) ->
     env_providerStatus env (S m + S k) = SUCCEEDED ->
     (k + m + 1 < fuel)%nat ->
     RunOnce env fuel a now kubeclient =
     finish env kubeclient
       (reconcile env now kubeclient
          (advance (atBounds env a)
                   (request :: times k pollScaling ++ pollScaling ++
                    request :: times m pollOnce ++ pollOnce)
                   (S m + S k)))).
Proof.
  intros Hmin Hlt Hscaling request.
  assert (Hscaling' : forall j, (1 <= j <= k)%nat ->
            env_providerStatus env (j + st_clock (atBounds env a)) = SCALING).
  { intros j Hj. simpl. rewrite Nat.add_0_r. auto. }
  split.
  - intros Hdone Hfuel. rewrite RunOnce_at_bounds. f_equal.
    unfold bind at 1.
    rewrite (enforceBounds_below_minimum env fuel kubeclient minSize _ Hmin Hlt).
    rewrite (request_succeeds env _ k fuel); [reflexivity | exact Hscaling' | | exact Hfuel].
    simpl. rewrite Nat.add_0_r. exact Hdone.
  - intros Herror m Hwaiting Hdone Hfuel. rewrite RunOnce_at_bounds. f_equal.
    unfold bind at 1.
    rewrite (enforceBounds_below_minimum env fuel kubeclient minSize _ Hmin Hlt).
    rewrite (request_retried env _ k m fuel);
      [reflexivity | exact Hscaling' | | | | exact Hfuel].
    + simpl. rewrite Nat.add_0_r. exact Herror.
    + intros j Hj. simpl. rewrite Nat.add_0_r. auto.
    + simpl. rewrite Nat.add_0_r. exact Hdone.
Qed.

(** One worker and a minimum of three: the provider is scaling for two
    polls and succeeds at the third; or it is scaling for one poll, fails at
    the second and, after the retry, succeeds at the fourth. *)
Lemma RunOnce_scales_up_to_minimum_witness :
  RunOnce (Examples.cluster ["cluster-worker1"] [] (Examples.provider 0 3)) 5
          (Examples.engine 0 0) (100 * Second)
          (Examples.client [] "3" "5" (fun _ => [])) =
  finish (Examples.cluster ["cluster-worker1"] [] (Examples.provider 0 3))
    (Examples.client [] "3" "5" (fun _ => []))
    (reconcile (Examples.cluster ["cluster-worker1"] [] (Examples.provider 0 3))
       (100 * Second) (Examples.client [] "3" "5" (fun _ => []))
       (advance
          (atBounds (Examples.cluster ["cluster-worker1"] [] (Examples.provider 0 3))
                    (Examples.engine 0 0))
          (EvPerformScaleUp
             (3 - workerCount
                    (Examples.cluster ["cluster-worker1"] [] (Examples.provider 0 3)))
           :: times 2 pollScaling ++ pollOnce) 3)) /\
  RunOnce (Examples.cluster ["cluster-worker1"] [] (Examples.provider 2 4)) 5
          (Examples.engine 0 0) (100 * Second)
          (Examples.client [] "3" "5" (fun _ => [])) =
  finish (Examples.cluster ["cluster-worker1"] [] (Examples.provider 2 4))
    (Examples.client [] "3" "5" (fun _ => []))
    (reconcile (Examples.cluster ["cluster-worker1"] [] (Examples.provider 2 4))
       (100 * Second) (Examples.client [] "3" "5" (fun _ => []))
       (advance
          (atBounds (Examples.cluster ["cluster-worker1"] [] (Examples.provider 2 4))
                    (Examples.engine 0 0))
          (EvPerformScaleUp
             (3 - workerCount
                    (Examples.cluster ["cluster-worker1"] [] (Examples.provider 2 4)))
           :: times 1 pollScaling ++ pollScaling ++
           EvPerformScaleUp
             (3 - workerCount
                    (Examples.cluster ["cluster-worker1"] [] (Examples.provider 2 4)))
           :: times 1 pollOnce ++ pollOnce) 4)).
Proof.
  split.
  - apply (proj1 (RunOnce_scales_up_to_minimum
                    (Examples.cluster ["cluster-worker1"] [] (Examples.provider 0 3))
                    5 (Examples.engine 0 0) (100 * Second)
                    (Examples.client [] "3" "5" (fun _ => [])) 3 2
                    eq_refl eq_refl
                    ltac:(intros [|[|[|j]]] Hj; try lia; reflexivity)));
      [reflexivity | lia].
  - apply (proj2 (RunOnce_scales_up_to_minimum
                    (Examples.cluster ["cluster-worker1"] [] (Examples.provider 2 4))
                    5 (Examples.engine 0 0) (100 * Second)
                    (Examples.client [] "3" "5" (fun _ => [])) 3 1
                    eq_refl eq_refl
                    ltac:(intros [|[|j]] Hj; try lia; reflexivity))
                 eq_refl 1%nat);
      [intros [|[|j]] Hj; try lia; discriminate | reflexivity | lia].
Defined.

(** C2, as the code has it: with at least the minimum and more than the
    maximum of workers, the removal candidate is the last listed worker
    whose name ends with ["worker" + W]; when the removability predicate
    fails on it, [RunOnce] returns at once, with no effect beyond the
    clean-up and with the cooldown timestamps unchanged; when it passes, the
    first effect after the clean-up is the request of a scale-down of
    [W - maxSize] nodes, computed on [int]. *)
Theorem RunOnce_shrinks_to_maximum (env : Env) (fuel : nat)
    (a : StaticAutoscaler) (now : Time) (kubeclient : KubeClient)
    (minSize maxSize : Z) (candidate : string) :
  GetMinSizeNodeGroup kubeclient = Done minSize ->
  GetMaxSizeNodeGroup kubeclient = Done maxSize ->
  minSize <= workerCount env ->
  maxSize < workerCount env ->
  List.find (fun name => HasSuffix name (candidateSuffix env)) (rev (workers env)) =
    Some candidate ->
  (selectWorkerNameToRemove (workers env) = candidate /\
   In candidate (workers env) /\
   exists p, candidate = p +:+ "worker" +:+ Itoa (workerCount env)) /\
  (checkWorkerNodeCanBeRemove kubeclient candidate = Done false ->
   res_outcome (RunOnce env fuel a now kubeclient) = Finished None /\
   res_trace (RunOnce env fuel a now kubeclient) = cleanUpEffects env a /\
   sameTimestamps a (res_self (RunOnce env fuel a now kubeclient))) /\
  (checkWorkerNodeCanBeRemove kubeclient candidate = Done true ->
   exists rest,
     res_trace (RunOnce env fuel a now kubeclient) =
     cleanUpEffects env a ++
     EvPerformScaleDown (intSub (workerCount env) maxSize) :: rest) /\
  (0 <= maxSize -> workerCount env <= maxInt ->
   intSub (workerCount env) maxSize = workerCount env - maxSize).
Proof.
  intros Hmin Hmax Hge Hgt Hfind.
  pose proof (selectWorkerNameToRemove_last env candidate Hfind) as Hsel.
  assert (Hrun : RunOnce env fuel a now kubeclient =
    finish env kubeclient
      (bind (bind (lift (checkWorkerNodeCanBeRemove kubeclient candidate))
               (fun canBeRemove =>
                  if negb canBeRemove then returns None
                  else
                    bind (emit (EvPerformScaleDown (intSub (workerCount env) maxSize)))
                      (fun _ =>
                         pollStatus env
                           (emit (EvPerformScaleDown
                                    (intSub (workerCount env) maxSize))) fuel)))
            (fun _ => reconcile env now kubeclient) (atBounds env a))).
  { rewrite RunOnce_at_bounds. f_equal. unfold bind at 1 3.
    rewrite (enforceBounds_above_maximum env fuel kubeclient minSize maxSize _
               Hmin Hmax Hge Hgt), Hsel. reflexivity. }
  split; [| split; [| split]].
  - split; [exact Hsel |]. apply find_some in Hfind. destruct Hfind as [Hin Hsuffix].
    split; [apply in_rev; exact Hin |]. apply HasSuffix_spec in Hsuffix. exact Hsuffix.
  - intros Hcheck. rewrite Hrun, Hcheck. simpl.
    split; [reflexivity |]. split; [reflexivity |].
    unfold started. destruct (initialized a); repeat split.
  - intros Hcheck. rewrite Hrun, Hcheck.
    set (request := EvPerformScaleDown (intSub (workerCount env) maxSize)).
    set (rest := bind (pollStatus env (emit request) fuel)
                      (fun _ => reconcile env now kubeclient)).
    assert (Hrest : keeps (evolves (fun _ _ => True) (fun _ => True)) rest).
    { apply keeps_bind; [apply keeps_pollStatus, keeps_emit; exact I |].
      intros _. apply keeps_reconcile; auto. }
    specialize (Hrest (advance (atBounds env a) [request] 0)).
    destruct Hrest as [_ [t1 [Ht1 _]]].
    destruct (finish_evolves (T := fun _ _ => True) (Q := fun _ => True) env
                kubeclient (rest (advance (atBounds env a) [request] 0)))
      as [_ [t2 [Ht2 _]]].
    exists (t1 ++ t2).
    replace (bind (bind (lift (Done true)) _) _ (atBounds env a))
      with (rest (advance (atBounds env a) [request] 0)).
    + rewrite Ht2, Ht1. simpl. rewrite <- !app_assoc. reflexivity.
    + unfold rest, bind, lift, emit, emits, advance. simpl. reflexivity.
  - intros Hnonneg Hle. apply intSub_exact.
    unfold inInt, minInt, maxInt in *. rewrite andb_true_iff, !Z.leb_le. lia.
Qed.

(** Scenario 2: bounds 1 and 2, three workers, [web] with its single
    replica on worker 3.  The candidate is worker 3, the predicate fails and
    the call returns without any effect. *)
Lemma RunOnce_shrinks_to_maximum_witness :
  res_outcome
    (RunOnce (Examples.cluster Examples.threeWorkers [] (Examples.provider 0 1)) 5
             (Examples.engine 0 0) (100 * Second)
             (Examples.client [Examples.web] "1" "2" (fun _ => []))) =
    Finished None /\
  res_trace
    (RunOnce (Examples.cluster Examples.threeWorkers [] (Examples.provider 0 1)) 5
             (Examples.engine 0 0) (100 * Second)
             (Examples.client [Examples.web] "1" "2" (fun _ => []))) =
    cleanUpEffects (Examples.cluster Examples.threeWorkers [] (Examples.provider 0 1))
                   (Examples.engine 0 0) /\
  sameTimestamps (Examples.engine 0 0)
    (res_self
       (RunOnce (Examples.cluster Examples.threeWorkers [] (Examples.provider 0 1)) 5
                (Examples.engine 0 0) (100 * Second)
                (Examples.client [Examples.web] "1" "2" (fun _ => [])))).
Proof.
  apply (proj1 (proj2
    (RunOnce_shrinks_to_maximum
       (Examples.cluster Examples.threeWorkers [] (Examples.provider 0 1)) 5
       (Examples.engine 0 0) (100 * Second)
       (Examples.client [Examples.web] "1" "2" (fun _ => []))
       1 2 "cluster-worker3" eq_refl eq_refl
       ltac:(vm_compute; discriminate) ltac:(vm_compute; reflexivity) eq_refl))).
  reflexivity.
Defined.

(** C2 as stated fails in two ways.  With the bounds 5 and 2 and three
    workers, the count exceeds the maximum and [RunOnce] scales up by two:
    the scale-up branch is tested first.  With the workers 1, 2 and 4, no
    name ends with ["worker3"]: the candidate is the empty name, which is
    not a worker, and the scale-down is requested all the same. *)
Lemma RunOnce_shrink_candidate_missing :
  (GetMaxSizeNodeGroup (Examples.client [] "5" "2" (fun _ => [])) = Done 2 /\
   workerCount (Examples.cluster Examples.threeWorkers [] (Examples.provider 0 1)) = 3 /\
   res_trace
     (RunOnce (Examples.cluster Examples.threeWorkers [] (Examples.provider 0 1)) 5
              (Examples.engine 0 0) (100 * Second)
              (Examples.client [] "5" "2" (fun _ => []))) =
   [EvPerformScaleUp 2; EvSleep (30 * Second); EvCheckStatusCluster;
    EvUpdateUnneededNodes; EvWriteStatusConfigMap;
    EvScaleDownStatusProcessor ScaleDownInCooldown;
    EvAutoscalingStatusProcessor]) /\
  (GetMaxSizeNodeGroup (Examples.client [] "1" "2" (fun _ => [])) = Done 2 /\
   workers (Examples.cluster Examples.renumbered [] (Examples.provider 0 1)) =
     ["cluster-worker1"; "cluster-worker2"; "cluster-worker4"] /\
   candidateSuffix (Examples.cluster Examples.renumbered [] (Examples.provider 0 1)) =
     "worker3" /\
   selectWorkerNameToRemove
     (workers (Examples.cluster Examples.renumbered [] (Examples.provider 0 1))) = "" /\
   res_trace
     (RunOnce (Examples.cluster Examples.renumbered [] (Examples.provider 0 1)) 5
              (Examples.engine 0 0) (100 * Second)
              (Examples.client [] "1" "2" (fun _ => []))) =
   [EvPerformScaleDown 1; EvSleep (30 * Second); EvCheckStatusCluster;
    EvUpdateUnneededNodes; EvWriteStatusConfigMap;
    EvScaleDownStatusProcessor ScaleDownInCooldown;
    EvAutoscalingStatusProcessor]).
Proof. repeat split; vm_compute; reflexivity. Qed.

(** ** The cooldown timestamps *)

(** C6, as the code has it: whatever the way [RunOnce] ends and whatever
    the time it is called with, each cooldown timestamp is afterwards its
    value before the call or [now]; hence, when [now] is not before the
    timestamps, none of them decreases. *)
Theorem RunOnce_timestamps_monotone (env : Env) (fuel : nat)
    (a : StaticAutoscaler) (now : Time) (kubeclient : KubeClient) :
  stampedAt now a (res_self (RunOnce env fuel a now kubeclient)) /\
  (lastScaleUpTime a <= now ->
   lastScaleDownDeleteTime a <= now ->
   lastScaleDownFailTime a <= now ->
   lastScaleUpTime a <=
     lastScaleUpTime (res_self (RunOnce env fuel a now kubeclient)) /\
   lastScaleDownDeleteTime a <=
     lastScaleDownDeleteTime (res_self (RunOnce env fuel a now kubeclient)) /\
   lastScaleDownFailTime a <=
     lastScaleDownFailTime (res_self (RunOnce env fuel a now kubeclient))).
Proof.
  assert (H : stampedAt now a (res_self (RunOnce env fuel a now kubeclient))).
  { apply (RunOnce_evolves (T := stampedAt now) (Q := fun _ => True));
      [exact (fun _ => I) | | |]; intros a0; unfold stampedAt; simpl; auto. }
  split; [exact H |]. intros Hup Hdelete Hfail.
  destruct H as [[-> | ->] [[-> | ->] [-> | ->]]]; lia.
Qed.

(** A pending pod of three seconds at the time 100 s, on an engine stamped
    at the time 0: the scale-up succeeds, [lastScaleUpTime] becomes 100 s and
    the two other timestamps stay. *)
Lemma RunOnce_timestamps_monotone_witness :
  lastScaleUpTime
    (res_self
       (RunOnce (Examples.cluster Examples.threeWorkers
                   [Examples.pending (97 * Second)] (Examples.provider 0 1)) 5
                (Examples.engine 0 0) (100 * Second)
                (Examples.client [] "1" "5" (fun _ => [])))) = 100 * Second /\
  lastScaleUpTime (Examples.engine 0 0) <=
  lastScaleUpTime
    (res_self
       (RunOnce (Examples.cluster Examples.threeWorkers
                   [Examples.pending (97 * Second)] (Examples.provider 0 1)) 5
                (Examples.engine 0 0) (100 * Second)
                (Examples.client [] "1" "5" (fun _ => [])))).
Proof.
  split; [vm_compute; reflexivity |].
  destruct (RunOnce_timestamps_monotone
              (Examples.cluster Examples.threeWorkers
                 [Examples.pending (97 * Second)] (Examples.provider 0 1)) 5
              (Examples.engine 0 0) (100 * Second)
              (Examples.client [] "1" "5" (fun _ => []))) as [_ Hmonotone].
  apply Hmonotone; vm_compute; discriminate.
Defined.

(** C6 as stated fails: [RunOnce] called with a time before
    [lastScaleUpTime] moves this timestamp back when the scale-up
    succeeds; the timestamp is then [now], as the theorem says. *)
Lemma RunOnce_timestamp_moves_back :
  lastScaleUpTime (Examples.engine 0 (200 * Second)) = 200 * Second /\
  lastScaleUpTime
    (res_self
       (RunOnce (Examples.cluster Examples.threeWorkers
                   [Examples.pending (97 * Second)] (Examples.provider 0 1)) 5
                (Examples.engine 0 (200 * Second)) (100 * Second)
                (Examples.client [] "1" "5" (fun _ => [])))) = 100 * Second.
Proof. split; vm_compute; reflexivity. Qed.

(** ** The steady state *)

Ltac evolves_quiet :=
  split;
  [ repeat split
  | first
      [ exists []; split; [symmetry; apply app_nil_r | constructor]
      | eexists; split;
        [ rewrite <- ?app_assoc; reflexivity
        | repeat constructor; try discriminate; intros _; reflexivity ] ] ].

Section SteadyState.

Variable env : Env.
Variable now : Time.
Variable kubeclient : KubeClient.

Hypothesis no_unschedulable : env_UnschedulablePodLister env = Some [].
Hypothesis no_added_pods : env_PodListProcessor env [] = [].
Hypothesis no_unneeded :
  forall destinations candidates,
    (env_UpdateUnneededNodes env destinations candidates now).2 = [].

Lemma SoftTaintUnneededNodes_nil (a : StaticAutoscaler) (allNodes : list Node) :
  unneededNodes a = [] -> SoftTaintUnneededNodes a allNodes = [].
Proof.
  intros H. unfold SoftTaintUnneededNodes. rewrite H.
  replace (List.filter _ allNodes) with (@nil Node);
    [destruct (Z.to_nat _); reflexivity |].
  induction allNodes as [|node allNodes IH]; [reflexivity |].
  cbn [List.filter]. rewrite bool_decide_eq_false_2; [exact IH | apply not_elem_of_nil].
Qed.

Lemma decideScaleUp_nil (readyNodes : list Node) :
  decideScaleUp env now kubeclient readyNodes [] =
  modifyLocals (set_scaleUpResult ScaleUpNotNeeded).
Proof. reflexivity. Qed.

Lemma keeps_decideScaleDown_quiet (allNodes : list Node) :
  keeps (evolves sameTimestamps quiet) (decideScaleDown env now kubeclient allNodes).
Proof.
  intros s.
  unfold decideScaleDown, bind, getSelf, when, orReturn, returns, ret,
    modifyLocals, modifySelf, emit, emits. simpl.
  destruct (ScaleDownEnabled _); simpl; [| evolves_quiet].
  destruct (env_PodDisruptionBudgetLister env); simpl; [| evolves_quiet].
  destruct (scaleDownNodes env kubeclient allNodes) as [err | [candidates destinations]];
    simpl; [evolves_quiet |].
  pose proof (no_unneeded destinations candidates) as Hnil.
  destruct (env_UpdateUnneededNodes env destinations candidates now)
    as [typedErr unneeded]. simpl in Hnil. subst unneeded.
  destruct typedErr; simpl; [evolves_quiet |].
  destruct (scaleDownInCooldown _ now); simpl; [evolves_quiet |].
  destruct (env_IsNonEmptyNodeDeleteInProgress env); simpl; [evolves_quiet |].
  rewrite SoftTaintUnneededNodes_nil by reflexivity.
  destruct (negb _); destruct (env_ScaleDownStatusProcessor env); simpl;
    evolves_quiet.
Qed.

Lemma keeps_reconcile_quiet :
  keeps (evolves sameTimestamps quiet) (reconcile env now kubeclient).
Proof.
  unfold reconcile. rewrite no_unschedulable.
  destruct (obtainNodeLists env AfterBounds) as [[allNodes readyNodes] typedErr].
  repeat first
    [ rewrite no_added_pods
    | apply keeps_decideScaleDown_quiet
    | progress cbn beta iota zeta delta
        [FilterOutExpendableAndSplit FilterOutExpendablePods List.filter
         addNominatedPods filterOutYoungPods fold_left decideScaleUp
         Nat.eqb length]
    | keeps_step ];
    passive_effect.
Qed.

End SteadyState.

(** C9: with a worker count within the bounds, no unschedulable workload
    and no unneeded node, [RunOnce] leaves the three cooldown timestamps as
    they are and, after the first-invocation clean-up, issues no provider
    request and no taint operation: the only effect that changes the cluster
    is the status write. *)
Theorem RunOnce_steady_state (env : Env) (fuel : nat) (a : StaticAutoscaler)
    (now : Time) (kubeclient : KubeClient) (minSize maxSize : Z) :
  GetMinSizeNodeGroup kubeclient = Done minSize ->
  GetMaxSizeNodeGroup kubeclient = Done maxSize ->
  minSize <= workerCount env <= maxSize ->
  env_UnschedulablePodLister env = Some [] ->
  env_PodListProcessor env [] = [] ->
  (forall destinations candidates,
     (env_UpdateUnneededNodes env destinations candidates now).2 = []) ->
  sameTimestamps a (res_self (RunOnce env fuel a now kubeclient)) /\
  exists effects,
    res_trace (RunOnce env fuel a now kubeclient) = cleanUpEffects env a ++ effects /\
    Forall quiet effects.
Proof.
  intros Hmin Hmax Hwithin Hpods Hadded Hunneeded.
  assert (Hrun : RunOnce env fuel a now kubeclient =
                 finish env kubeclient (reconcile env now kubeclient (atBounds env a))).
  { rewrite RunOnce_at_bounds. unfold bind at 1.
    rewrite (enforceBounds_within env fuel kubeclient minSize maxSize _
               Hmin Hmax Hwithin). reflexivity. }
  rewrite Hrun.
  destruct (keeps_reconcile_quiet env now kubeclient Hpods Hadded Hunneeded
              (atBounds env a)) as [HT1 [t1 [Ht1 Hq1]]].
  destruct (finish_evolves (T := sameTimestamps) (Q := quiet) env kubeclient
              (reconcile env now kubeclient (atBounds env a)))
    as [HT2 [t2 [Ht2 Hq2]]].
  split.
  - apply (frame_trans (T := sameTimestamps) (Q := quiet) _ _ _
             (frame_trans (T := sameTimestamps) (Q := quiet) a (started a) _
                ltac:(unfold started; destruct (initialized a); repeat split) HT1)
             HT2).
  - exists (t1 ++ t2). rewrite Ht2, Ht1. simpl. rewrite <- app_assoc.
    split; [reflexivity | apply Forall_app; auto].
Qed.

(** Three workers within the bounds 1 and 5, nothing pending, nothing
    unneeded. *)
Lemma RunOnce_steady_state_witness :
  sameTimestamps (Examples.engine 0 0)
    (res_self
       (RunOnce (Examples.cluster Examples.threeWorkers [] (Examples.provider 0 1)) 5
                (Examples.engine 0 0) (1000 * Second)
                (Examples.client [] "1" "5" (fun _ => [])))) /\
  exists effects,
    res_trace
      (RunOnce (Examples.cluster Examples.threeWorkers [] (Examples.provider 0 1)) 5
               (Examples.engine 0 0) (1000 * Second)
               (Examples.client [] "1" "5" (fun _ => []))) =
    cleanUpEffects (Examples.cluster Examples.threeWorkers [] (Examples.provider 0 1))
                   (Examples.engine 0 0) ++ effects /\
    Forall quiet effects.
Proof.
  apply (RunOnce_steady_state
           (Examples.cluster Examples.threeWorkers [] (Examples.provider 0 1)) 5
           (Examples.engine 0 0) (1000 * Second)
           (Examples.client [] "1" "5" (fun _ => [])) 1 5);
    try reflexivity.
  split; vm_compute; discriminate.
Defined.

(** The steady state run at the time 1000 s, outside every cooldown: the
    scale-down planner is consulted and finds nothing. *)
Example steady_run_trace :
  res_trace
    (RunOnce (Examples.cluster Examples.threeWorkers [] (Examples.provider 0 1)) 5
             (Examples.engine 0 0) (1000 * Second)
             (Examples.client [] "1" "5" (fun _ => []))) =
  [EvUpdateUnneededNodes; EvTryToScaleDown;
   EvScaleDownStatusProcessor ScaleDownNoUnneeded; EvWriteStatusConfigMap;
   EvAutoscalingStatusProcessor].
Proof. vm_compute. reflexivity. Qed.

(** ** From [RunOnce] to its two decisions *)

Section Decisions.

Variable env : Env.
Variable now : Time.
Variable kubeclient : KubeClient.

(** The deferred closure leaves the two statuses as the body left them. *)
Lemma deferredStatus_locals (s : St) :
  st_locals (final (deferredStatus env kubeclient s)) = st_locals s.
Proof.
  unfold deferredStatus, callProcess, bind, getSelf, getLocals, when, emit, emits,
    ret, lift.
  destruct (WriteStatusConfigMap _); simpl;
    destruct (negb (scaleUpStatusProcessorAlreadyCalled (st_locals s)) &&
              env_ScaleUpStatusProcessor env); simpl;
    try (destruct (Process (scaleUpStatus (st_locals s)) kubeclient) as [events [[]| |]];
         simpl);
    try reflexivity;
    destruct (negb (scaleDownStatusProcessorAlreadyCalled (st_locals s)) &&
              env_ScaleDownStatusProcessor env); reflexivity.
Qed.

Lemma finish_statuses (r : Step unit) :
  res_scaleUpStatus (finish env kubeclient r) = scaleUpStatus (st_locals (final r)) /\
  res_scaleDownStatus (finish env kubeclient r) =
    scaleDownStatus (st_locals (final r)).
Proof.
  assert (H : forall o s,
    res_scaleUpStatus (runDeferred env kubeclient o s) = scaleUpStatus (st_locals s) /\
    res_scaleDownStatus (runDeferred env kubeclient o s) =
      scaleDownStatus (st_locals s)).
  { intros o s. unfold runDeferred.
    destruct (statusDeferred (st_locals s)); [| split; reflexivity].
    pose proof (deferredStatus_locals s) as Hl.
    destruct (deferredStatus env kubeclient s); simpl in *; rewrite <- Hl;
      split; reflexivity. }
  destruct r; simpl; try apply H; split; reflexivity.
Qed.

(** The scale-down part does not touch the scale-up status. *)
Lemma decideScaleDown_scaleUpStatus (allNodes : list Node) (s : St) :
  scaleUpStatus (st_locals (final (decideScaleDown env now kubeclient allNodes s))) =
  scaleUpStatus (st_locals s).
Proof.
  unfold decideScaleDown, bind, getSelf, when, orReturn, returns, ret,
    modifyLocals, modifySelf, emit, emits. simpl.
  destruct (ScaleDownEnabled _); simpl; [| reflexivity].
  destruct (env_PodDisruptionBudgetLister env); simpl; [| reflexivity].
  destruct (scaleDownNodes env kubeclient allNodes) as [err | [candidates destinations]];
    simpl; [reflexivity |].
  destruct (env_UpdateUnneededNodes env destinations candidates now)
    as [[typedErr|] unneeded]; simpl; [reflexivity |].
  destruct (scaleDownInCooldown _ now); simpl; [reflexivity |].
  destruct (env_IsNonEmptyNodeDeleteInProgress env); simpl; [reflexivity |].
  destruct (TryToScaleDown env _ now) as [[result typedErr] effects]. simpl.
  destruct (match result with ScaleDownNodeDeleteStarted => true | _ => false end);
    destruct (_ && negb _); destruct (env_ScaleDownStatusProcessor env);
    destruct typedErr; reflexivity.
Qed.

(** The conditions under which [reconcile] gets to the scale-up decision:
    the listings succeed, the loop is not aborted, the snapshot is built and
    the cluster is healthy. *)
Lemma reconcile_reaches_decisions (s : St) (allNodes readyNodes : list Node)
    (scheduled pending : list Pod) (daemonsets : list string)
    (err : option AutoscalerError)
    (snapshot snapshot' : gmap string (Node * list Pod)) :
  let cutoff := ExpendablePodsPriorityCutoff (AutoscalingContext (st_self s)) in
  let split := FilterOutExpendableAndSplit pending allNodes cutoff in
  obtainNodeLists env AfterBounds = (allNodes, readyNodes, None) ->
  env_ScheduledPodLister env = Some scheduled ->
  env_ShouldAbort env allNodes readyNodes now = (false, err) ->
  env_DaemonSetLister env = Some daemonsets ->
  initializeClusterSnapshot allNodes (FilterOutExpendablePods scheduled cutoff) =
    (None, snapshot) ->
  env_IsClusterHealthy env = true ->
  env_UnschedulablePodLister env = Some pending ->
  addNominatedPods split.2 snapshot = (None, snapshot') ->
  reconcile env now kubeclient s =
  bind (decideScaleUp env now kubeclient readyNodes
          (filterOutYoungPods (st_self s) (env_PodListProcessor env split.1) now))
       (fun _ => bind (decideScaleDown env now kubeclient allNodes)
                      (fun _ => returns None))
       (withLocals (fun _ => set_statusDeferred true initialLocals)
          (withSelf (with_ClusterSnapshot snapshot') s)).
Proof.
  intros cutoff split Hnodes Hscheduled Habort Hdaemonsets Hsnapshot Hhealthy
    Hpending Hnominated.
  unfold reconcile. rewrite Hnodes, Hscheduled, Habort, Hdaemonsets, Hhealthy, Hpending.
  unfold orReturn, when, negb.
  unfold bind at 1. unfold ret at 1.
  unfold bind at 1. unfold ret at 1.
  unfold bind at 1. unfold ret at 1.
  unfold bind at 1. unfold ret at 1.
  unfold bind at 1. unfold getSelf at 1.
  fold cutoff. rewrite Hsnapshot.
  unfold bind at 1. unfold modifySelf at 1.
  unfold bind at 1. unfold ret at 1.
  unfold bind at 1. unfold modifyLocals at 1.
  unfold bind at 1. unfold modifyLocals at 1.
  unfold bind at 1. unfold ret at 1.
  unfold bind at 1. unfold ret at 1.
  cbn [st_self AutoscalingContext with_ClusterSnapshot].
  fold cutoff. fold split. destruct split as [toHelp waiting] eqn:Hsplit.
  unfold bind at 1. unfold getSelf at 1.
  cbn [st_self ClusterSnapshot with_ClusterSnapshot snd] in *.
  rewrite Hnominated.
  unfold bind at 1. unfold modifySelf at 1.
  unfold bind at 1. unfold ret at 1.
  unfold bind at 1. unfold getSelf at 1.
  reflexivity.
Qed.

Lemma final_bind_returns {A} (m : M A) (err : option AutoscalerError) (s : St) :
  final (bind m (fun _ => @returns unit err) s) = final (m s).
Proof. unfold bind. destruct (m s); reflexivity. Qed.

(** With scale-down disabled for the iteration, the scale-down part only
    updates the unneeded nodes. *)
Lemma decideScaleDown_disabled (allNodes : list Node) (s : St) :
  disableScaleDownForLoop (st_self s) = true ->
  exists effects,
    st_trace (final (decideScaleDown env now kubeclient allNodes s)) =
      st_trace s ++ effects /\
    Forall (fun e => passive e = true) effects.
Proof.
  intros Hdisabled.
  unfold decideScaleDown, bind, getSelf, when, orReturn, returns, ret,
    modifyLocals, modifySelf, emit, emits. simpl.
  destruct (ScaleDownEnabled _); simpl;
    [| exists []; split; [symmetry; apply app_nil_r | constructor]].
  destruct (env_PodDisruptionBudgetLister env); simpl;
    [| exists []; split; [symmetry; apply app_nil_r | constructor]].
  destruct (scaleDownNodes env kubeclient allNodes) as [err | [candidates destinations]];
    simpl; [exists []; split; [symmetry; apply app_nil_r | constructor] |].
  destruct (env_UpdateUnneededNodes env destinations candidates now)
    as [[typedErr|] unneeded]; simpl;
    [exists [EvUpdateUnneededNodes]; split; [reflexivity | repeat constructor] |].
  unfold scaleDownInCooldown. simpl. rewrite Hdisabled. simpl.
  exists [EvUpdateUnneededNodes]. split; [reflexivity | repeat constructor].
Qed.

(** The conditions under which [RunOnce] gets to its decisions with a worker
    count within the bounds. *)
Lemma RunOnce_reaches_decisions (fuel : nat) (a : StaticAutoscaler)
    (minSize maxSize : Z) (allNodes readyNodes : list Node)
    (scheduled pending : list Pod) (daemonsets : list string)
    (err : option AutoscalerError)
    (snapshot snapshot' : gmap string (Node * list Pod)) :
  let cutoff := ExpendablePodsPriorityCutoff (AutoscalingContext a) in
  let split := FilterOutExpendableAndSplit pending allNodes cutoff in
  GetMinSizeNodeGroup kubeclient = Done minSize ->
  GetMaxSizeNodeGroup kubeclient = Done maxSize ->
  minSize <= workerCount env <= maxSize ->
  obtainNodeLists env AfterBounds = (allNodes, readyNodes, None) ->
  env_ScheduledPodLister env = Some scheduled ->
  env_ShouldAbort env allNodes readyNodes now = (false, err) ->
  env_DaemonSetLister env = Some daemonsets ->
  initializeClusterSnapshot allNodes (FilterOutExpendablePods scheduled cutoff) =
    (None, snapshot) ->
  env_IsClusterHealthy env = true ->
  env_UnschedulablePodLister env = Some pending ->
  addNominatedPods split.2 snapshot = (None, snapshot') ->
  RunOnce env fuel a now kubeclient =
  fromScaleUp env now kubeclient readyNodes allNodes
    (filterOutYoungPods a (env_PodListProcessor env split.1) now)
    (withLocals (fun _ => set_statusDeferred true initialLocals)
       (withSelf (with_ClusterSnapshot snapshot') (atBounds env a))).
Proof.
  intros cutoff split Hmin Hmax Hwithin Hnodes Hscheduled Habort Hdaemonsets
    Hsnapshot Hhealthy Hpending Hnominated.
  rewrite RunOnce_at_bounds. unfold fromScaleUp. f_equal. unfold bind at 1.
  rewrite (enforceBounds_within env fuel kubeclient minSize maxSize _
             Hmin Hmax Hwithin).
  assert (Hoptions : AutoscalingContext (st_self (atBounds env a)) =
                     AutoscalingContext a).
  { unfold atBounds, started. destruct (initialized a); reflexivity. }
  rewrite (reconcile_reaches_decisions (atBounds env a) allNodes readyNodes
             scheduled pending daemonsets err snapshot snapshot');
    rewrite ?Hoptions; auto.
  unfold filterOutYoungPods. rewrite Hoptions. reflexivity.
Qed.

End Decisions.
(** ** The age filter and the scale-up decision *)

Section AgeFilter.

Variable env : Env.
Variable now : Time.
Variable kubeclient : KubeClient.

Lemma keepOld_fold (delay : Duration) (pods old : list Pod) :
  fold_left
    (fun oldUnschedulablePods pod =>
       if delay <? Time_Sub now (pod_CreationTimestamp pod)
       then oldUnschedulablePods ++ [pod]
       else oldUnschedulablePods)
    pods old =
  old ++ List.filter (fun pod => delay <? Time_Sub now (pod_CreationTimestamp pod))
                     pods.
Proof.
  revert old. induction pods as [|pod pods IH]; intros old; simpl;
    [rewrite app_nil_r; reflexivity |].
  rewrite IH. destruct (_ <? _); [rewrite <- app_assoc |]; reflexivity.
Qed.

Lemma filterOutYoungPods_filter (a : StaticAutoscaler) (pods : list Pod) :
  filterOutYoungPods a pods now =
  List.filter
    (fun pod => NewPodScaleUpDelay (AutoscalingContext a) <?
                Time_Sub now (pod_CreationTimestamp pod))
    pods.
Proof. unfold filterOutYoungPods. cbv zeta. apply keepOld_fold. Qed.

Lemma GetOldestCreateTime_le (pods : list Pod) (pod : Pod) :
  In pod pods -> GetOldestCreateTime pods <= pod_CreationTimestamp pod.
Proof.
  destruct pods as [|first pods]; [intros [] |]. simpl.
  assert (H : forall start,
    fold_left (fun oldest p => Z.min oldest (pod_CreationTimestamp p)) pods start
      <= start /\
    forall p, In p pods ->
      fold_left (fun oldest p => Z.min oldest (pod_CreationTimestamp p)) pods start
        <= pod_CreationTimestamp p).
  { induction pods as [|q pods IH]; intros start; simpl; [split; [lia | tauto] |].
    destruct (IH (Z.min start (pod_CreationTimestamp q))) as [H1 H2].
    split; [lia |]. intros p [<- | Hin]; [lia | auto]. }
  destruct (H (pod_CreationTimestamp first)) as [H1 H2].
  intros [<- | Hin]; auto.
Qed.

Lemma GetOldestCreateTime_In (pods : list Pod) :
  pods <> [] ->
  exists pod, In pod pods /\ GetOldestCreateTime pods = pod_CreationTimestamp pod.
Proof.
  destruct pods as [|first pods]; [congruence | intros _]. simpl.
  revert first. induction pods as [|q pods IH]; intros first; simpl; [eauto |].
  destruct (Z.min_spec (pod_CreationTimestamp first) (pod_CreationTimestamp q))
    as [[_ ->] | [_ ->]].
  - destruct (IH first) as [p [[<- | Hin] Hp]]; eauto.
  - destruct (IH q) as [p [[<- | Hin] Hp]]; eauto.
Qed.

(** The oldest creation time decides whether all the pods are new. *)
Lemma allPodsAreNew_spec (pods : list Pod) :
  pods <> [] ->
  allPodsAreNew pods now = true <->
  forall pod, In pod pods ->
    Time_Sub now (pod_CreationTimestamp pod) < unschedulablePodTimeBuffer.
Proof.
  intros Hne. unfold allPodsAreNew, Time_After, Time_Add, Time_Sub.
  destruct (Z.ltb_spec now (GetOldestCreateTime pods + unschedulablePodTimeBuffer))
    as [Hlt | Hge].
  - split; [intros _ pod Hin | reflexivity].
    pose proof (GetOldestCreateTime_le pods pod Hin). lia.
  - split; [discriminate | intros Hall].
    destruct (GetOldestCreateTime_In pods Hne) as [pod [Hin Heq]].
    specialize (Hall pod Hin). lia.
Qed.

End AgeFilter.

(** C4, as the code has it: the age filter keeps the workloads older than
    [NewPodScaleUpDelay].  If none remains the scale-up outcome is
    not-needed.  If some remain and all are younger than the two-second
    buffer, scale-down is disabled for the iteration, the outcome is
    in-cooldown and the call ends without a planner call or a provider
    request; if one of them is at least two seconds old the scale-up planner
    is called on those that remain.  In particular, for a single workload
    that passes the age filter: aged 1 s it triggers nothing, aged 3 s it is
    handed to the planner. *)
Theorem scaleUp_age_filter (env : Env) (now : Time) (kubeclient : KubeClient)
    (readyNodes allNodes : list Node) (pods : list Pod) (s : St) :
  let delay := NewPodScaleUpDelay (AutoscalingContext (st_self s)) in
  let age := fun pod => Time_Sub now (pod_CreationTimestamp pod) in
  let remaining := filterOutYoungPods (st_self s) pods now in
  let decision := decideScaleUp env now kubeclient readyNodes remaining s in
  let run := fromScaleUp env now kubeclient readyNodes allNodes remaining s in
  let waits :=
    decision =
      Continue tt
        (withSelf (with_disableScaleDownForLoop true)
                  (withLocals (set_scaleUpResult ScaleUpInCooldown) s)) /\
    sus_Result (res_scaleUpStatus run) = ScaleUpInCooldown /\
    exists effects,
      res_trace run = st_trace s ++ effects /\
      Forall (fun e => passive e = true) effects in
  unschedulablePodTimeBuffer = 2 * Second /\
  (forall pod, In pod remaining <-> In pod pods /\ delay < age pod) /\
  (remaining = [] ->
   decision = Continue tt (withLocals (set_scaleUpResult ScaleUpNotNeeded) s) /\
   sus_Result (res_scaleUpStatus run) = ScaleUpNotNeeded) /\
  (remaining <> [] ->
   (forall pod, In pod remaining -> age pod < 2 * Second) ->
   waits) /\
  (remaining <> [] ->
   (exists pod, In pod remaining /\ 2 * Second <= age pod) ->
   exists rest,
     st_trace (final decision) = st_trace s ++ EvScaleUp remaining :: rest) /\
  (forall pod, pods = [pod] -> delay < age pod -> age pod = 1 * Second -> waits) /\
  (forall pod, pods = [pod] -> delay < age pod -> age pod = 3 * Second ->
   exists rest,
     st_trace (final decision) = st_trace s ++ EvScaleUp [pod] :: rest).
Proof.
  intros delay age remaining decision run waits.
  assert (Hmem : forall pod, In pod remaining <-> In pod pods /\ delay < age pod).
  { intros pod. unfold remaining. rewrite filterOutYoungPods_filter, filter_In.
    fold delay. unfold age. rewrite Z.ltb_lt. reflexivity. }
  assert (Hstatus : forall s',
    decision = Continue tt s' ->
    res_scaleUpStatus run = scaleUpStatus (st_locals s') /\
    res_trace run =
      res_trace (fromScaleDown env now kubeclient allNodes s')).
  { intros s' Hd.
    assert (Hrun : run = fromScaleDown env now kubeclient allNodes s').
    { unfold run, fromScaleUp, fromScaleDown. f_equal.
      unfold bind at 1. fold decision. rewrite Hd. reflexivity. }
    rewrite Hrun. split; [| reflexivity]. unfold fromScaleDown.
    rewrite (proj1 (finish_statuses env kubeclient _)), final_bind_returns.
    apply decideScaleDown_scaleUpStatus. }
  assert (Hempty : remaining = [] ->
    decision = Continue tt (withLocals (set_scaleUpResult ScaleUpNotNeeded) s) /\
    sus_Result (res_scaleUpStatus run) = ScaleUpNotNeeded).
  { intros H.
    assert (Hd : decision =
              Continue tt (withLocals (set_scaleUpResult ScaleUpNotNeeded) s)).
    { unfold decision. rewrite H. reflexivity. }
    split; [exact Hd |]. rewrite (proj1 (Hstatus _ Hd)). reflexivity. }
  assert (Hnew : remaining <> [] ->
    (forall pod, In pod remaining -> age pod < 2 * Second) -> waits).
  { intros Hne Hall.
    assert (Hd : decision =
      Continue tt
        (withSelf (with_disableScaleDownForLoop true)
                  (withLocals (set_scaleUpResult ScaleUpInCooldown) s))).
    { unfold decision, decideScaleUp.
      destruct remaining as [|pod rest] eqn:E; [congruence |].
      cbn [length Nat.eqb].
      rewrite (proj2 (allPodsAreNew_spec now (pod :: rest) Hne)); [reflexivity |].
      exact Hall. }
    destruct (Hstatus _ Hd) as [Hup Htrace].
    split; [exact Hd |]. split; [rewrite Hup; reflexivity |].
    rewrite Htrace. unfold fromScaleDown.
    destruct (decideScaleDown_disabled env now kubeclient allNodes
                (withSelf (with_disableScaleDownForLoop true)
                          (withLocals (set_scaleUpResult ScaleUpInCooldown) s))
                eq_refl) as [t1 [Ht1 Hp1]].
    destruct (finish_evolves (T := fun _ _ => True) (Q := fun e => passive e = true)
                env kubeclient
                (bind (decideScaleDown env now kubeclient allNodes)
                      (fun _ => returns None)
                      (withSelf (with_disableScaleDownForLoop true)
                         (withLocals (set_scaleUpResult ScaleUpInCooldown) s))))
      as [_ [t2 [Ht2 Hp2]]].
    exists (t1 ++ t2). rewrite Ht2, final_bind_returns, Ht1. simpl.
    rewrite <- app_assoc. split; [reflexivity | apply Forall_app; auto]. }
  assert (Hold : remaining <> [] ->
    (exists pod, In pod remaining /\ 2 * Second <= age pod) ->
    exists rest,
      st_trace (final decision) = st_trace s ++ EvScaleUp remaining :: rest).
  { intros Hne [old [Hin Hage]]. unfold decision, decideScaleUp.
    destruct remaining as [|pod rest] eqn:E; [congruence |].
    cbn [length Nat.eqb].
    destruct (allPodsAreNew (pod :: rest) now) eqn:Hall.
    - pose proof (proj1 (allPodsAreNew_spec now (pod :: rest) Hne) Hall old Hin)
        as Hyoung.
      unfold unschedulablePodTimeBuffer, age in *. lia.
    - match goal with
      | |- context [bind (emit ?e) ?k s] =>
          assert (Hk : keeps (evolves (fun _ _ => True) (fun _ => True)) (k tt))
      end.
      { cbv beta. repeat keeps_step; auto; apply Forall_forall; auto. }
      destruct (Hk (advance s [EvScaleUp (pod :: rest)] 0)) as [_ [t [Ht _]]].
      exists t. unfold bind at 1. rewrite emit_run. rewrite Ht.
      simpl. rewrite <- app_assoc. reflexivity. }
  split; [reflexivity |]. split; [exact Hmem |]. split; [exact Hempty |].
  split; [exact Hnew |]. split; [exact Hold |].
  assert (Hone : forall pod, pods = [pod] -> delay < age pod -> remaining = [pod]).
  { intros pod -> Hdelay. unfold remaining. rewrite filterOutYoungPods_filter.
    simpl. fold delay. fold (age pod).
    destruct (Z.ltb_spec delay (age pod)); [reflexivity | lia]. }
  split.
  - intros pod Hpods Hdelay Hage. pose proof (Hone pod Hpods Hdelay) as Hrem.
    apply Hnew; rewrite Hrem; [discriminate |].
    intros p [<- | []]. unfold Second in *. lia.
  - intros pod Hpods Hdelay Hage. pose proof (Hone pod Hpods Hdelay) as Hrem.
    rewrite <- Hrem. apply Hold; rewrite Hrem; [discriminate |].
    exists pod. split; [left; reflexivity |]. unfold Second in *. lia.
Qed.

(** A single pending workload of three seconds, with no delay for new pods,
    is handed to the scale-up planner. *)
Lemma scaleUp_age_filter_witness :
  exists rest,
    st_trace
      (final
         (decideScaleUp
            (Examples.cluster Examples.threeWorkers
               [Examples.pending (97 * Second)] (Examples.provider 0 1))
            (100 * Second) (Examples.client [] "1" "5" (fun _ => [])) []
            (filterOutYoungPods (Examples.engine 0 0)
               [Examples.pending (97 * Second)] (100 * Second))
            (atBounds
               (Examples.cluster Examples.threeWorkers
                  [Examples.pending (97 * Second)] (Examples.provider 0 1))
               (Examples.engine 0 0)))) =
    [] ++ EvScaleUp [Examples.pending (97 * Second)] :: rest.
Proof.
  apply (proj2 (proj2 (proj2 (proj2 (proj2 (proj2
    (scaleUp_age_filter
       (Examples.cluster Examples.threeWorkers
          [Examples.pending (97 * Second)] (Examples.provider 0 1))
       (100 * Second) (Examples.client [] "1" "5" (fun _ => [])) [] []
       [Examples.pending (97 * Second)]
       (atBounds
          (Examples.cluster Examples.threeWorkers
             [Examples.pending (97 * Second)] (Examples.provider 0 1))
          (Examples.engine 0 0)))))))) (Examples.pending (97 * Second)));
    reflexivity.
Defined.

(** C4 as stated fails: with a delay of five seconds for new pods, a single
    pending workload of three seconds is dropped by the age filter; the
    outcome is not-needed and the scale-up planner is not called. *)
Lemma RunOnce_delay_drops_three_second_pod :
  NewPodScaleUpDelay (AutoscalingContext (Examples.engine (5 * Second) 0)) =
    5 * Second /\
  Time_Sub (100 * Second) (pod_CreationTimestamp (Examples.pending (97 * Second))) =
    3 * Second /\
  sus_Result
    (res_scaleUpStatus
       (RunOnce (Examples.cluster Examples.threeWorkers
                   [Examples.pending (97 * Second)] (Examples.provider 0 1)) 5
                (Examples.engine (5 * Second) 0) (100 * Second)
                (Examples.client [] "1" "5" (fun _ => [])))) = ScaleUpNotNeeded /\
  res_trace
    (RunOnce (Examples.cluster Examples.threeWorkers
                [Examples.pending (97 * Second)] (Examples.provider 0 1)) 5
             (Examples.engine (5 * Second) 0) (100 * Second)
             (Examples.client [] "1" "5" (fun _ => []))) =
  [EvUpdateUnneededNodes; EvWriteStatusConfigMap;
   EvScaleDownStatusProcessor ScaleDownInCooldown; EvAutoscalingStatusProcessor].
Proof. repeat split; vm_compute; reflexivity. Qed.

(** The same workload with no delay for new pods: the planner is called,
    succeeds and [RunOnce] stamps the scale-up. *)
Example RunOnce_three_second_pod :
  sus_Result
    (res_scaleUpStatus
       (RunOnce (Examples.cluster Examples.threeWorkers
                   [Examples.pending (97 * Second)] (Examples.provider 0 1)) 5
                (Examples.engine 0 0) (100 * Second)
                (Examples.client [] "1" "5" (fun _ => [])))) = ScaleUpSuccessful /\
  res_trace
    (RunOnce (Examples.cluster Examples.threeWorkers
                [Examples.pending (97 * Second)] (Examples.provider 0 1)) 5
             (Examples.engine 0 0) (100 * Second)
             (Examples.client [] "1" "5" (fun _ => []))) =
  [EvScaleUp [Examples.pending (97 * Second)]; EvPerformScaleUp 1;
   EvWriteStatusConfigMap; EvScaleDownStatusProcessor ScaleDownInCooldown;
   EvAutoscalingStatusProcessor].
Proof. split; vm_compute; reflexivity. Qed.

(** The workload aged one second, on an engine that is out of every time
    cooldown: no planner is called, scale-up and scale-down are both
    in-cooldown. *)
Example RunOnce_one_second_pod :
  sus_Result
    (res_scaleUpStatus
       (RunOnce (Examples.cluster Examples.threeWorkers
                   [Examples.pending (1099 * Second)] (Examples.provider 0 1)) 5
                (Examples.engine 0 0) (1100 * Second)
                (Examples.client [] "1" "5" (fun _ => [])))) = ScaleUpInCooldown /\
  res_trace
    (RunOnce (Examples.cluster Examples.threeWorkers
                [Examples.pending (1099 * Second)] (Examples.provider 0 1)) 5
             (Examples.engine 0 0) (1100 * Second)
             (Examples.client [] "1" "5" (fun _ => []))) =
  [EvUpdateUnneededNodes; EvWriteStatusConfigMap;
   EvScaleDownStatusProcessor ScaleDownInCooldown; EvAutoscalingStatusProcessor].
Proof. split; vm_compute; reflexivity. Qed.

(** ** The scale-down cooldown *)

(** C5: once the unneeded nodes are updated, the cooldown condition holds
    exactly when scale-down is disabled for the iteration or [now] is before
    the end of one of the three delays.  When it holds the scale-down
    outcome is in-cooldown and the call ends with nothing done beyond the
    update of the unneeded nodes and the status work: the planner is not
    called.  When it does not hold and a deletion is in progress the outcome
    is in-progress, in the same way; otherwise the planner is called. *)
Theorem scaleDown_cooldown (env : Env) (now : Time) (kubeclient : KubeClient)
    (allNodes : list Node) (s : St) (pdbs : list string)
    (candidates destinations : list Node) (unneeded : list string) :
  ScaleDownEnabled (AutoscalingContext (st_self s)) = true ->
  env_PodDisruptionBudgetLister env = Some pdbs ->
  scaleDownNodes env kubeclient allNodes = inr (candidates, destinations) ->
  env_UpdateUnneededNodes env destinations candidates now = (None, unneeded) ->
  let a := with_unneededNodes unneeded (st_self s) in
  let updated := advance (withSelf (with_unneededNodes unneeded) s)
                         [EvUpdateUnneededNodes] 0 in
  let decision := decideScaleDown env now kubeclient allNodes s in
  let run := fromScaleDown env now kubeclient allNodes s in
  let outcome := fun result =>
    decision = Continue tt (withLocals (set_scaleDownResult result) updated) /\
    res_scaleDownStatus run = result /\
    exists effects,
      res_trace run = st_trace s ++ EvUpdateUnneededNodes :: effects /\
      Forall (fun e => passive e = true) effects in
  (scaleDownInCooldown a now = true <->
   disableScaleDownForLoop (st_self s) = true \/
   now < lastScaleUpTime (st_self s) +
         ScaleDownDelayAfterAdd (AutoscalingContext (st_self s)) \/
   now < lastScaleDownFailTime (st_self s) +
         ScaleDownDelayAfterFailure (AutoscalingContext (st_self s)) \/
   now < lastScaleDownDeleteTime (st_self s) +
         ScaleDownDelayAfterDelete (AutoscalingContext (st_self s))) /\
  (scaleDownInCooldown a now = true -> outcome ScaleDownInCooldown) /\
  (scaleDownInCooldown a now = false ->
   env_IsNonEmptyNodeDeleteInProgress env = true ->
   outcome ScaleDownInProgress) /\
  (scaleDownInCooldown a now = false ->
   env_IsNonEmptyNodeDeleteInProgress env = false ->
   exists rest,
     st_trace (final decision) =
     st_trace s ++ EvUpdateUnneededNodes :: EvTryToScaleDown :: rest).
Proof.
  intros Henabled Hpdbs Hnodes Hupdate a updated decision run outcome.
  assert (Hrun : decision =
    (if scaleDownInCooldown a now
     then modifyLocals (set_scaleDownResult ScaleDownInCooldown)
     else if env_IsNonEmptyNodeDeleteInProgress env
     then modifyLocals (set_scaleDownResult ScaleDownInProgress)
     else
       bind (emit EvTryToScaleDown)
         (fun _ =>
            let '(scaleDownStatus, typedErr, effects) := TryToScaleDown env a now in
            bind (emits effects) (fun _ =>
            bind (when (match scaleDownStatus with
                        | ScaleDownNodeDeleteStarted => true
                        | _ => false
                        end)
                       (modifySelf (with_lastScaleDownDeleteTime now))) (fun _ =>
            bind (when (match scaleDownStatus with
                        | ScaleDownNoNodeDeleted | ScaleDownNoUnneeded => true
                        | _ => false
                        end && negb (MaxBulkSoftTaintCount (AutoscalingContext a) =? 0))
                       (emits (SoftTaintUnneededNodes a allNodes))) (fun _ =>
            bind (when (env_ScaleDownStatusProcessor env)
                       (bind (emit (EvScaleDownStatusProcessor scaleDownStatus))
                             (fun _ => modifyLocals
                                (set_scaleDownStatusProcessorAlreadyCalled true))))
                 (fun _ =>
                    match typedErr with
                    | Some e =>
                        bind (modifySelf (with_lastScaleDownFailTime now))
                             (fun _ => returns (Some e))
                    | None => ret tt
                    end)))))) updated).
  { unfold decision, decideScaleDown.
    unfold bind at 1. unfold getSelf. rewrite Henabled. unfold when at 1.
    unfold bind at 1. rewrite Hpdbs. unfold orReturn, ret at 1.
    unfold bind at 1. rewrite Hnodes. unfold ret at 1.
    unfold bind at 1. rewrite emit_run.
    rewrite Hupdate.
    unfold bind at 1. unfold modifySelf at 1.
    unfold bind at 1. unfold ret at 1.
    unfold bind at 1. reflexivity. }
  assert (Hend : forall result,
    decision = Continue tt (withLocals (set_scaleDownResult result) updated) ->
    outcome result).
  { intros result Hd. split; [exact Hd |].
    assert (Hfinish : run =
      finish env kubeclient
        (Returned None (withLocals (set_scaleDownResult result) updated))).
    { unfold run, fromScaleDown. f_equal. unfold bind at 1. fold decision.
      rewrite Hd. reflexivity. }
    rewrite Hfinish. split.
    - rewrite (proj2 (finish_statuses env kubeclient _)). reflexivity.
    - destruct (finish_evolves (T := fun _ _ => True)
                  (Q := fun e => passive e = true) env kubeclient
                  (Returned None (withLocals (set_scaleDownResult result) updated)))
        as [_ [t [Ht Hp]]].
      exists t. rewrite Ht. simpl. rewrite <- app_assoc. split; [reflexivity | exact Hp]. }
  split; [| split; [| split]].
  - unfold scaleDownInCooldown, a, Time_After, Time_Add. simpl.
    rewrite !orb_true_iff, !Z.ltb_lt. tauto.
  - intros Hcool. apply Hend. rewrite Hrun, Hcool. reflexivity.
  - intros Hcool Hprogress. apply Hend. rewrite Hrun, Hcool, Hprogress. reflexivity.
  - intros Hcool Hprogress. rewrite Hrun, Hcool, Hprogress.
    match goal with
    | |- context [bind (emit ?e) ?k updated] =>
        assert (Hk : keeps (evolves (fun _ _ => True) (fun _ => True)) (k tt))
    end.
    { cbv beta. repeat keeps_step; auto; apply Forall_forall; auto. }
    destruct (Hk (advance updated [EvTryToScaleDown] 0)) as [_ [t [Ht _]]].
    exists t. unfold bind at 1. rewrite emit_run. rewrite Ht.
    simpl. rewrite <- !app_assoc. reflexivity.
Qed.

(** At the time 100 s, an engine stamped at the time 0 is within the delay
    of ten minutes after a scale-up: the outcome is in-cooldown and only the
    unneeded nodes are updated. *)
Lemma scaleDown_cooldown_witness :
  decideScaleDown
    (Examples.cluster Examples.threeWorkers [] (Examples.provider 0 1))
    (100 * Second) (Examples.client [] "1" "5" (fun _ => [])) []
    (atBounds (Examples.cluster Examples.threeWorkers [] (Examples.provider 0 1))
              (Examples.engine 0 0)) =
  Continue tt
    (withLocals (set_scaleDownResult ScaleDownInCooldown)
       (advance
          (withSelf (with_unneededNodes [])
             (atBounds
                (Examples.cluster Examples.threeWorkers [] (Examples.provider 0 1))
                (Examples.engine 0 0)))
          [EvUpdateUnneededNodes] 0)) /\
  res_scaleDownStatus
    (fromScaleDown
       (Examples.cluster Examples.threeWorkers [] (Examples.provider 0 1))
       (100 * Second) (Examples.client [] "1" "5" (fun _ => [])) []
       (atBounds (Examples.cluster Examples.threeWorkers [] (Examples.provider 0 1))
                 (Examples.engine 0 0))) = ScaleDownInCooldown /\
  exists effects,
    res_trace
      (fromScaleDown
         (Examples.cluster Examples.threeWorkers [] (Examples.provider 0 1))
         (100 * Second) (Examples.client [] "1" "5" (fun _ => [])) []
         (atBounds (Examples.cluster Examples.threeWorkers [] (Examples.provider 0 1))
                   (Examples.engine 0 0))) =
    [] ++ EvUpdateUnneededNodes :: effects /\
    Forall (fun e => passive e = true) effects.
Proof.
  apply (proj1 (proj2
    (scaleDown_cooldown
       (Examples.cluster Examples.threeWorkers [] (Examples.provider 0 1))
       (100 * Second) (Examples.client [] "1" "5" (fun _ => [])) []
       (atBounds (Examples.cluster Examples.threeWorkers [] (Examples.provider 0 1))
                 (Examples.engine 0 0))
       [] [] [] [] eq_refl eq_refl eq_refl eq_refl))).
  reflexivity.
Defined.

(** The same engine in a whole call: the status processor is given the
    in-cooldown outcome and the planner is not called. *)
Example RunOnce_in_cooldown :
  res_scaleDownStatus
    (RunOnce (Examples.cluster Examples.threeWorkers [] (Examples.provider 0 1)) 5
             (Examples.engine 0 0) (100 * Second)
             (Examples.client [] "1" "5" (fun _ => []))) = ScaleDownInCooldown /\
  res_trace
    (RunOnce (Examples.cluster Examples.threeWorkers [] (Examples.provider 0 1)) 5
             (Examples.engine 0 0) (100 * Second)
             (Examples.client [] "1" "5" (fun _ => []))) =
  [EvUpdateUnneededNodes; EvWriteStatusConfigMap;
   EvScaleDownStatusProcessor ScaleDownInCooldown; EvAutoscalingStatusProcessor].
Proof. split; vm_compute; reflexivity. Qed.


(** ** [core/utils]: [FilterOutNodes] *)

Section FilterNodes.

Lemma found_existsb (node : Node) (nodesToFilterOut : list Node) (found : bool) :
  fold_left
    (fun found nodeToFilter =>
       if String.eqb (node_Name nodeToFilter) (node_Name node) then true else found)
    nodesToFilterOut found =
  found || existsb (fun m => String.eqb (node_Name m) (node_Name node)) nodesToFilterOut.
Proof.
  revert found. induction nodesToFilterOut as [|m out IH]; intros found; simpl.
  - rewrite orb_false_r. reflexivity.
  - rewrite IH. destruct (String.eqb _ _), found; reflexivity.
Qed.

Lemma existsb_namedIn (node : Node) (nodes : list Node) :
  existsb (fun m => String.eqb (node_Name m) (node_Name node)) nodes = true <->
  namedIn nodes (node_Name node).
Proof.
  unfold namedIn. rewrite existsb_exists, in_map_iff.
  split; intros [m [H1 H2]]; exists m.
  - apply String.eqb_eq in H2. auto.
  - split; [exact H2 | apply String.eqb_eq; exact H1].
Qed.

Lemma FilterOutNodes_fold (nodes nodesToFilterOut filtered : list Node) :
  fold_left
    (fun filtered node =>
       let found :=
         fold_left
           (fun found nodeToFilter =>
              if String.eqb (node_Name nodeToFilter) (node_Name node)
              then true
              else found)
           nodesToFilterOut false in
       if negb found then filtered ++ [node] else filtered)
    nodes filtered =
  filtered ++
  List.filter
    (fun node =>
       negb (existsb (fun m => String.eqb (node_Name m) (node_Name node))
                     nodesToFilterOut))
    nodes.
Proof.
  revert filtered. induction nodes as [|node nodes IH]; intros filtered; simpl.
  - rewrite app_nil_r. reflexivity.
  - rewrite IH, found_existsb. simpl.
    destruct (existsb _ nodesToFilterOut); simpl; [reflexivity |].
    rewrite <- app_assoc. reflexivity.
Qed.

Lemma FilterOutNodes_filter (nodes nodesToFilterOut : list Node) :
  FilterOutNodes nodes nodesToFilterOut =
  List.filter
    (fun node =>
       negb (existsb (fun m => String.eqb (node_Name m) (node_Name node))
                     nodesToFilterOut))
    nodes.
Proof. apply FilterOutNodes_fold. Qed.

End FilterNodes.

(** X1: [FilterOutNodes] keeps, in their order, exactly the nodes whose name
    is the name of no node to filter out; with nothing to filter out it
    returns its input, and filtering a list out of itself leaves nothing. *)
Theorem FilterOutNodes_spec (nodes nodesToFilterOut : list Node) :
  (forall node,
     In node (FilterOutNodes nodes nodesToFilterOut) <->
     In node nodes /\ ~ namedIn nodesToFilterOut (node_Name node)) /\
  sublist (FilterOutNodes nodes nodesToFilterOut) nodes /\
  FilterOutNodes nodes [] = nodes /\
  FilterOutNodes nodes nodes = [].
Proof.
  rewrite !FilterOutNodes_filter. split; [| split; [| split]].
  - intros node. rewrite filter_In, negb_true_iff, <- existsb_namedIn.
    destruct (existsb _ _); intuition congruence.
  - induction nodes as [|node nodes IH]; simpl; [constructor |].
    destruct (negb _); [apply sublist_skip | apply sublist_cons]; exact IH.
  - induction nodes as [|node nodes IH]; simpl; [reflexivity |].
    f_equal. exact IH.
  - assert (H : forall all, incl nodes all ->
      List.filter
        (fun node =>
           negb (existsb (fun m => String.eqb (node_Name m) (node_Name node)) all))
        nodes = []); [| apply H, incl_refl].
    intros all. induction nodes as [|node nodes IH]; intros Hincl; simpl;
      [reflexivity |].
    assert (Hn : namedIn all (node_Name node)).
    { apply in_map, Hincl. left. reflexivity. }
    apply existsb_namedIn in Hn. rewrite Hn. simpl.
    apply IH. intros x Hx. apply Hincl. right. exact Hx.
Qed.

(** X2: filtering out the nodes of two lists in one call is filtering them
    out one list after the other, in either order, and filtering the same
    list out twice is filtering it out once. *)
Theorem FilterOutNodes_app (nodes out1 out2 : list Node) :
  FilterOutNodes nodes (out1 ++ out2) =
    FilterOutNodes (FilterOutNodes nodes out1) out2 /\
  FilterOutNodes (FilterOutNodes nodes out1) out2 =
    FilterOutNodes (FilterOutNodes nodes out2) out1 /\
  FilterOutNodes (FilterOutNodes nodes out1) out1 = FilterOutNodes nodes out1.
Proof.
  rewrite !FilterOutNodes_filter.
  repeat split; induction nodes as [|node nodes IH]; simpl; try reflexivity.
  - rewrite existsb_app, negb_orb.
    destruct (existsb _ out1); simpl; [exact IH |].
    destruct (existsb _ out2); simpl; [exact IH | f_equal; exact IH].
  - destruct (existsb _ out1) eqn:E1; destruct (existsb _ out2) eqn:E2; simpl;
      rewrite ?E1, ?E2; simpl; try exact IH. f_equal. exact IH.
  - destruct (existsb _ out1) eqn:E1; simpl; rewrite ?E1; simpl;
      [exact IH | f_equal; exact IH].
Qed.

(** ** [core/utils]: pod specs without their projected volumes *)

Section Sanitize.

Lemma splitProjected_fold (volumes kept : list apiv1.Volume) (names : gset string) :
  let r :=
    fold_left
      (fun '(projectedVolumeNames, volumes) v =>
         if negb (apiv1.Projected v)
         then (projectedVolumeNames, volumes ++ [v])
         else ({[apiv1.Name v]} ∪ projectedVolumeNames, volumes))
      volumes (names, kept) in
  r.2 = kept ++ List.filter (fun v => negb (apiv1.Projected v)) volumes /\
  forall name,
    name ∈ r.1 <->
    name ∈ names \/
    existsb (fun v => apiv1.Projected v && String.eqb (apiv1.Name v) name) volumes = true.
Proof.
  revert kept names. induction volumes as [|v volumes IH]; intros kept names; simpl.
  - rewrite app_nil_r. split; [reflexivity | intros name; intuition discriminate].
  - destruct (apiv1.Projected v) eqn:Ev; simpl.
    + destruct (IH kept ({[apiv1.Name v]} ∪ names)) as [H1 H2].
      split; [exact H1 | intros name]. rewrite H2, elem_of_union, elem_of_singleton.
      rewrite orb_true_iff, String.eqb_eq. intuition congruence.
    + destruct (IH (kept ++ [v]) names) as [H1 H2].
      split; [rewrite H1, <- app_assoc; reflexivity | exact H2].
Qed.

Lemma splitProjected_spec (podSpec : apiv1.PodSpec) :
  (splitProjected (apiv1.Volumes podSpec)).2 = plainVolumes podSpec /\
  forall name,
    name ∈ (splitProjected (apiv1.Volumes podSpec)).1 <->
    projectedName podSpec name = true.
Proof.
  destruct (splitProjected_fold (apiv1.Volumes podSpec) [] ∅) as [H1 H2].
  split; [exact H1 | intros name]. unfold splitProjected, projectedName.
  rewrite H2. rewrite elem_of_empty. tauto.
Qed.

Lemma keepMounts_fold (names : gset string) (mounts kept : list apiv1.VolumeMount) :
  fold_left
    (fun volumeMounts mount =>
       if bool_decide (apiv1.mount_Name mount ∈ names)
       then volumeMounts
       else volumeMounts ++ [mount])
    mounts kept =
  kept ++
  List.filter (fun m => negb (bool_decide (apiv1.mount_Name m ∈ names))) mounts.
Proof.
  revert kept. induction mounts as [|m mounts IH]; intros kept; simpl.
  - rewrite app_nil_r. reflexivity.
  - rewrite IH. destruct (bool_decide _); simpl; [reflexivity |].
    rewrite <- app_assoc. reflexivity.
Qed.

(** Assigning the elements of an array one index after the other is mapping
    over it. *)
Lemma assign_each {A} (f : A -> A) (done rest : list A) :
  fold_left
    (fun array i =>
       match array !! i with
       | Some c => <[i := f c]> array
       | None => array
       end)
    (seq (length done) (length rest)) (done ++ rest) =
  done ++ map f rest.
Proof.
  revert done. induction rest as [|c rest IH]; intros done; simpl; [reflexivity |].
  rewrite list_lookup_middle by reflexivity.
  replace (<[length done := f c]> (done ++ c :: rest))
    with ((done ++ [f c]) ++ rest).
  - replace (S (length done)) with (length (done ++ [f c])).
    + rewrite IH, <- app_assoc. reflexivity.
    + rewrite length_app. simpl. lia.
  - rewrite <- app_assoc. simpl. symmetry.
    rewrite insert_app_r_alt by lia. rewrite Nat.sub_diag. reflexivity.
Qed.

Lemma sanitizeMounts_map (podSpec : apiv1.PodSpec) (array : list apiv1.Container) :
  sanitizeMounts (splitProjected (apiv1.Volumes podSpec)).1 array =
  map (plainMounts podSpec) array.
Proof.
  unfold sanitizeMounts.
  pose proof (assign_each
                (fun c =>
                   apiv1.with_VolumeMounts
                     (keepMounts (splitProjected (apiv1.Volumes podSpec)).1
                                 (apiv1.ctr_VolumeMounts c)) c) [] array) as Hmap.
  simpl in Hmap. rewrite Hmap. clear Hmap. apply map_ext. intros c. unfold plainMounts, keepMounts. f_equal.
  rewrite keepMounts_fold. simpl. apply filter_ext. intros m. f_equal.
  destruct (proj2 (splitProjected_spec podSpec) (apiv1.mount_Name m)) as [H1 H2].
  destruct (projectedName podSpec (apiv1.mount_Name m)).
  - apply bool_decide_eq_true. auto.
  - apply bool_decide_eq_false. intros H. specialize (H1 H). discriminate.
Qed.

Lemma sanitize_run (podSpec : apiv1.PodSpec) (store : gmap nat (list apiv1.Container)) :
  sanitizeProjectedVolumesAndMounts podSpec store =
  ({| apiv1.Volumes := plainVolumes podSpec;
      apiv1.Containers := apiv1.Containers podSpec;
      apiv1.NodeName := apiv1.NodeName podSpec |},
   alter (map (plainMounts podSpec)) (apiv1.Containers podSpec) store).
Proof.
  unfold sanitizeProjectedVolumesAndMounts.
  pose proof (splitProjected_spec podSpec) as [H1 _].
  pose proof (sanitizeMounts_map podSpec) as H2.
  destruct (splitProjected (apiv1.Volumes podSpec)) as [names volumes].
  simpl in *. subst volumes.
  assert (Ha : alter (sanitizeMounts names) (apiv1.Containers podSpec) store =
               alter (map (plainMounts podSpec)) (apiv1.Containers podSpec) store).
  { apply map_eq. intros ref.
    destruct (decide (ref = apiv1.Containers podSpec)) as [-> |Hne].
    - rewrite !lookup_alter_eq. destruct (store !! _); simpl; [| reflexivity].
      rewrite H2. reflexivity.
    - rewrite !lookup_alter_ne by auto. reflexivity. }
  rewrite Ha. reflexivity.
Qed.

Lemma plainVolumes_plain (podSpec : apiv1.PodSpec) (store : gmap nat (list apiv1.Container)) :
  let sanitized := (sanitizeProjectedVolumesAndMounts podSpec store).1 in
  plainVolumes sanitized = plainVolumes podSpec /\
  forall name, projectedName sanitized name = false.
Proof.
  rewrite sanitize_run. simpl. unfold plainVolumes, projectedName. simpl.
  induction (apiv1.Volumes podSpec) as [|v volumes [IH1 IH2]]; simpl; [auto |].
  destruct (apiv1.Projected v) eqn:E; simpl; [auto |].
  rewrite E. simpl. split; [f_equal; exact IH1 | exact IH2].
Qed.

Lemma plainMounts_id (podSpec : apiv1.PodSpec) (c : apiv1.Container) :
  plainMounts podSpec c = c <->
  forall m, In m (apiv1.ctr_VolumeMounts c) ->
    projectedName podSpec (apiv1.mount_Name m) = false.
Proof.
  destruct c as [name image mounts]. unfold plainMounts, apiv1.with_VolumeMounts.
  simpl. split.
  - intros H m Hin. injection H as H. rewrite <- H in Hin.
    apply filter_In in Hin. destruct Hin as [_ Hin].
    apply negb_true_iff in Hin. exact Hin.
  - intros H. f_equal. induction mounts as [|m mounts IH]; simpl; [reflexivity |].
    rewrite (H m) by (left; reflexivity). simpl. f_equal.
    apply IH. intros m' Hin. apply H. right. exact Hin.
Qed.

End Sanitize.

(** X3: the spec that [sanitizeProjectedVolumesAndMounts] returns has the
    volumes of its argument that are not projected, in their order, and its
    containers have lost the mounts that bear the name of a projected volume
    and kept the others in their order; the other arrays of the store are
    left alone. *)
Theorem sanitizeProjectedVolumesAndMounts_spec (podSpec : apiv1.PodSpec)
    (store : gmap nat (list apiv1.Container)) :
  let sanitized := (sanitizeProjectedVolumesAndMounts podSpec store).1 in
  let store' := (sanitizeProjectedVolumesAndMounts podSpec store).2 in
  apiv1.Volumes sanitized = plainVolumes podSpec /\
  apiv1.NodeName sanitized = apiv1.NodeName podSpec /\
  apiv1.containers store' sanitized =
    map (plainMounts podSpec) (apiv1.containers store podSpec) /\
  (forall ref, ref <> apiv1.Containers podSpec -> store' !! ref = store !! ref).
Proof.
  rewrite sanitize_run. simpl. repeat split.
  - unfold apiv1.containers. simpl. rewrite lookup_alter_eq.
    destruct (store !! _); reflexivity.
  - intros ref Hne. rewrite lookup_alter_ne by auto. reflexivity.
Qed.

(** X4: sanitizing a sanitized spec returns it as it is and leaves the
    store as it is. *)
Theorem sanitizeProjectedVolumesAndMounts_idempotent (podSpec : apiv1.PodSpec)
    (store : gmap nat (list apiv1.Container)) :
  let sanitized := (sanitizeProjectedVolumesAndMounts podSpec store).1 in
  let store' := (sanitizeProjectedVolumesAndMounts podSpec store).2 in
  sanitizeProjectedVolumesAndMounts sanitized store' = (sanitized, store').
Proof.
  intros sanitized store'.
  destruct (plainVolumes_plain podSpec store) as [Hv Hn].
  fold sanitized in Hv, Hn. rewrite (sanitize_run sanitized). f_equal.
  - rewrite Hv. unfold sanitized. rewrite sanitize_run. reflexivity.
  - apply map_eq. intros ref.
    destruct (decide (ref = apiv1.Containers sanitized)) as [-> |Hne];
      [| rewrite lookup_alter_ne by auto; reflexivity].
    rewrite lookup_alter_eq. destruct (store' !! _) as [array|]; simpl; [| reflexivity].
    f_equal. rewrite <- (map_id array) at 2. apply map_ext. intros c.
    apply plainMounts_id. intros m _. apply Hn.
Qed.

(** X5: [sanitizeProjectedVolumesAndMounts] writes to the containers of the
    spec it is called on: the store, and with it the spec of the caller, is
    unchanged exactly when no container mounts a projected volume. *)
Theorem sanitizeProjectedVolumesAndMounts_store (podSpec : apiv1.PodSpec)
    (store : gmap nat (list apiv1.Container)) :
  let store' := (sanitizeProjectedVolumesAndMounts podSpec store).2 in
  apiv1.containers store' podSpec =
    map (plainMounts podSpec) (apiv1.containers store podSpec) /\
  (store' = store <-> ~ mountsProjected store podSpec).
Proof.
  rewrite sanitize_run. simpl. unfold apiv1.containers, mountsProjected.
  rewrite lookup_alter_eq. unfold apiv1.containers.
  destruct (store !! apiv1.Containers podSpec) as [array|] eqn:E; simpl.
  - split; [reflexivity |]. split.
    + intros Hs [c [m [Hc [Hm Hp]]]].
      assert (Hl : alter (map (plainMounts podSpec)) (apiv1.Containers podSpec) store
                   !! apiv1.Containers podSpec = Some array) by (rewrite Hs; exact E).
      rewrite lookup_alter_eq, E in Hl. simpl in Hl. injection Hl as Hl.
      assert (Hid : plainMounts podSpec c = c).
      { clear - Hl Hc. induction array as [|c' array IH]; [contradiction |].
        simpl in Hl. injection Hl as H1 H2. destruct Hc as [-> | Hc]; auto. }
      rewrite (proj1 (plainMounts_id podSpec c) Hid m Hm) in Hp. discriminate.
    + intros Hno. apply map_eq. intros ref.
      destruct (decide (ref = apiv1.Containers podSpec)) as [-> |Hne];
        [| rewrite lookup_alter_ne by auto; reflexivity].
      rewrite lookup_alter_eq, E. simpl. f_equal.
      rewrite <- (map_id array) at 2. apply map_ext_in. intros c Hc.
      apply plainMounts_id. intros m Hm.
      destruct (projectedName podSpec (apiv1.mount_Name m)) eqn:Ep; [| reflexivity].
      exfalso. apply Hno. exists c, m. auto.
  - split; [reflexivity |]. split.
    + intros _ [c [m [Hc _]]]. contradiction.
    + intros _. apply map_eq. intros ref.
      destruct (decide (ref = apiv1.Containers podSpec)) as [-> |Hne];
        [| rewrite lookup_alter_ne by auto; reflexivity].
      rewrite lookup_alter_eq, E. reflexivity.
Qed.

Section SemanticEquality.

Implicit Types store : gmap nat (list apiv1.Container).

Lemma PodSpecSemanticallyEqual_run (p1 p2 : apiv1.PodSpec) store :
  PodSpecSemanticallyEqual p1 p2 store =
  (bool_decide (plainVolumes p1 = plainVolumes p2) &&
   bool_decide
     (apiv1.Containers p1 = apiv1.Containers p2 \/
      map (plainMounts p1) (apiv1.containers store p1) =
      map (plainMounts p2) (apiv1.containers store p2)) &&
   String.eqb (apiv1.NodeName p1) (apiv1.NodeName p2),
   alter (map (plainMounts p2)) (apiv1.Containers p2)
     (alter (map (plainMounts p1)) (apiv1.Containers p1) store)).
Proof.
  unfold PodSpecSemanticallyEqual. rewrite (sanitize_run p1), (sanitize_run p2).
  unfold DeepEqual, apiv1.containers. simpl. f_equal. f_equal. f_equal.
  apply bool_decide_ext.
  destruct (decide (apiv1.Containers p1 = apiv1.Containers p2)) as [E | Hne].
  - rewrite E. split; [intros _; left; reflexivity | intros _; reflexivity].
  - repeat first [ rewrite lookup_alter_eq | rewrite lookup_alter_ne by auto ].
    destruct (store !! apiv1.Containers p1), (store !! apiv1.Containers p2);
      simpl; tauto.
Qed.

Lemma plainMounts_comm (p1 p2 : apiv1.PodSpec) (c : apiv1.Container) :
  plainMounts p2 (plainMounts p1 c) = plainMounts p1 (plainMounts p2 c).
Proof.
  unfold plainMounts, apiv1.with_VolumeMounts. simpl. f_equal.
  induction (apiv1.ctr_VolumeMounts c) as [|m mounts IH]; simpl; [reflexivity |].
  destruct (projectedName p1 (apiv1.mount_Name m)) eqn:E1;
    destruct (projectedName p2 (apiv1.mount_Name m)) eqn:E2; simpl;
    rewrite ?E1, ?E2; simpl; rewrite ?IH; reflexivity.
Qed.

End SemanticEquality.

(** X6: [PodSpecSemanticallyEqual] answers true exactly when the two specs
    have the same volumes once the projected ones are left out, the same
    node name, and containers that are the same once the mounts of their
    projected volumes are left out; two specs that share the array of their
    containers are not compared on their containers. *)
Theorem PodSpecSemanticallyEqual_spec (p1 p2 : apiv1.PodSpec)
    (store : gmap nat (list apiv1.Container)) :
  (PodSpecSemanticallyEqual p1 p2 store).1 = true <->
  plainVolumes p1 = plainVolumes p2 /\
  apiv1.NodeName p1 = apiv1.NodeName p2 /\
  (apiv1.Containers p1 = apiv1.Containers p2 \/
   map (plainMounts p1) (apiv1.containers store p1) =
   map (plainMounts p2) (apiv1.containers store p2)).
Proof.
  rewrite PodSpecSemanticallyEqual_run. simpl.
  rewrite !andb_true_iff, !bool_decide_eq_true, String.eqb_eq. tauto.
Qed.

(** X7: the order of the arguments of [PodSpecSemanticallyEqual] changes
    neither its answer nor the store it leaves, and a spec is equal to
    itself. *)
Theorem PodSpecSemanticallyEqual_sym (p1 p2 : apiv1.PodSpec)
    (store : gmap nat (list apiv1.Container)) :
  PodSpecSemanticallyEqual p1 p2 store = PodSpecSemanticallyEqual p2 p1 store /\
  (PodSpecSemanticallyEqual p1 p1 store).1 = true.
Proof.
  rewrite !PodSpecSemanticallyEqual_run. split.
  - f_equal.
    + f_equal; [f_equal |].
      * apply bool_decide_ext. split; intros H; symmetry; exact H.
      * apply bool_decide_ext. split; (intros [H | H]; [left | right]); symmetry; exact H.
      * apply String.eqb_sym.
    + apply map_eq. intros ref.
      destruct (decide (apiv1.Containers p1 = apiv1.Containers p2)) as [E | Hne].
      * rewrite E. destruct (decide (ref = apiv1.Containers p2)) as [-> | Hr].
        -- rewrite !lookup_alter_eq.
           destruct (store !! apiv1.Containers p2) as [array|]; simpl; [| reflexivity].
           f_equal. rewrite !map_map. apply map_ext. intros c. apply plainMounts_comm.
        -- rewrite !lookup_alter_ne by auto. reflexivity.
      * destruct (decide (ref = apiv1.Containers p1)) as [E1 | H1];
          destruct (decide (ref = apiv1.Containers p2)) as [E2 | H2];
          try (exfalso; apply Hne; congruence); try subst ref;
          repeat first
            [ rewrite lookup_alter_eq | rewrite lookup_alter_ne by congruence ];
          reflexivity.
  - simpl. rewrite !andb_true_iff, !bool_decide_eq_true, String.eqb_eq. tauto.
Qed.

(** X8: on specs with arrays of their own, [PodSpecSemanticallyEqual] is
    transitive. *)
Theorem PodSpecSemanticallyEqual_trans (p1 p2 p3 : apiv1.PodSpec)
    (store : gmap nat (list apiv1.Container)) :
  apiv1.Containers p1 <> apiv1.Containers p2 ->
  apiv1.Containers p2 <> apiv1.Containers p3 ->
  (PodSpecSemanticallyEqual p1 p2 store).1 = true ->
  (PodSpecSemanticallyEqual p2 p3 store).1 = true ->
  (PodSpecSemanticallyEqual p1 p3 store).1 = true.
Proof.
  rewrite !PodSpecSemanticallyEqual_run. simpl.
  rewrite !andb_true_iff, !bool_decide_eq_true, !String.eqb_eq.
  intros H12 H23 [[Hv [? | Hc]] Hn] [[Hv' [? | Hc']] Hn']; try contradiction.
  repeat split; [congruence | right; congruence | congruence].
Qed.

Lemma PodSpecSemanticallyEqual_trans_witness :
  (PodSpecSemanticallyEqual Samples.bare Samples.certified Samples.arrays).1 = true.
Proof.
  apply (PodSpecSemanticallyEqual_trans Samples.bare Samples.tokened
           Samples.certified Samples.arrays);
    [discriminate | discriminate | reflexivity | reflexivity].
Defined.

(** ** [core/utils]: the bounds written as decimal numbers *)

Section Decimal.

Lemma parseDigits_uint (d : Decimal.uint) (acc : Z) :
  0 <= acc ->
  parseDigits (NilEmpty.string_of_uint d) acc =
  Some (if acc =? 0 then Z.of_N (Pos.of_uint d)
        else Z.pos (Pos.of_uint_acc d (Z.to_pos acc))).
Proof.
  revert acc.
  induction d as [|d IH|d IH|d IH|d IH|d IH|d IH|d IH|d IH|d IH|d IH];
    intros acc Hacc;
    [ simpl; destruct acc; simpl; try reflexivity; lia | .. ];
    cbn [NilEmpty.string_of_uint parseDigits];
    match goal with
    | |- context [digitValue ?c] =>
        change (digitValue c) with (Some (Z.of_N (N_of_ascii c) - 48))
    end;
    cbn [N_of_ascii N_of_digits]; rewrite IH by (simpl; lia);
    destruct acc as [|p|p]; try lia; simpl; try reflexivity;
    do 3 f_equal; lia.
Qed.

Lemma digits_nonempty (p : positive) :
  exists c s, NilEmpty.string_of_uint (Pos.to_uint p) = String c s /\
              Ascii.eqb c "-" = false /\ Ascii.eqb c "+" = false.
Proof.
  pose proof (DecimalPos.Unsigned.to_uint_nonnil p) as H.
  destruct (Pos.to_uint p); [contradiction | ..]; simpl; eauto.
Qed.

Lemma Atoi_digits (c : ascii) (s : string) (n : Z) :
  Ascii.eqb c "-" = false ->
  Ascii.eqb c "+" = false ->
  parseDigits (String c s) 0 = Some n ->
  Atoi (String c s) = (if inInt n then Some n else None) /\
  Atoi (String "-" (String c s)) = (if inInt (- n) then Some (- n) else None).
Proof.
  intros E1 E2 Hp. unfold Atoi. rewrite E1, E2.
  change (Ascii.eqb "-" "-") with true. cbv beta iota zeta. simpl orb.
  cbv beta iota. rewrite Hp. auto.
Qed.

Lemma Atoi_Itoa (z : Z) : inInt z = true -> Atoi (Itoa z) = Some z.
Proof.
  intros Hin. unfold Itoa.
  destruct z as [|p|p]; [reflexivity | |];
    cbn [Z.to_int NilZero.string_of_int];
    (assert (Hs : NilZero.string_of_uint (Pos.to_uint p) =
                  NilEmpty.string_of_uint (Pos.to_uint p));
     [ pose proof (DecimalPos.Unsigned.to_uint_nonnil p);
       destruct (Pos.to_uint p); [contradiction | ..]; reflexivity | ]);
    rewrite Hs;
    pose proof (parseDigits_uint (Pos.to_uint p) 0 (Z.le_refl 0)) as Hp;
    destruct (digits_nonempty p) as [c [s [E [E1 E2]]]];
    rewrite E in *; simpl in Hp; rewrite DecimalPos.Unsigned.of_to in Hp;
    destruct (Atoi_digits c s _ E1 E2 Hp) as [Hpos Hneg].
  - rewrite Hpos. change (Z.of_N (N.pos p)) with (Z.pos p).
    rewrite Hin. reflexivity.
  - rewrite Hneg. change (- Z.of_N (N.pos p)) with (Z.neg p).
    rewrite Hin. reflexivity.
Qed.

End Decimal.

(** X9: a bound that the configmap holds in the decimal form of
    [strconv.Itoa] is read back as it was written: [GetMinSizeNodeGroup] and
    [GetMaxSizeNodeGroup] return the numbers stored under their keys. *)
Theorem GetSizeNodeGroup_round_trip (kubeclient : KubeClient)
    (data : gmap string string) (minSize maxSize : Z) :
  kc_ConfigMap kubeclient = Some data ->
  data !! "min_node_group_size" = Some (Itoa minSize) ->
  data !! "max_node_group_size" = Some (Itoa maxSize) ->
  inInt minSize = true ->
  inInt maxSize = true ->
  GetMinSizeNodeGroup kubeclient = Done minSize /\
  GetMaxSizeNodeGroup kubeclient = Done maxSize.
Proof.
  intros Hdata Hmin Hmax Hi Ha.
  unfold GetMinSizeNodeGroup, GetMaxSizeNodeGroup, getSizeNodeGroup.
  rewrite Hdata, Hmin, Hmax, !Atoi_Itoa by assumption. auto.
Qed.

Lemma GetSizeNodeGroup_round_trip_witness :
  GetMinSizeNodeGroup (Examples.client [] (Itoa 2) (Itoa 12) (fun _ => [])) = Done 2 /\
  GetMaxSizeNodeGroup (Examples.client [] (Itoa 2) (Itoa 12) (fun _ => [])) = Done 12.
Proof.
  apply (GetSizeNodeGroup_round_trip
           (Examples.client [] (Itoa 2) (Itoa 12) (fun _ => []))
           (Examples.bounds (Itoa 2) (Itoa 12)) 2 12);
    reflexivity.
Defined.

(** ** [processors/status]: [ReasonsMessage] *)

Section ReasonCounts.

(** [aggregated[reason]++] on the 64-bit [int]. *)
Let inc (count : Z) : Z := wrapInt (count + 1).

(** An entry of the map after [n] increments. *)
Let bump (n : nat) (entry : option Z) : option Z :=
  if (n =? 0)%nat then entry else Some (Nat.iter n inc (default 0 entry)).

Lemma bump_bump (n m : nat) (entry : option Z) :
  bump m (bump n entry) = bump (n + m) entry.
Proof.
  unfold bump. destruct n as [|n]; [reflexivity |].
  destruct m as [|m]; [rewrite Nat.add_0_r; reflexivity |].
  replace (S n + S m)%nat with (S m + S n)%nat by lia.
  rewrite Nat.iter_add. reflexivity.
Qed.

Lemma countReasons_lookup (reasons : list string) (aggregated : gmap string Z)
    (reason : string) :
  countReasons aggregated reasons !! reason =
  bump (occurrences reasons reason) (aggregated !! reason).
Proof.
  unfold countReasons, occurrences. revert aggregated.
  induction reasons as [|r reasons IH]; intros aggregated; simpl; [reflexivity |].
  rewrite IH. destruct (string_dec r reason) as [-> | Hne].
  - rewrite lookup_insert_eq.
    change (Some (wrapInt (default 0 (aggregated !! reason) + 1)))
      with (bump 1 (aggregated !! reason)).
    rewrite bump_bump. reflexivity.
  - rewrite lookup_insert_ne by exact Hne. reflexivity.
Qed.

Lemma countGroups_lookup (groups : list (string * list string))
    (aggregated : gmap string Z) (reason : string) :
  fold_left (fun aggregated '(_, reasons) => countReasons aggregated reasons)
            groups aggregated !! reason =
  bump (occurrences (reasonsOf groups) reason) (aggregated !! reason).
Proof.
  unfold reasonsOf, occurrences. revert aggregated.
  induction groups as [|[id reasons] groups IH]; intros aggregated; simpl;
    [reflexivity |].
  rewrite IH, countReasons_lookup, bump_bump. unfold occurrences.
  rewrite count_occ_app. reflexivity.
Qed.

Lemma aggregateReasons_lookup (rejected skipped : list (string * list string))
    (reason : string) :
  aggregateReasons rejected skipped !! reason =
  bump (occurrences (reasonsOf (rejected ++ skipped)) reason) None.
Proof.
  unfold aggregateReasons. rewrite !countGroups_lookup, bump_bump, lookup_empty.
  unfold reasonsOf, occurrences. rewrite map_app, concat_app, count_occ_app.
  reflexivity.
Qed.

Lemma reasonsOf_Permutation (groups groups' : list (string * list string)) :
  groups ≡ₚ groups' -> reasonsOf groups ≡ₚ reasonsOf groups'.
Proof.
  unfold reasonsOf. induction 1 as [|x l l' _ IH|x y l|l l' l'' _ IH1 _ IH2]; simpl.
  - reflexivity.
  - rewrite IH. reflexivity.
  - rewrite !app_assoc. apply Permutation_app_tail, Permutation_app_comm.
  - rewrite IH1. exact IH2.
Qed.

Lemma occurrences_Permutation (reasons reasons' : list string) (reason : string) :
  reasons ≡ₚ reasons' -> occurrences reasons reason = occurrences reasons' reason.
Proof.
  intros H. unfold occurrences.
  apply (proj1 (Permutation_count_occ string_dec reasons reasons') H).
Qed.

Lemma inc_exact (n : nat) :
  Z.of_nat n <= maxInt -> Nat.iter n inc 0 = Z.of_nat n.
Proof.
  induction n as [|n IH]; intros Hn; [reflexivity |].
  simpl Nat.iter. rewrite IH by lia. unfold inc. rewrite wrapInt_id; [lia |].
  unfold inInt, minInt, maxInt in *. apply andb_true_iff.
  rewrite !Z.leb_le. lia.
Qed.

Lemma occurrences_le (reasons : list string) (reason : string) :
  (occurrences reasons reason <= length reasons)%nat.
Proof. apply count_occ_bound. Qed.

Lemma aggregateReasons_count (rejected skipped : list (string * list string))
    (reason : string) (count : Z) :
  Z.of_nat (length (reasonsOf (rejected ++ skipped))) <= maxInt ->
  aggregateReasons rejected skipped !! reason = Some count <->
  0 < count /\
  count = Z.of_nat (occurrences (reasonsOf (rejected ++ skipped)) reason).
Proof.
  intros Hfit. rewrite aggregateReasons_lookup. unfold bump.
  pose proof (occurrences_le (reasonsOf (rejected ++ skipped)) reason) as Hle.
  destruct (occurrences _ reason) as [|n] eqn:E.
  - simpl. split; [discriminate | lia].
  - cbn [Nat.eqb default]. rewrite inc_exact by lia. split.
    + intros [= <-]. lia.
    + intros [_ ->]. reflexivity.
Qed.

Lemma messages_fold (entries : list (string * Z)) (messages : list string) :
  fold_left (fun messages entry => messages ++ [formatReason entry])
            entries messages =
  messages ++ map formatReason entries.
Proof.
  revert messages. induction entries as [|entry entries IH]; intros messages; simpl.
  - rewrite app_nil_r. reflexivity.
  - rewrite IH, <- app_assoc. reflexivity.
Qed.

Lemma joinReasons_line (entries : list (string * Z)) :
  joinReasons entries = reasonsLine entries.
Proof. unfold joinReasons, reasonsLine. rewrite messages_fold. reflexivity. Qed.

Lemma aggregateReasons_Permutation
    (rejected rejected' skipped skipped' : list (string * list string)) :
  rejected ++ skipped ≡ₚ rejected' ++ skipped' ->
  aggregateReasons rejected skipped = aggregateReasons rejected' skipped'.
Proof.
  intros H. apply map_eq. intros reason. rewrite !aggregateReasons_lookup.
  rewrite (occurrences_Permutation _ _ reason (reasonsOf_Permutation _ _ H)).
  reflexivity.
Qed.

End ReasonCounts.

(** X10: [ReasonsMessage] has a result, and its results are the lines that
    give each reason once, after the number of times the node groups give it
    (a reason that one group gives twice counts twice), separated by a comma
    and a space, in any order.  The reasons are taken to be fewer than
    2^63. *)
Theorem ReasonsMessage_spec (noScaleUpInfo : NodeGroupReasons) (message : string) :
  Z.of_nat (length (allReasons noScaleUpInfo)) <= maxInt ->
  (exists result, ReasonsMessage noScaleUpInfo result) /\
  (ReasonsMessage noScaleUpInfo message <->
   exists entries,
     message = reasonsLine entries /\
     NoDup entries /\
     forall reason count,
       In (reason, count) entries <->
       0 < count /\
       count = Z.of_nat (occurrences (allReasons noScaleUpInfo) reason)).
Proof.
  intros Hfit.
  set (rejected := map_to_list (RejectedNodeGroups noScaleUpInfo)) in *.
  set (skipped := map_to_list (SkippedNodeGroups noScaleUpInfo)) in *.
  assert (Hmem : forall reason count,
    In (reason, count) (map_to_list (aggregateReasons rejected skipped)) <->
    0 < count /\
    count = Z.of_nat (occurrences (allReasons noScaleUpInfo) reason)).
  { intros reason count. rewrite <- list_elem_of_In, elem_of_map_to_list.
    apply aggregateReasons_count. exact Hfit. }
  split.
  - exists (joinReasons (map_to_list (aggregateReasons rejected skipped))).
    exists rejected, skipped, (map_to_list (aggregateReasons rejected skipped)).
    repeat split; reflexivity.
  - split.
    + intros [rejected' [skipped' [aggregated [Hr [Hs [Ha ->]]]]]].
      rewrite (aggregateReasons_Permutation rejected' rejected skipped' skipped) in Ha
        by (rewrite Hr, Hs; reflexivity).
      exists aggregated. split; [apply joinReasons_line |]. split.
      * rewrite Ha. apply NoDup_map_to_list.
      * intros reason count. rewrite <- Hmem. split; apply Permutation_in;
          [exact Ha | symmetry; exact Ha].
    + intros [entries [-> [Hnodup Hin]]].
      exists rejected, skipped, entries.
      repeat split; [reflexivity | reflexivity | | symmetry; apply joinReasons_line].
      apply NoDup_Permutation.
      * exact Hnodup.
      * apply NoDup_map_to_list.
      * intros [reason count]. rewrite !list_elem_of_In, Hin, Hmem. reflexivity.
Qed.

Lemma ReasonsMessage_spec_witness :
  (exists result, ReasonsMessage Reasons.info result) /\
  (ReasonsMessage Reasons.info
     "2 Insufficient cpu, 1 Insufficient memory, 1 max node group size reached" <->
   exists entries,
     "2 Insufficient cpu, 1 Insufficient memory, 1 max node group size reached" =
       reasonsLine entries /\
     NoDup entries /\
     forall reason count,
       In (reason, count) entries <->
       0 < count /\
       count = Z.of_nat (occurrences (allReasons Reasons.info) reason)).
Proof.
  apply (ReasonsMessage_spec Reasons.info
           "2 Insufficient cpu, 1 Insufficient memory, 1 max node group size reached").
  vm_compute. discriminate.
Defined.

(** ** [core]: the callbacks of the processors *)

(** X11: a value set under a key is the value got under it, the values under
    the other keys and the flag that disables scale-down are left as they
    were, and [reset] forgets every value and the flag. *)
Theorem ExtraValue_round_trip {Value} (key : string) (value : Value)
    (callbacks callbacks' : staticAutoscalerProcessorCallbacks Value) :
  SetExtraValue key value callbacks = Done callbacks' ->
  GetExtraValue key callbacks' = Some value /\
  (forall key', key' <> key ->
     GetExtraValue key' callbacks' = GetExtraValue key' callbacks) /\
  cb_disableScaleDownForLoop callbacks' = cb_disableScaleDownForLoop callbacks /\
  (forall key', GetExtraValue key' (DisableScaleDownForLoop callbacks') =
                GetExtraValue key' callbacks') /\
  (forall key', GetExtraValue key' (reset callbacks') = None) /\
  cb_disableScaleDownForLoop (reset (DisableScaleDownForLoop callbacks')) = false.
Proof.
  unfold SetExtraValue, GetExtraValue.
  destruct (cb_extraValues callbacks) as [extraValues|] eqn:E; [| discriminate].
  intros [= <-]. simpl. repeat split.
  - apply lookup_insert_eq.
  - intros key' Hne. apply lookup_insert_ne. congruence.
Qed.

Lemma ExtraValue_round_trip_witness :
  GetExtraValue "expansion" (reset (@newStaticAutoscalerProcessorCallbacks Z)) = None /\
  exists callbacks',
    SetExtraValue "expansion" 3 (@newStaticAutoscalerProcessorCallbacks Z) =
      Done callbacks' /\
    GetExtraValue "expansion" callbacks' = Some 3.
Proof.
  split; [reflexivity |].
  exists {| cb_disableScaleDownForLoop := false;
            cb_extraValues := Some (<["expansion" := 3]> ∅) |}.
  split; [reflexivity |].
  apply (ExtraValue_round_trip "expansion" 3 newStaticAutoscalerProcessorCallbacks).
  reflexivity.
Defined.

(** X12: the callbacks that [newStaticAutoscalerProcessorCallbacks] returns
    have a map: whatever methods are called on them, in whatever order, none
    of the calls panics.  On the zero value, which has none,
    [SetExtraValue] panics. *)
Theorem callbacks_never_panic {Value} (cs : list (CallbackCall Value))
    (key : string) (value : Value) :
  (exists callbacks,
     callCallbacks cs newStaticAutoscalerProcessorCallbacks = Done callbacks /\
     cb_extraValues callbacks <> None) /\
  SetExtraValue key value
    {| cb_disableScaleDownForLoop := false; cb_extraValues := None |} = Panicked.
Proof.
  split; [| reflexivity].
  assert (H : forall callbacks : staticAutoscalerProcessorCallbacks Value,
    cb_extraValues callbacks <> None ->
    exists callbacks',
      callCallbacks cs callbacks = Done callbacks' /\
      cb_extraValues callbacks' <> None).
  { induction cs as [|c cs IH]; intros callbacks Hmap; simpl; [eauto |].
    destruct c as [| | k v]; simpl.
    - apply IH. discriminate.
    - apply IH. exact Hmap.
    - unfold SetExtraValue.
      destruct (cb_extraValues callbacks); [| contradiction].
      simpl. apply IH. discriminate. }
  apply H. discriminate.
Qed.

(** ** [core]: the new engine *)

(** X13: an engine made at the time [start] is in the scale-down cooldown at
    the time [now] exactly when less than one of the three delays, minus one
    hour, has passed since [start]; so it is out of the cooldown from its
    creation on exactly when no delay is longer than one hour. *)
Theorem NewStaticAutoscaler_cooldown (opts : AutoscalingOptions)
    (clusterSnapshot : gmap string (Node * list Pod)) (scaleDown : list string)
    (start : Time) :
  let a := NewStaticAutoscaler opts clusterSnapshot scaleDown start in
  (forall now,
     scaleDownInCooldown a now = true <->
     now - start < ScaleDownDelayAfterAdd opts - Hour \/
     now - start < ScaleDownDelayAfterFailure opts - Hour \/
     now - start < ScaleDownDelayAfterDelete opts - Hour) /\
  ((forall now, start <= now -> scaleDownInCooldown a now = false) <->
   ScaleDownDelayAfterAdd opts <= Hour /\
   ScaleDownDelayAfterFailure opts <= Hour /\
   ScaleDownDelayAfterDelete opts <= Hour).
Proof.
  intros a.
  assert (Hnow : forall now,
    scaleDownInCooldown a now = true <->
    now - start < ScaleDownDelayAfterAdd opts - Hour \/
    now - start < ScaleDownDelayAfterFailure opts - Hour \/
    now - start < ScaleDownDelayAfterDelete opts - Hour).
  { intros now. unfold scaleDownInCooldown, a, NewStaticAutoscaler, Time_After,
      Time_Add. simpl. rewrite !orb_true_iff, !Z.ltb_lt. lia. }
  split; [exact Hnow |]. split.
  - intros H. specialize (H start (Z.le_refl start)).
    destruct (scaleDownInCooldown a start) eqn:E; [discriminate |].
    assert (Hn : ~ (start - start < ScaleDownDelayAfterAdd opts - Hour \/
                    start - start < ScaleDownDelayAfterFailure opts - Hour \/
                    start - start < ScaleDownDelayAfterDelete opts - Hour)).
    { intros Hc. apply Hnow in Hc. congruence. }
    lia.
  - intros Hd now Hle. destruct (scaleDownInCooldown a now) eqn:E; [| reflexivity].
    apply Hnow in E. lia.
Qed.

(** ** [core]: the clean-up of the taints *)

(** X14: [cleanUpIfRequired] leaves the engine initialized in every case,
    also when the ready nodes cannot be listed and no taint is cleaned; on
    an initialized engine it does nothing, so that a second call changes
    nothing and cleans nothing. *)
Theorem cleanUpIfRequired_once (env : Env) (s : St) :
  initialized (st_self (final (cleanUpIfRequired env s))) = true /\
  (initialized (st_self s) = true -> cleanUpIfRequired env s = Continue tt s) /\
  bind (cleanUpIfRequired env) (fun _ => cleanUpIfRequired env) s =
    cleanUpIfRequired env s.
Proof.
  unfold cleanUpIfRequired, bind, getSelf, when, emit, emits, modifySelf, ret.
  destruct (initialized (st_self s)) eqn:E; simpl.
  - rewrite E. auto.
  - destruct (env_ReadyNodeLister env AtCleanUp) as [readyNodes|]; simpl.
    + destruct (MaxBulkSoftTaintCount (AutoscalingContext (st_self s)) =? 0);
        simpl; repeat split; discriminate.
    + repeat split; discriminate.
Qed.

Lemma cleanUpIfRequired_once_witness :
  cleanUpIfRequired (Examples.cluster Examples.threeWorkers [] (Examples.provider 0 1))
    {| st_self := Examples.engine 0 0; st_locals := initialLocals;
       st_trace := []; st_clock := 0 |} =
  Continue tt
    {| st_self := Examples.engine 0 0; st_locals := initialLocals;
       st_trace := []; st_clock := 0 |}.
Proof.
  apply (proj1 (proj2 (cleanUpIfRequired_once
           (Examples.cluster Examples.threeWorkers [] (Examples.provider 0 1))
           {| st_self := Examples.engine 0 0; st_locals := initialLocals;
              st_trace := []; st_clock := 0 |}))).
  reflexivity.
Defined.

(** ** [expander/grpcplugin]: the construction of the strategy *)

(** X15: [NewFilter] returns only strategies with a client: without a
    certificate, with a certificate that cannot be loaded or with a server
    that cannot be dialled the process exits, so the strategy without client
    that [BestOptions] provides for is not one that [NewFilter] makes. *)
Theorem NewFilter_client {Credentials} (lib : GrpcLibrary Credentials)
    (expanderCert expanderUrl : string) :
  (NewFilter lib expanderCert expanderUrl = Exited \/
   exists client,
     NewFilter lib expanderCert expanderUrl =
     Done {| grpcplugin.grpcClient := Some client |}) /\
  NewFilter lib "" expanderUrl = Exited /\
  (NewFilter lib expanderCert expanderUrl = Exited <->
   expanderCert = "" \/
   NewClientTLSFromFile lib expanderCert = None \/
   exists creds,
     NewClientTLSFromFile lib expanderCert = Some creds /\
     Dial lib expanderUrl creds = None).
Proof.
  unfold NewFilter, createGRPCClient.
  destruct (String.eqb_spec expanderCert "") as [-> | Hcert]; simpl.
  - repeat split; auto.
  - destruct (NewClientTLSFromFile lib expanderCert) as [creds|] eqn:Ec; simpl.
    + destruct (Dial lib expanderUrl creds) as [client|] eqn:Ed; simpl.
      * repeat split; eauto; try discriminate.
        intros [H | [H | [creds' [[= <-] H]]]]; congruence.
      * repeat split; eauto.
    + repeat split; auto.
Qed.

(** ** [core]: the totals of cores and memory *)

Section Totals.

Lemma wrapInt_add_l (a b : Z) : wrapInt (wrapInt a + b) = wrapInt (a + b).
Proof.
  unfold wrapInt. f_equal.
  replace ((a + 2 ^ 63) mod 2 ^ 64 - 2 ^ 63 + b + 2 ^ 63)
    with ((a + 2 ^ 63) mod 2 ^ 64 + b) by lia.
  rewrite Z.add_mod_idemp_l by lia. f_equal. lia.
Qed.

Variable isNodeBeingDeleted : Node -> Time -> bool.
Variable GetNodeCoresAndMemory : Node -> Z * Z.
Variable timestamp : Time.

Lemma totals_fold (nodes : list Node) (cores memory : Z) :
  fold_left
    (fun '(coresTotal, memoryTotal) node =>
       if isNodeBeingDeleted node timestamp then (coresTotal, memoryTotal)
       else
         let '(cores, memory) := GetNodeCoresAndMemory node in
         (wrapInt (coresTotal + cores), wrapInt (memoryTotal + memory)))
    nodes (wrapInt cores, wrapInt memory) =
  let live :=
    List.filter (fun node => negb (isNodeBeingDeleted node timestamp)) nodes in
  (wrapInt (cores + sumZ (map (fun node => (GetNodeCoresAndMemory node).1) live)),
   wrapInt (memory + sumZ (map (fun node => (GetNodeCoresAndMemory node).2) live))).
Proof.
  revert cores memory. induction nodes as [|node nodes IH]; intros cores memory.
  - simpl. rewrite !Z.add_0_r. reflexivity.
  - cbn [fold_left List.filter].
    destruct (isNodeBeingDeleted node timestamp); cbn [negb]; [apply IH |].
    destruct (GetNodeCoresAndMemory node) as [c m] eqn:E.
    rewrite !wrapInt_add_l, IH. cbn [map sumZ fold_right]. rewrite E.
    cbn [fst snd]. rewrite !Z.add_assoc. reflexivity.
Qed.

End Totals.

(** X16: [calculateCoresMemoryTotal] returns the sum of the cores and the sum
    of the memory of the nodes that are not being deleted, each reduced to
    64 bits once: the nodes being deleted do not count, the order of the
    nodes does not matter, and the totals are exact when the sums fit. *)
Theorem calculateCoresMemoryTotal_spec
    (isNodeBeingDeleted : Node -> Time -> bool)
    (GetNodeCoresAndMemory : Node -> Z * Z)
    (nodes : list Node) (timestamp : Time) :
  let live :=
    List.filter (fun node => negb (isNodeBeingDeleted node timestamp)) nodes in
  let cores := sumZ (map (fun node => (GetNodeCoresAndMemory node).1) live) in
  let memory := sumZ (map (fun node => (GetNodeCoresAndMemory node).2) live) in
  calculateCoresMemoryTotal isNodeBeingDeleted GetNodeCoresAndMemory nodes timestamp =
    (wrapInt cores, wrapInt memory) /\
  (inInt cores = true -> inInt memory = true ->
   calculateCoresMemoryTotal isNodeBeingDeleted GetNodeCoresAndMemory nodes timestamp =
     (cores, memory)) /\
  (forall nodes',
     nodes ≡ₚ nodes' ->
     calculateCoresMemoryTotal isNodeBeingDeleted GetNodeCoresAndMemory nodes' timestamp =
     calculateCoresMemoryTotal isNodeBeingDeleted GetNodeCoresAndMemory nodes timestamp).
Proof.
  assert (Hspec : forall nodes,
    calculateCoresMemoryTotal isNodeBeingDeleted GetNodeCoresAndMemory nodes timestamp =
    (wrapInt (sumZ (map (fun node => (GetNodeCoresAndMemory node).1)
                        (List.filter
                           (fun node => negb (isNodeBeingDeleted node timestamp))
                           nodes))),
     wrapInt (sumZ (map (fun node => (GetNodeCoresAndMemory node).2)
                        (List.filter
                           (fun node => negb (isNodeBeingDeleted node timestamp))
                           nodes))))).
  { intros l. unfold calculateCoresMemoryTotal.
    exact (totals_fold isNodeBeingDeleted GetNodeCoresAndMemory timestamp l 0 0). }
  assert (Hsum : forall (f : Node -> Z) l l',
    l ≡ₚ l' -> sumZ (map f l) = sumZ (map f l')).
  { intros f l l' H. induction H; simpl; lia. }
  intros live cores memory. split; [apply Hspec |]. split.
  - intros Hc Hm. rewrite Hspec. fold live. fold cores. fold memory.
    rewrite !wrapInt_id by assumption. reflexivity.
  - intros nodes' Hperm. rewrite !Hspec.
    assert (Hlive :
      List.filter (fun node => negb (isNodeBeingDeleted node timestamp)) nodes ≡ₚ
      List.filter (fun node => negb (isNodeBeingDeleted node timestamp)) nodes').
    { clear - Hperm. induction Hperm; simpl.
      - reflexivity.
      - destruct (negb _); [constructor |]; exact IHHperm.
      - destruct (negb (isNodeBeingDeleted x _)), (negb (isNodeBeingDeleted y _));
          try reflexivity. apply perm_swap.
      - etransitivity; eassumption. }
    rewrite (Hsum _ _ _ Hlive), (Hsum (fun node => (GetNodeCoresAndMemory node).2) _ _ Hlive).
    reflexivity.
Qed.

(** ** [expander/grpcplugin]: what is sent and what comes back *)

Section Request.

Import grpcplugin.

Lemma populateOptionsForGRPC_messages (expansionOptions : list Option) :
  (populateOptionsForGRPC expansionOptions).1 = map optionMessage expansionOptions.
Proof.
  unfold populateOptionsForGRPC.
  induction expansionOptions as [|o l IH] using rev_ind; [reflexivity |].
  rewrite fold_left_app, map_app. simpl.
  destruct (fold_left _ l _) as [slice m]. simpl in *. rewrite IH. reflexivity.
Qed.

Lemma BestOptions_run (client : ExpanderClient) (expansionOptions : list Option)
    (nodeInfo : gmap string NodeInfo) :
  BestOptions {| grpcClient := Some client |} expansionOptions nodeInfo =
  match client_BestOptions client gRPCTimeout
          (bestOptionsRequest expansionOptions nodeInfo) with
  | inl _ | inr None => expansionOptions
  | inr (Some response) =>
      match resp_Options response with
      | None => expansionOptions
      | Some responseOptions =>
          match recognized expansionOptions responseOptions with
          | [] => expansionOptions
          | endorsed => endorsed
          end
      end
  end.
Proof.
  unfold BestOptions, bestOptionsRequest. simpl.
  pose proof (transformAndSanitize_recognized expansionOptions) as Ht.
  pose proof (populateOptionsForGRPC_messages expansionOptions) as Hm.
  destruct (populateOptionsForGRPC expansionOptions) as [slice m]. simpl in *.
  subst slice.
  destruct (client_BestOptions client gRPCTimeout _) as [e | [response|]];
    try reflexivity.
  destruct (resp_Options response) as [responseOptions|]; [| reflexivity].
  rewrite Ht. destruct (recognized expansionOptions responseOptions); reflexivity.
Qed.

Lemma lastWithId_unique (expansionOptions : list Option) (o : Option) :
  NoDup (map opt_NodeGroupId expansionOptions) ->
  In o expansionOptions ->
  lastWithId expansionOptions (opt_NodeGroupId o) = Some o.
Proof.
  intros Hnodup Hin.
  destruct (lastWithId expansionOptions (opt_NodeGroupId o)) as [o'|] eqn:E.
  - apply lastWithId_In in E. destruct E as [Hin' Hid]. f_equal.
    clear - Hnodup Hin Hin' Hid.
    induction expansionOptions as [|x l IH]; [contradiction |].
    simpl in Hnodup. apply NoDup_cons in Hnodup. destruct Hnodup as [Hx Hl].
    assert (Hfresh : forall y, In y l -> opt_NodeGroupId y <> opt_NodeGroupId x).
    { intros y Hy Heq. apply Hx. rewrite <- Heq.
      apply list_elem_of_In, in_map, Hy. }
    destruct Hin as [-> | Hin], Hin' as [-> | Hin']; auto.
    + destruct (Hfresh o' Hin' Hid).
    + destruct (Hfresh o Hin (eq_sym Hid)).
  - exfalso. exact (proj1 (lastWithId_None _ _) E o Hin eq_refl).
Qed.

Lemma recognized_selection (expansionOptions chosen : list Option) :
  NoDup (map opt_NodeGroupId expansionOptions) ->
  (forall o, In o chosen -> In o expansionOptions) ->
  recognized expansionOptions (map (fun o => Some (optionMessage o)) chosen) = chosen.
Proof.
  intros Hnodup Hin. unfold recognized.
  induction chosen as [|o chosen IH]; [reflexivity |].
  cbn [map omap list_omap mbind option_bind optionMessage newOptionMessage NodeGroupId].
  rewrite (lastWithId_unique expansionOptions o Hnodup) by (apply Hin; left; reflexivity).
  f_equal. apply IH. intros o' Ho'. apply Hin. right. exact Ho'.
Qed.

End Request.

(** X17: [BestOptions] never turns options into none: with at least one
    option to choose from it returns at least one, whatever the client and
    the server do. *)
Theorem BestOptions_nonempty (g : grpcplugin.grpcclientstrategy)
    (expansionOptions : list grpcplugin.Option)
    (nodeInfo : gmap string grpcplugin.NodeInfo) :
  expansionOptions <> [] ->
  grpcplugin.BestOptions g expansionOptions nodeInfo <> [].
Proof.
  intros Hne. destruct g as [[client|]]; [| exact Hne].
  rewrite BestOptions_run.
  destruct (grpcplugin.client_BestOptions client _ _) as [e | [response|]];
    try exact Hne.
  destruct (grpcplugin.resp_Options response) as [responseOptions|]; [| exact Hne].
  destruct (recognized expansionOptions responseOptions); [exact Hne | discriminate].
Qed.

Lemma BestOptions_nonempty_witness :
  grpcplugin.BestOptions Pools.picky [Pools.small; Pools.large] ∅ <> [].
Proof.
  apply (BestOptions_nonempty Pools.picky [Pools.small; Pools.large] ∅).
  discriminate.
Defined.

(** X18: the messages of a request stand for the options: when the node-group
    ids of the options are distinct and the server answers the request for
    them with the messages of some of them, [BestOptions] returns these
    options themselves, in the order of the server. *)
Theorem BestOptions_selection (client : grpcplugin.ExpanderClient)
    (expansionOptions chosen : list grpcplugin.Option)
    (nodeInfo : gmap string grpcplugin.NodeInfo) :
  NoDup (map grpcplugin.opt_NodeGroupId expansionOptions) ->
  chosen <> [] ->
  (forall o, In o chosen -> In o expansionOptions) ->
  grpcplugin.client_BestOptions client grpcplugin.gRPCTimeout
    (bestOptionsRequest expansionOptions nodeInfo) = selection chosen ->
  grpcplugin.BestOptions {| grpcplugin.grpcClient := Some client |}
    expansionOptions nodeInfo = chosen.
Proof.
  intros Hnodup Hne Hin Hanswer. rewrite BestOptions_run, Hanswer.
  unfold selection. simpl. rewrite recognized_selection by assumption.
  destruct chosen; [contradiction | reflexivity].
Qed.

Lemma BestOptions_selection_witness :
  grpcplugin.BestOptions Pools.picky [Pools.small; Pools.large] ∅ =
  [Pools.large; Pools.small].
Proof.
  apply (BestOptions_selection _ [Pools.small; Pools.large]
           [Pools.large; Pools.small] ∅).
  - repeat constructor; rewrite ?elem_of_cons, ?elem_of_nil; intuition discriminate.
  - discriminate.
  - simpl. tauto.
  - reflexivity.
Defined.

(** ** [RunOnce]: the bounds that cannot be read and the nodes that cannot
    be listed *)

Section BoundsEdges.

Variable env : Env.
Variable kubeclient : KubeClient.

(** The trace of a run goes on from the trace its body starts with. *)
Lemma finish_trace_from (rest : M unit) (s : St) :
  keeps (evolves (fun _ _ => True) (fun _ => True)) rest ->
  exists effects,
    res_trace (finish env kubeclient (rest s)) = st_trace s ++ effects.
Proof.
  intros Hrest. destruct (Hrest s) as [_ [t1 [Ht1 _]]].
  destruct (finish_evolves (T := fun _ _ => True) (Q := fun _ => True) env
              kubeclient (rest s)) as [_ [t2 [Ht2 _]]].
  exists (t1 ++ t2). rewrite Ht2, Ht1, <- app_assoc. reflexivity.
Qed.

(** A request at the bounds is the first effect after the clean-up. *)
Lemma request_first (request : Effect) (fuel : nat) (a : StaticAutoscaler)
    (now : Time) :
  exists rest,
    res_trace
      (finish env kubeclient
         (bind (bind (emit request)
                     (fun _ => pollStatus env (emit request) fuel))
               (fun _ => reconcile env now kubeclient) (atBounds env a))) =
    cleanUpEffects env a ++ request :: rest.
Proof.
  set (rest := bind (pollStatus env (emit request) fuel)
                    (fun _ => reconcile env now kubeclient)).
  assert (Hrest : keeps (evolves (fun _ _ => True) (fun _ => True)) rest).
  { apply keeps_bind; [apply keeps_pollStatus, keeps_emit; exact I |].
    intros _. apply keeps_reconcile; auto. }
  destruct (finish_trace_from rest (advance (atBounds env a) [request] 0) Hrest)
    as [effects Ht].
  exists effects.
  replace (bind (bind (emit request) _) _ (atBounds env a))
    with (rest (advance (atBounds env a) [request] 0)).
  - rewrite Ht. simpl. rewrite <- app_assoc. reflexivity.
  - unfold rest, bind, emit, emits, advance. simpl. reflexivity.
Qed.

Lemma workerCount_unlisted :
  env_AllNodeLister env BeforeBounds = None \/
  env_ReadyNodeLister env BeforeBounds = None ->
  workerCount env = 0.
Proof.
  unfold workerCount, workers, obtainNodeLists.
  intros [H | H]; rewrite H; [reflexivity |].
  destruct (env_AllNodeLister env BeforeBounds); reflexivity.
Qed.

Lemma getSizeNodeGroup_Exited (key : string) :
  getSizeNodeGroup key kubeclient = Exited <->
  kc_ConfigMap kubeclient = None \/
  exists data v,
    kc_ConfigMap kubeclient = Some data /\ data !! key = Some v /\ Atoi v = None.
Proof.
  unfold getSizeNodeGroup.
  destruct (kc_ConfigMap kubeclient) as [data|]; [| intuition].
  destruct (data !! key) as [v|] eqn:Ev.
  - destruct (Atoi v) as [value|] eqn:Ea.
    + split; [discriminate |].
      intros [H | [data' [v' [[= <-] [Hv Ha]]]]]; [discriminate |].
      rewrite Ev in Hv. injection Hv as <-. congruence.
    + split; [| reflexivity]. intros _. right. exists data, v. auto.
  - split; [discriminate |].
    intros [H | [data' [v' [[= <-] [Hv Ha]]]]]; [discriminate |].
    rewrite Ev in Hv. discriminate.
Qed.

End BoundsEdges.

(** X19: when the nodes cannot be listed before the bounds are checked, the
    error is dropped and the engine counts no worker: with a minimum above
    zero, the first thing [RunOnce] does after the clean-up is to request a
    scale-up of the whole minimum. *)
Theorem RunOnce_nodes_unlisted (env : Env) (fuel : nat) (a : StaticAutoscaler)
    (now : Time) (kubeclient : KubeClient) (minSize : Z) :
  env_AllNodeLister env BeforeBounds = None \/
  env_ReadyNodeLister env BeforeBounds = None ->
  GetMinSizeNodeGroup kubeclient = Done minSize ->
  0 < minSize ->
  exists rest,
    res_trace (RunOnce env fuel a now kubeclient) =
    cleanUpEffects env a ++ EvPerformScaleUp minSize :: rest.
Proof.
  intros Hlist Hmin Hpos.
  pose proof (workerCount_unlisted env Hlist) as Hzero.
  rewrite RunOnce_at_bounds. unfold bind at 1.
  pose proof (enforceBounds_below_minimum env fuel kubeclient minSize
                (atBounds env a) Hmin) as Hbounds.
  rewrite Hzero, Z.sub_0_r in Hbounds. rewrite (Hbounds Hpos).
  exact (request_first env kubeclient (EvPerformScaleUp minSize) fuel a now).
Qed.

(** Three workers that cannot be listed, a minimum of two: two more nodes
    are requested. *)
Lemma RunOnce_nodes_unlisted_witness :
  exists rest,
    res_trace
      (RunOnce (Broken.unlisted Examples.threeWorkers) 5 (Examples.engine 0 0)
               (100 * Second) (Examples.client [] "2" "5" (fun _ => []))) =
    cleanUpEffects (Broken.unlisted Examples.threeWorkers) (Examples.engine 0 0) ++
    EvPerformScaleUp 2 :: rest.
Proof.
  apply (RunOnce_nodes_unlisted (Broken.unlisted Examples.threeWorkers) 5
           (Examples.engine 0 0) (100 * Second)
           (Examples.client [] "2" "5" (fun _ => [])) 2);
    [left; reflexivity | reflexivity | lia].
Defined.

(** X20: the minimum cannot be read exactly when the configmap cannot be got
    or holds, under the key of the minimum, a value that is not an integer;
    then, and also when the maximum is needed and cannot be read, [RunOnce]
    ends the process right after the clean-up: nothing is requested and no
    status is written. *)
Theorem RunOnce_bounds_unreadable (env : Env) (fuel : nat) (a : StaticAutoscaler)
    (now : Time) (kubeclient : KubeClient) :
  let run := RunOnce env fuel a now kubeclient in
  let exits :=
    res_outcome run = Exit /\
    res_trace run = cleanUpEffects env a /\
    res_self run = started a in
  (GetMinSizeNodeGroup kubeclient = Exited <->
   kc_ConfigMap kubeclient = None \/
   exists data v,
     kc_ConfigMap kubeclient = Some data /\
     data !! "min_node_group_size" = Some v /\
     Atoi v = None) /\
  (GetMinSizeNodeGroup kubeclient = Exited -> exits) /\
  (forall minSize,
     GetMinSizeNodeGroup kubeclient = Done minSize ->
     minSize <= workerCount env ->
     GetMaxSizeNodeGroup kubeclient = Exited ->
     exits).
Proof.
  intros run exits. split; [apply getSizeNodeGroup_Exited |].
  assert (Hexit : run = result Exit (atBounds env a) -> exits).
  { intros Hrun. unfold exits. rewrite Hrun. repeat split. }
  split.
  - intros Hmin. apply Hexit. unfold run. rewrite RunOnce_at_bounds.
    unfold bind at 1, enforceBounds. cbv zeta.
    unfold bind at 1. rewrite Hmin. reflexivity.
  - intros minSize Hmin Hge Hmax. apply Hexit. unfold run.
    rewrite RunOnce_at_bounds. unfold bind at 1, enforceBounds. cbv zeta.
    fold (workers env). fold (workerCount env).
    rewrite Hmin, bind_lift_Done.
    destruct (Z.ltb_spec (workerCount env) minSize) as [Hlt | _]; [lia |].
    unfold bind at 1. rewrite Hmax. reflexivity.
Qed.

Lemma RunOnce_bounds_unreadable_witness :
  res_outcome
    (RunOnce (Examples.cluster Examples.threeWorkers [] (Examples.provider 0 1)) 5
             (Examples.engine 0 0) (100 * Second) Broken.unreadable) = Exit /\
  res_trace
    (RunOnce (Examples.cluster Examples.threeWorkers [] (Examples.provider 0 1)) 5
             (Examples.engine 0 0) (100 * Second) Broken.unreadable) =
    cleanUpEffects (Examples.cluster Examples.threeWorkers [] (Examples.provider 0 1))
                   (Examples.engine 0 0) /\
  res_self
    (RunOnce (Examples.cluster Examples.threeWorkers [] (Examples.provider 0 1)) 5
             (Examples.engine 0 0) (100 * Second) Broken.unreadable) =
    started (Examples.engine 0 0).
Proof.
  apply (proj1 (proj2
    (RunOnce_bounds_unreadable
       (Examples.cluster Examples.threeWorkers [] (Examples.provider 0 1)) 5
       (Examples.engine 0 0) (100 * Second) Broken.unreadable))).
  reflexivity.
Defined.

(** X21: a configmap without the key of the maximum gives a maximum of zero:
    with at least the minimum of workers, and one worker or more, [RunOnce]
    goes for the removal of every worker; when the candidate passes the
    removability predicate, the first thing it does after the clean-up is to
    request a scale-down of as many nodes as there are workers. *)
Theorem RunOnce_without_maximum (env : Env) (fuel : nat) (a : StaticAutoscaler)
    (now : Time) (kubeclient : KubeClient) (data : gmap string string)
    (minSize : Z) :
  kc_ConfigMap kubeclient = Some data ->
  data !! "max_node_group_size" = None ->
  GetMinSizeNodeGroup kubeclient = Done minSize ->
  minSize <= workerCount env ->
  0 < workerCount env <= maxInt ->
  checkWorkerNodeCanBeRemove kubeclient (selectWorkerNameToRemove (workers env)) =
    Done true ->
  GetMaxSizeNodeGroup kubeclient = Done 0 /\
  exists rest,
    res_trace (RunOnce env fuel a now kubeclient) =
    cleanUpEffects env a ++ EvPerformScaleDown (workerCount env) :: rest.
Proof.
  intros Hdata Hkey Hmin Hge [Hpos Hfit] Hcheck.
  assert (Hmax : GetMaxSizeNodeGroup kubeclient = Done 0).
  { unfold GetMaxSizeNodeGroup, getSizeNodeGroup. rewrite Hdata, Hkey. reflexivity. }
  split; [exact Hmax |].
  rewrite RunOnce_at_bounds. unfold bind at 1.
  rewrite (enforceBounds_above_maximum env fuel kubeclient minSize 0 _
             Hmin Hmax Hge Hpos), Hcheck, bind_lift_Done.
  cbn [negb]. rewrite intSub_exact.
  - rewrite Z.sub_0_r.
    exact (request_first env kubeclient (EvPerformScaleDown (workerCount env))
             fuel a now).
  - unfold inInt, minInt, maxInt in *. rewrite andb_true_iff, !Z.leb_le. lia.
Qed.

Lemma RunOnce_without_maximum_witness :
  GetMaxSizeNodeGroup Broken.unbounded = Done 0 /\
  exists rest,
    res_trace
      (RunOnce (Examples.cluster Examples.threeWorkers [] (Examples.provider 0 1)) 5
               (Examples.engine 0 0) (100 * Second) Broken.unbounded) =
    cleanUpEffects (Examples.cluster Examples.threeWorkers [] (Examples.provider 0 1))
                   (Examples.engine 0 0) ++
    EvPerformScaleDown
      (workerCount (Examples.cluster Examples.threeWorkers [] (Examples.provider 0 1)))
    :: rest.
Proof.
  apply (RunOnce_without_maximum
           (Examples.cluster Examples.threeWorkers [] (Examples.provider 0 1)) 5
           (Examples.engine 0 0) (100 * Second) Broken.unbounded
           (<["min_node_group_size" := "1"]> ∅) 1);
    try reflexivity; try (vm_compute; discriminate).
  split; vm_compute; [reflexivity | discriminate].
Defined.

(** ** [RunOnce]: the ways a run ends *)

Section Runs.

Variable env : Env.
Variable now : Time.
Variable kubeclient : KubeClient.

(** Within the bounds, [RunOnce] goes from the clean-up to the statements
    after the bounds block. *)
Lemma RunOnce_within_bounds (fuel : nat) (a : StaticAutoscaler)
    (minSize maxSize : Z) :
  GetMinSizeNodeGroup kubeclient = Done minSize ->
  GetMaxSizeNodeGroup kubeclient = Done maxSize ->
  minSize <= workerCount env <= maxSize ->
  RunOnce env fuel a now kubeclient =
  finish env kubeclient (reconcile env now kubeclient (atBounds env a)).
Proof.
  intros Hmin Hmax Hwithin. rewrite RunOnce_at_bounds. unfold bind at 1.
  rewrite (enforceBounds_within env fuel kubeclient minSize maxSize _
             Hmin Hmax Hwithin). reflexivity.
Qed.

Lemma atBounds_options (a : StaticAutoscaler) :
  AutoscalingContext (st_self (atBounds env a)) = AutoscalingContext a.
Proof. unfold atBounds, started. simpl. destruct (initialized a); reflexivity. Qed.

(** The deferred closure, when the scale-up status processor has nothing
    left to do. *)
Lemma runDeferred_run (o : Outcome) (s : St) :
  statusDeferred (st_locals s) = true ->
  scaleUpStatusProcessorAlreadyCalled (st_locals s) = true \/
  env_ScaleUpStatusProcessor env = false \/
  sus_PodsRemainUnschedulable (scaleUpStatus (st_locals s)) = [] ->
  runDeferred env kubeclient o s =
  result o
    (advance s
       (statusEffects env (st_self s)
          (if scaleDownStatusProcessorAlreadyCalled (st_locals s)
           then None
           else Some (scaleDownStatus (st_locals s))))
       0).
Proof.
  intros Hdeferred Hup. unfold runDeferred. rewrite Hdeferred.
  unfold statusEffects, result, advance.
  unfold deferredStatus, bind, getSelf, getLocals, when, emit, emits, ret.
  destruct (WriteStatusConfigMap _); cbn [st_locals st_self st_trace st_clock];
    destruct (scaleUpStatusProcessorAlreadyCalled (st_locals s)) eqn:Eu;
    destruct (env_ScaleUpStatusProcessor env) eqn:Ep; cbn [negb andb];
    try (assert (Hpods : sus_PodsRemainUnschedulable (scaleUpStatus (st_locals s)) = [])
           by (destruct Hup as [H | [H | H]]; congruence);
         unfold callProcess, Process; rewrite Hpods; cbn [processPods];
         unfold bind, emits, lift);
    cbn [st_locals st_self st_trace st_clock];
    destruct (scaleDownStatusProcessorAlreadyCalled (st_locals s));
    destruct (env_ScaleDownStatusProcessor env); simpl;
    rewrite ?app_nil_r, <- ?app_assoc; reflexivity.
Qed.

(** [reconcile] up to the check of the health of the cluster. *)
Lemma reconcile_unhealthy (s : St) (allNodes readyNodes : list Node)
    (scheduled : list Pod) (daemonsets : list string)
    (err : option AutoscalerError) :
  obtainNodeLists env AfterBounds = (allNodes, readyNodes, None) ->
  env_ScheduledPodLister env = Some scheduled ->
  env_ShouldAbort env allNodes readyNodes now = (false, err) ->
  env_DaemonSetLister env = Some daemonsets ->
  (initializeClusterSnapshot allNodes
     (FilterOutExpendablePods scheduled
        (ExpendablePodsPriorityCutoff (AutoscalingContext (st_self s))))).1 =
    None ->
  env_IsClusterHealthy env = false ->
  reconcile env now kubeclient s =
  Returned None
    (advance
       (withSelf (with_unneededNodes [])
          (withLocals (fun _ => set_statusDeferred true initialLocals)
             (withSelf
                (with_ClusterSnapshot
                   (initializeClusterSnapshot allNodes
                      (FilterOutExpendablePods scheduled
                         (ExpendablePodsPriorityCutoff
                            (AutoscalingContext (st_self s))))).2)
                s)))
       [EvLogRecorderEvent "ClusterUnhealthy" "Cluster is unhealthy"] 0).
Proof.
  intros Hnodes Hscheduled Habort Hdaemonsets Hok Hhealthy.
  unfold reconcile. rewrite Hnodes, Hscheduled, Habort, Hdaemonsets, Hhealthy.
  unfold bind at 1. unfold ret at 1.
  unfold bind at 1. unfold orReturn at 1. unfold ret at 1.
  unfold bind at 1. unfold when at 1. unfold ret at 1.
  unfold bind at 1. unfold orReturn at 1. unfold ret at 1.
  unfold bind at 1. unfold getSelf at 1.
  destruct (initializeClusterSnapshot allNodes _) as [typedErr snapshot].
  simpl in Hok. subst typedErr. reflexivity.
Qed.

(** [reconcile] when the pods that are not scheduled cannot be listed. *)
Lemma reconcile_unschedulable_unlisted (s : St) (allNodes readyNodes : list Node)
    (scheduled : list Pod) (daemonsets : list string)
    (err : option AutoscalerError) :
  obtainNodeLists env AfterBounds = (allNodes, readyNodes, None) ->
  env_ScheduledPodLister env = Some scheduled ->
  env_ShouldAbort env allNodes readyNodes now = (false, err) ->
  env_DaemonSetLister env = Some daemonsets ->
  (initializeClusterSnapshot allNodes
     (FilterOutExpendablePods scheduled
        (ExpendablePodsPriorityCutoff (AutoscalingContext (st_self s))))).1 =
    None ->
  env_IsClusterHealthy env = true ->
  env_UnschedulablePodLister env = None ->
  reconcile env now kubeclient s =
  Returned (Some ApiCallError)
    (withLocals (fun _ => set_statusDeferred true initialLocals)
       (withSelf
          (with_ClusterSnapshot
             (initializeClusterSnapshot allNodes
                (FilterOutExpendablePods scheduled
                   (ExpendablePodsPriorityCutoff
                      (AutoscalingContext (st_self s))))).2)
          s)).
Proof.
  intros Hnodes Hscheduled Habort Hdaemonsets Hok Hhealthy Hpending.
  unfold reconcile.
  rewrite Hnodes, Hscheduled, Habort, Hdaemonsets, Hhealthy, Hpending.
  unfold bind at 1. unfold ret at 1.
  unfold bind at 1. unfold orReturn at 1. unfold ret at 1.
  unfold bind at 1. unfold when at 1. unfold ret at 1.
  unfold bind at 1. unfold orReturn at 1. unfold ret at 1.
  unfold bind at 1. unfold getSelf at 1.
  destruct (initializeClusterSnapshot allNodes _) as [typedErr snapshot].
  simpl in Hok. subst typedErr. reflexivity.
Qed.

End Runs.

(** X22: when the registry finds the cluster unhealthy, once the nodes, the
    scheduled pods and the daemon sets are listed and the snapshot is set up
    without error, [RunOnce] returns without error and without considering
    a scale-up or a scale-down: it forgets the unneeded nodes, records the
    event [ClusterUnhealthy] and writes the status; the cooldown timestamps
    stay as they are and the two outcomes are not-tried. *)
Theorem RunOnce_unhealthy (env : Env) (fuel : nat) (a : StaticAutoscaler)
    (now : Time) (kubeclient : KubeClient) (minSize maxSize : Z)
    (allNodes readyNodes : list Node) (scheduled : list Pod)
    (daemonsets : list string) (err : option AutoscalerError) :
  GetMinSizeNodeGroup kubeclient = Done minSize ->
  GetMaxSizeNodeGroup kubeclient = Done maxSize ->
  minSize <= workerCount env <= maxSize ->
  obtainNodeLists env AfterBounds = (allNodes, readyNodes, None) ->
  env_ScheduledPodLister env = Some scheduled ->
  env_ShouldAbort env allNodes readyNodes now = (false, err) ->
  env_DaemonSetLister env = Some daemonsets ->
  (initializeClusterSnapshot allNodes
     (FilterOutExpendablePods scheduled
        (ExpendablePodsPriorityCutoff (AutoscalingContext a)))).1 = None ->
  env_IsClusterHealthy env = false ->
  let run := RunOnce env fuel a now kubeclient in
  res_outcome run = Finished None /\
  res_trace run =
    cleanUpEffects env a ++
    EvLogRecorderEvent "ClusterUnhealthy" "Cluster is unhealthy" ::
    statusEffects env a (Some ScaleDownNotTried) /\
  unneededNodes (res_self run) = [] /\
  sameTimestamps a (res_self run) /\
  sus_Result (res_scaleUpStatus run) = ScaleUpNotTried /\
  res_scaleDownStatus run = ScaleDownNotTried.
Proof.
  intros Hmin Hmax Hwithin Hnodes Hscheduled Habort Hdaemonsets Hok Hhealthy run.
  unfold run. rewrite <- (atBounds_options env a) in Hok.
  rewrite (RunOnce_within_bounds env now kubeclient fuel a minSize maxSize
             Hmin Hmax Hwithin).
  rewrite (reconcile_unhealthy env now kubeclient (atBounds env a) allNodes
             readyNodes scheduled daemonsets err Hnodes Hscheduled Habort
             Hdaemonsets Hok Hhealthy).
  unfold finish. rewrite runDeferred_run by (simpl; auto).
  unfold result, advance, statusEffects, atBounds, started. simpl.
  destruct (initialized a); simpl; rewrite <- !app_assoc; repeat split.
Qed.

(** Three workers within the bounds 1 and 5, in a cluster that the registry
    finds unhealthy. *)
Lemma RunOnce_unhealthy_witness :
  res_outcome
    (RunOnce (Broken.unhealthy Examples.threeWorkers) 5 (Examples.engine 0 0)
             (1000 * Second) (Examples.client [] "1" "5" (fun _ => []))) =
  Finished None.
Proof.
  apply (RunOnce_unhealthy (Broken.unhealthy Examples.threeWorkers) 5
           (Examples.engine 0 0) (1000 * Second)
           (Examples.client [] "1" "5" (fun _ => [])) 1 5
           (map Build_Node Examples.threeWorkers)
           (map Build_Node Examples.threeWorkers) [] [] None);
    try reflexivity.
  split; vm_compute; discriminate.
Defined.

(** The run of the witness: the event, the status write and the status
    processors. *)
Example unhealthy_run_trace :
  res_trace
    (RunOnce (Broken.unhealthy Examples.threeWorkers) 5 (Examples.engine 0 0)
             (1000 * Second) (Examples.client [] "1" "5" (fun _ => []))) =
  [EvLogRecorderEvent "ClusterUnhealthy" "Cluster is unhealthy";
   EvWriteStatusConfigMap; EvScaleDownStatusProcessor ScaleDownNotTried;
   EvAutoscalingStatusProcessor].
Proof. vm_compute. reflexivity. Qed.

(** X23: a listing that fails before the status is set up makes [RunOnce]
    return an error of the API with nothing done and no status written: the
    nodes after the bounds block, the scheduled pods, the daemon sets.  When
    the pods that are not scheduled cannot be listed, later on, after the
    snapshot is set up without error, the error is the same and the status
    is written, with the scale-down outcome not-tried.
    When the actionable-cluster processor aborts the loop, [RunOnce] returns
    what the processor returns, with nothing done and no status written. *)
Theorem RunOnce_listing_failure (env : Env) (fuel : nat) (a : StaticAutoscaler)
    (now : Time) (kubeclient : KubeClient) (minSize maxSize : Z) :
  GetMinSizeNodeGroup kubeclient = Done minSize ->
  GetMaxSizeNodeGroup kubeclient = Done maxSize ->
  minSize <= workerCount env <= maxSize ->
  let run := RunOnce env fuel a now kubeclient in
  let fails :=
    res_outcome run = Finished (Some ApiCallError) /\
    res_trace run = cleanUpEffects env a /\
    res_self run = started a in
  (env_AllNodeLister env AfterBounds = None \/
   env_ReadyNodeLister env AfterBounds = None ->
   fails) /\
  (forall allNodes readyNodes,
     obtainNodeLists env AfterBounds = (allNodes, readyNodes, None) ->
     env_ScheduledPodLister env = None ->
     fails) /\
  (forall allNodes readyNodes scheduled err,
     obtainNodeLists env AfterBounds = (allNodes, readyNodes, None) ->
     env_ScheduledPodLister env = Some scheduled ->
     env_ShouldAbort env allNodes readyNodes now = (false, err) ->
     env_DaemonSetLister env = None ->
     fails) /\
  (forall allNodes readyNodes scheduled daemonsets err,
     obtainNodeLists env AfterBounds = (allNodes, readyNodes, None) ->
     env_ScheduledPodLister env = Some scheduled ->
     env_ShouldAbort env allNodes readyNodes now = (false, err) ->
     env_DaemonSetLister env = Some daemonsets ->
     (initializeClusterSnapshot allNodes
        (FilterOutExpendablePods scheduled
           (ExpendablePodsPriorityCutoff (AutoscalingContext a)))).1 = None ->
     env_IsClusterHealthy env = true ->
     env_UnschedulablePodLister env = None ->
     res_outcome run = Finished (Some ApiCallError) /\
     res_trace run =
       cleanUpEffects env a ++ statusEffects env a (Some ScaleDownNotTried) /\
     sameTimestamps a (res_self run)) /\
  (forall allNodes readyNodes scheduled err,
     obtainNodeLists env AfterBounds = (allNodes, readyNodes, None) ->
     env_ScheduledPodLister env = Some scheduled ->
     env_ShouldAbort env allNodes readyNodes now = (true, err) ->
     res_outcome run = Finished err /\
     res_trace run = cleanUpEffects env a /\
     res_self run = started a).
Proof.
  intros Hmin Hmax Hwithin run fails.
  assert (Hrun : run = finish env kubeclient (reconcile env now kubeclient (atBounds env a))).
  { apply (RunOnce_within_bounds env now kubeclient fuel a minSize maxSize);
      assumption. }
  assert (Hfails :
    reconcile env now kubeclient (atBounds env a) =
      Returned (Some ApiCallError) (atBounds env a) ->
    fails).
  { intros Hr. unfold fails. rewrite Hrun, Hr. repeat split. }
  split; [| split; [| split; [| split]]].
  - intros Hlist. apply Hfails. unfold reconcile, obtainNodeLists.
    destruct Hlist as [H | H]; rewrite H; [reflexivity |].
    destruct (env_AllNodeLister env AfterBounds); reflexivity.
  - intros allNodes readyNodes Hnodes Hscheduled. apply Hfails.
    unfold reconcile. rewrite Hnodes, Hscheduled. reflexivity.
  - intros allNodes readyNodes scheduled err Hnodes Hscheduled Habort Hdaemonsets.
    apply Hfails. unfold reconcile.
    rewrite Hnodes, Hscheduled, Habort, Hdaemonsets. reflexivity.
  - intros allNodes readyNodes scheduled daemonsets err Hnodes Hscheduled Habort
      Hdaemonsets Hok Hhealthy Hpending.
    rewrite Hrun. rewrite <- (atBounds_options env a) in Hok.
    rewrite (reconcile_unschedulable_unlisted env now kubeclient (atBounds env a)
               allNodes readyNodes scheduled daemonsets err Hnodes Hscheduled
               Habort Hdaemonsets Hok Hhealthy Hpending).
    unfold finish. rewrite runDeferred_run by (simpl; auto).
    unfold result, advance, statusEffects, atBounds, started. simpl.
    destruct (initialized a); simpl; repeat split.
  - intros allNodes readyNodes scheduled err Hnodes Hscheduled Habort.
    rewrite Hrun.
    assert (Hr : reconcile env now kubeclient (atBounds env a) =
                 Returned err (atBounds env a)).
    { unfold reconcile. rewrite Hnodes, Hscheduled, Habort. reflexivity. }
    rewrite Hr. repeat split.
Qed.

(** Three workers within the bounds 1 and 5; the nodes cannot be listed
    after the bounds block. *)
Lemma RunOnce_listing_failure_witness :
  res_outcome
    (RunOnce (Broken.relisted Examples.threeWorkers) 5 (Examples.engine 0 0)
             (1000 * Second) (Examples.client [] "1" "5" (fun _ => []))) =
    Finished (Some ApiCallError) /\
  res_trace
    (RunOnce (Broken.relisted Examples.threeWorkers) 5 (Examples.engine 0 0)
             (1000 * Second) (Examples.client [] "1" "5" (fun _ => []))) =
    cleanUpEffects (Broken.relisted Examples.threeWorkers) (Examples.engine 0 0) /\
  res_self
    (RunOnce (Broken.relisted Examples.threeWorkers) 5 (Examples.engine 0 0)
             (1000 * Second) (Examples.client [] "1" "5" (fun _ => []))) =
    started (Examples.engine 0 0).
Proof.
  assert (Hwithin :
    1 <= workerCount (Broken.relisted Examples.threeWorkers) <= 5)
    by (split; vm_compute; discriminate).
  apply (RunOnce_listing_failure (Broken.relisted Examples.threeWorkers) 5
           (Examples.engine 0 0) (1000 * Second)
           (Examples.client [] "1" "5" (fun _ => [])) 1 5 eq_refl eq_refl Hwithin).
  left. reflexivity.
Defined.

(** ** [RunOnce]: after the scale-up planner *)



(** ** [RunOnce]: after the scale-down planner *)

(** X25: when the scale-down planner is called, its outcome decides what
    [RunOnce] keeps: node-delete-started stamps [lastScaleDownDeleteTime]
    with the current time, an error stamps [lastScaleDownFailTime] and is
    returned, and [lastScaleUpTime] is left alone; the unneeded nodes get
    their soft taint when nothing was deleted and soft taints are allowed;
    the scale-down status processor is called once, with the outcome of the
    planner, before the status is written. *)
Theorem scaleDown_attempt (env : Env) (now : Time) (kubeclient : KubeClient)
    (allNodes : list Node) (s : St) (pdbs : list string)
    (candidates destinations : list Node) (unneeded : list string)
    (status : ScaleDownResult) (typedErr : option AutoscalerError)
    (effects : list Effect) :
  statusDeferred (st_locals s) = true ->
  scaleUpStatusProcessorAlreadyCalled (st_locals s) = true \/
  env_ScaleUpStatusProcessor env = false \/
  sus_PodsRemainUnschedulable (scaleUpStatus (st_locals s)) = [] ->
  ScaleDownEnabled (AutoscalingContext (st_self s)) = true ->
  env_PodDisruptionBudgetLister env = Some pdbs ->
  scaleDownNodes env kubeclient allNodes = inr (candidates, destinations) ->
  env_UpdateUnneededNodes env destinations candidates now = (None, unneeded) ->
  scaleDownInCooldown (with_unneededNodes unneeded (st_self s)) now = false ->
  env_IsNonEmptyNodeDeleteInProgress env = false ->
  TryToScaleDown env (with_unneededNodes unneeded (st_self s)) now =
    (status, typedErr, effects) ->
  let a := with_unneededNodes unneeded (st_self s) in
  let run := fromScaleDown env now kubeclient allNodes s in
  let deleting :=
    match status with ScaleDownNodeDeleteStarted => true | _ => false end in
  let tainting :=
    match status with
    | ScaleDownNoNodeDeleted | ScaleDownNoUnneeded => true
    | _ => false
    end && negb (MaxBulkSoftTaintCount (AutoscalingContext a) =? 0) in
  res_outcome run = Finished typedErr /\
  lastScaleUpTime (res_self run) = lastScaleUpTime (st_self s) /\
  lastScaleDownDeleteTime (res_self run) =
    (if deleting then now else lastScaleDownDeleteTime (st_self s)) /\
  lastScaleDownFailTime (res_self run) =
    match typedErr with
    | Some _ => now
    | None => lastScaleDownFailTime (st_self s)
    end /\
  unneededNodes (res_self run) = unneeded /\
  res_trace run =
    st_trace s ++
    EvUpdateUnneededNodes :: EvTryToScaleDown :: effects ++
    (if tainting then SoftTaintUnneededNodes a allNodes else []) ++
    (if env_ScaleDownStatusProcessor env
     then [EvScaleDownStatusProcessor status] else []) ++
    statusEffects env (st_self s) None.
Proof.
  intros Hdeferred Hup Henabled Hpdbs Hnodes Hupdate Hcool Hprogress Hplanner
    a run deleting tainting.
  set (s' :=
    {| st_self :=
         (match typedErr with
          | Some _ => with_lastScaleDownFailTime now
          | None => fun a => a
          end)
           ((if deleting then with_lastScaleDownDeleteTime now else fun a => a) a);
       st_locals :=
         (if env_ScaleDownStatusProcessor env
          then set_scaleDownStatusProcessorAlreadyCalled true
          else fun l => l) (st_locals s);
       st_trace :=
         st_trace s ++
         EvUpdateUnneededNodes :: EvTryToScaleDown :: effects ++
         (if tainting then SoftTaintUnneededNodes a allNodes else []) ++
         (if env_ScaleDownStatusProcessor env
          then [EvScaleDownStatusProcessor status] else []);
       st_clock := st_clock s |}).
  assert (Hbody :
    bind (decideScaleDown env now kubeclient allNodes)
         (fun _ => @returns unit None) s =
    Returned typedErr s').
  { assert (Hstart :
      decideScaleDown env now kubeclient allNodes s =
      (if scaleDownInCooldown a now
       then modifyLocals (set_scaleDownResult ScaleDownInCooldown)
       else if env_IsNonEmptyNodeDeleteInProgress env
       then modifyLocals (set_scaleDownResult ScaleDownInProgress)
       else
         bind (emit EvTryToScaleDown)
           (fun _ =>
              let '(scaleDownStatus, typedErr, effects) := TryToScaleDown env a now in
              bind (emits effects) (fun _ =>
              bind (when (match scaleDownStatus with
                          | ScaleDownNodeDeleteStarted => true
                          | _ => false
                          end)
                         (modifySelf (with_lastScaleDownDeleteTime now))) (fun _ =>
              bind (when (match scaleDownStatus with
                          | ScaleDownNoNodeDeleted | ScaleDownNoUnneeded => true
                          | _ => false
                          end &&
                          negb (MaxBulkSoftTaintCount (AutoscalingContext a) =? 0))
                         (emits (SoftTaintUnneededNodes a allNodes))) (fun _ =>
              bind (when (env_ScaleDownStatusProcessor env)
                         (bind (emit (EvScaleDownStatusProcessor scaleDownStatus))
                               (fun _ => modifyLocals
                                  (set_scaleDownStatusProcessorAlreadyCalled true))))
                   (fun _ =>
                      match typedErr with
                      | Some e =>
                          bind (modifySelf (with_lastScaleDownFailTime now))
                               (fun _ => returns (Some e))
                      | None => ret tt
                      end))))))
        (advance (withSelf (with_unneededNodes unneeded) s)
                 [EvUpdateUnneededNodes] 0)).
    { unfold decideScaleDown.
      unfold bind at 1. unfold getSelf. rewrite Henabled. unfold when at 1.
      unfold bind at 1. rewrite Hpdbs. unfold orReturn, ret at 1.
      unfold bind at 1. rewrite Hnodes. unfold ret at 1.
      unfold bind at 1. rewrite emit_run.
      rewrite Hupdate.
      unfold bind at 1. unfold modifySelf at 1.
      unfold bind at 1. unfold ret at 1.
      unfold bind at 1. reflexivity. }
    unfold bind at 1. rewrite Hstart. unfold a.
    rewrite Hcool, Hprogress, Hplanner. fold a.
    unfold s', tainting, deleting.
    unfold bind, when, emit, emits, modifySelf, modifyLocals, ret, returns, advance,
      withSelf.
    destruct (match status with ScaleDownNodeDeleteStarted => true | _ => false end);
      destruct (match status with
                | ScaleDownNoNodeDeleted | ScaleDownNoUnneeded => true
                | _ => false
                end && negb (MaxBulkSoftTaintCount (AutoscalingContext a) =? 0));
      destruct (env_ScaleDownStatusProcessor env);
      destruct typedErr; simpl; rewrite <- ?app_assoc; simpl;
      rewrite <- ?app_assoc; simpl; rewrite ?app_nil_r; reflexivity. }
  unfold run, fromScaleDown. rewrite Hbody. unfold finish.
  rewrite runDeferred_run.
  - unfold result, advance, s'. simpl.
    assert (Hno : forall r,
      statusEffects env (st_self s)
        (if scaleDownStatusProcessorAlreadyCalled
              ((if env_ScaleDownStatusProcessor env
                then set_scaleDownStatusProcessorAlreadyCalled true
                else fun l => l) (st_locals s))
         then None else Some r) =
      statusEffects env (st_self s) None).
    { intros r. unfold statusEffects.
      destruct (env_ScaleDownStatusProcessor env); simpl;
        destruct (scaleDownStatusProcessorAlreadyCalled (st_locals s)); reflexivity. }
    assert (Hsame : forall r,
      statusEffects env
        ((match typedErr with
          | Some _ => with_lastScaleDownFailTime now
          | None => fun a => a
          end)
           ((if deleting then with_lastScaleDownDeleteTime now else fun a => a) a)) r =
      statusEffects env (st_self s) r).
    { intros r. unfold statusEffects. destruct typedErr, deleting; reflexivity. }
    rewrite Hsame, Hno.
    repeat split.
    + destruct typedErr, deleting; reflexivity.
    + destruct typedErr, deleting; reflexivity.
    + destruct typedErr, deleting; reflexivity.
    + destruct typedErr, deleting; reflexivity.
    + rewrite <- !app_assoc. simpl. rewrite <- !app_assoc. reflexivity.
  - unfold s'. simpl. destruct (env_ScaleDownStatusProcessor env); exact Hdeferred.
  - unfold s'. simpl. destruct (env_ScaleDownStatusProcessor env); exact Hup.
Qed.

(** Three workers within the bounds, nothing pending, the last deletion long
    ago: the planner is called and finds no unneeded node. *)
Lemma scaleDown_attempt_witness :
  res_outcome
    (fromScaleDown
       (Examples.cluster Examples.threeWorkers [] (Examples.provider 0 1))
       (1000 * Second) (Examples.client [] "1" "5" (fun _ => []))
       (map Build_Node Examples.threeWorkers)
       {| st_self := Examples.engine 0 0;
          st_locals := set_statusDeferred true initialLocals;
          st_trace := []; st_clock := 0 |}) =
  Finished None.
Proof.
  exact (proj1
    (scaleDown_attempt
       (Examples.cluster Examples.threeWorkers [] (Examples.provider 0 1))
       (1000 * Second) (Examples.client [] "1" "5" (fun _ => []))
       (map Build_Node Examples.threeWorkers)
       {| st_self := Examples.engine 0 0;
          st_locals := set_statusDeferred true initialLocals;
          st_trace := []; st_clock := 0 |}
       [] (map Build_Node Examples.threeWorkers)
       (map Build_Node Examples.threeWorkers) [] ScaleDownNoUnneeded None []
       eq_refl (or_intror (or_intror eq_refl)) eq_refl eq_refl eq_refl eq_refl
       eq_refl eq_refl eq_refl)).
Defined.

(** ** [RunOnce]: what no call changes *)

Section Settled.

Lemma settled_refl (a : StaticAutoscaler) : settled a a.
Proof. split; auto. Qed.

Lemma settled_trans (a b c : StaticAutoscaler) :
  settled a b -> settled b c -> settled a c.
Proof. intros [H1 H2] [H3 H4]. split; [congruence | auto]. Qed.

Lemma self_same {A} (m : M A) :
  (forall s, st_self (final (m s)) = st_self s) -> keeps (onSelf settled) m.
Proof. intros H s. unfold onSelf. rewrite H. apply settled_refl. Qed.

Lemma self_bind {A B} (m : M A) (k : A -> M B) :
  keeps (onSelf settled) m -> (forall a, keeps (onSelf settled) (k a)) ->
  keeps (onSelf settled) (bind m k).
Proof.
  intros Hm Hk s. specialize (Hm s). unfold bind, onSelf in *.
  destruct (m s) as [a s' | err s' | s' | s' | s']; simpl in *; try exact Hm.
  exact (settled_trans _ _ _ Hm (Hk a s')).
Qed.

Lemma self_modifySelf (f : StaticAutoscaler -> StaticAutoscaler) :
  (forall a, settled a (f a)) -> keeps (onSelf settled) (modifySelf f).
Proof. intros Hf s. apply Hf. Qed.

Lemma self_lift {A} (r : GoResult A) : keeps (onSelf settled) (lift r).
Proof. apply self_same. intros s. destruct r; reflexivity. Qed.

Lemma self_callProcess (status : ScaleUpStatus) (kubeclient : KubeClient) :
  keeps (onSelf settled) (callProcess status kubeclient).
Proof.
  apply self_same. intros s. unfold callProcess.
  destruct (Process status kubeclient) as [events [[]| |]]; reflexivity.
Qed.

Variable env : Env.

Lemma waitSucceeded_self (fuel : nat) (s : St) :
  st_self (final (waitSucceeded env fuel s)) = st_self s.
Proof.
  revert s. induction fuel as [|fuel IH]; intros s; [reflexivity |].
  destruct (env_providerStatus env (S (st_clock s))) eqn:E.
  - rewrite waitSucceeded_waiting_step by congruence. rewrite IH. reflexivity.
  - rewrite waitSucceeded_succeeded by exact E. reflexivity.
  - rewrite waitSucceeded_waiting_step by congruence. rewrite IH. reflexivity.
Qed.

Lemma pollStatus_self (request : Effect) (fuel : nat) (s : St) :
  st_self (final (pollStatus env (emit request) fuel s)) = st_self s.
Proof.
  revert s. induction fuel as [|fuel IH]; intros s; [reflexivity |].
  destruct (env_providerStatus env (S (st_clock s))) eqn:E.
  - rewrite pollStatus_scaling_step by exact E. rewrite IH. reflexivity.
  - rewrite pollStatus_succeeded by exact E. reflexivity.
  - rewrite pollStatus_error by exact E. unfold bind at 1. rewrite emit_run.
    rewrite waitSucceeded_self. reflexivity.
Qed.

End Settled.

Ltac settled_step :=
  lazymatch goal with
  | |- keeps ?R (bind (orReturn (Some ?x) _ _) ?k) => change (keeps R (bind (ret x) k))
  | |- keeps _ (bind _ _) => apply self_bind; [ | intros ? ]
  | |- keeps _ (modifySelf _) =>
      apply self_modifySelf; intros ?; split; [reflexivity | simpl; auto]
  | |- keeps _ (lift _) => apply self_lift
  | |- keeps _ (callProcess _ _) => apply self_callProcess
  | |- keeps _ (pollStatus _ (emit _) _) =>
      apply self_same; intros ?; apply pollStatus_self
  | |- keeps _ (when ?c _) => unfold when; destruct c
  | |- keeps _ (orReturn ?c _ _) => unfold orReturn; destruct c
  | |- keeps _ (match ?x with _ => _ end) => destruct x
  | |- keeps _ _ => apply self_same; intros ?; reflexivity
  end.

Section SettledPhases.

Variable env : Env.
Variable now : Time.
Variable kubeclient : KubeClient.

Lemma settled_cleanUpIfRequired : keeps (onSelf settled) (cleanUpIfRequired env).
Proof. unfold cleanUpIfRequired. repeat settled_step. Qed.

Lemma settled_enforceBounds (fuel : nat) (allNodes : list Node) :
  keeps (onSelf settled) (enforceBounds env fuel kubeclient allNodes).
Proof. unfold enforceBounds. cbv zeta. repeat settled_step. Qed.

Lemma settled_decideScaleUp (readyNodes : list Node) (pods : list Pod) :
  keeps (onSelf settled) (decideScaleUp env now kubeclient readyNodes pods).
Proof. unfold decideScaleUp. repeat settled_step. Qed.

Lemma settled_decideScaleDown (allNodes : list Node) :
  keeps (onSelf settled) (decideScaleDown env now kubeclient allNodes).
Proof. unfold decideScaleDown. repeat settled_step. Qed.

Lemma settled_reconcile : keeps (onSelf settled) (reconcile env now kubeclient).
Proof.
  unfold reconcile.
  repeat first
    [ apply settled_decideScaleUp | apply settled_decideScaleDown | settled_step ].
Qed.

Lemma settled_deferredStatus :
  keeps (onSelf settled) (deferredStatus env kubeclient).
Proof. unfold deferredStatus. repeat settled_step. Qed.

Lemma settled_finish (r : Step unit) :
  settled (st_self (final r)) (res_self (finish env kubeclient r)).
Proof.
  assert (Hd : forall o s,
    settled (st_self s) (res_self (runDeferred env kubeclient o s))).
  { intros o s. unfold runDeferred.
    destruct (statusDeferred (st_locals s)); [| apply settled_refl].
    pose proof (settled_deferredStatus s) as H. unfold onSelf in H.
    destruct (deferredStatus env kubeclient s); exact H. }
  destruct r; simpl; try apply Hd; apply settled_refl.
Qed.

End SettledPhases.

(** X26: no call of [RunOnce] changes the options of the engine, and after
    every call, however it ends, the engine is initialized: with
    [cleanUpIfRequired], the taints of an earlier run are cleaned at most
    once in the life of an engine. *)
Theorem RunOnce_settled (env : Env) (fuel : nat) (a : StaticAutoscaler)
    (now : Time) (kubeclient : KubeClient) :
  AutoscalingContext (res_self (RunOnce env fuel a now kubeclient)) =
    AutoscalingContext a /\
  initialized (res_self (RunOnce env fuel a now kubeclient)) = true.
Proof.
  rewrite RunOnce_at_bounds.
  set (body := bind (enforceBounds env fuel kubeclient
                       (obtainNodeLists env BeforeBounds).1.1)
                    (fun _ => reconcile env now kubeclient)).
  assert (Hbody : keeps (onSelf settled) body).
  { apply self_bind; [apply settled_enforceBounds | intros _; apply settled_reconcile]. }
  pose proof (settled_trans _ _ _ (Hbody (atBounds env a))
                (settled_finish env kubeclient (body (atBounds env a))))
    as [Hoptions Hinitialized].
  split.
  - rewrite Hoptions. unfold atBounds, started. simpl.
    destruct (initialized a); reflexivity.
  - apply Hinitialized. unfold atBounds, started. simpl.
    destruct (initialized a) eqn:E; [exact E | reflexivity].
Qed.
